(** * RiotPipeline: a shallow embedding of [src/pipeline/pipeline_workflow.py]

    The four collection stages of [RiotPipeline] are embedded as functions in
    a state-and-exception monad.  Python values that flow through the code
    untyped are kept as [pyval]; dictionaries whose iteration order is
    observable ([tier_freq_dict]) are association lists in insertion order,
    the dictionary that is only probed ([participant_ids]) is a [gmap];
    SQLite tables are lists of rows with their declared primary key.

    [time.sleep] calls are left out: they have no effect on any value. *)

From Stdlib Require Import ZArith QArith Qabs Floats String List Lia.
From Stdlib Require Import DecimalString.
From Stdlib Require OrderedTypeEx.
From Stdlib Require Import Sorted.
From stdpp Require Import gmap strings.

Open Scope string_scope.
Open Scope list_scope.
Open Scope Z_scope.

(** ** Python values, exceptions, and the monad of statements *)

Module Py.

(** The exceptions the modelled code can raise. *)
Inductive exn : Type :=
| ValueError
| IndexError
| UnboundLocalError
| ZeroDivisionError
| TypeError
| IntegrityError      (* sqlite3.IntegrityError *)
| ApiError.           (* whatever the API client raises *)

Inductive result (A : Type) : Type :=
| Ok (a : A)
| Raise (e : exn).
Arguments Ok {A} a.
Arguments Raise {A} e.

(** JSON scalars as Python sees them. *)
Inductive pyval : Type :=
| PNone
| PInt (z : Z)
| PStr (s : string).

#[global] Instance pyval_eq_dec : EqDecision pyval.
Proof. solve_decision. Defined.

(** [f"{v}"] *)
Definition format (v : pyval) : string :=
  match v with
  | PNone => "None"
  | PInt z => NilZero.string_of_int (Z.to_int z)
  | PStr s => s
  end.

(** A statement runs on a state [S]; the state survives a raised
    exception, as the heap and the log do in Python. *)
Definition M (S A : Type) : Type := S -> S * result A.

Definition ret {S A} (a : A) : M S A := fun s => (s, Ok a).
Definition raise {S A} (e : exn) : M S A := fun s => (s, Raise e).
Definition bind {S A B} (c : M S A) (k : A -> M S B) : M S B :=
  fun s =>
    match c s with
    | (s', Ok a) => k a s'
    | (s', Raise e) => (s', Raise e)
    end.
Definition modify {S} (f : S -> S) : M S unit := fun s => (f s, Ok tt).

(** [try: c except Exception as e: h e] *)
Definition try_except {S A} (c : M S A) (h : exn -> M S A) : M S A :=
  fun s =>
    match c s with
    | (s', Ok a) => (s', Ok a)
    | (s', Raise e) => h e s'
    end.

End Py.
Import Py.

Notation "x <- c ;; k" := (bind c (fun x => k))
  (at level 100, c at next level, right associativity).
Notation "c ;;; k" := (bind c (fun _ => k))
  (at level 100, right associativity).

(** ** The constructor's stage-flag check and the orchestrator *)

Module Config.

(** [value not in (0, 1)] *)
Definition not_in_0_1 (value : Z) : bool :=
  negb ((value =? 0) || (value =? 1)).

(** The [for value in self.stages_to_process] loop of [__init__];
    [len] is [len(self.stages_to_process)], evaluated at each iteration. *)
Fixpoint check_stages (len : nat) (values : list Z) : result unit :=
  match values with
  | [] => Ok tt
  | value :: rest =>
      if not_in_0_1 value || (4 <? Z.of_nat len)
      then Raise ValueError
      else check_stages len rest
  end.

Definition __init__ (stages_to_process : list Z) : result unit :=
  check_stages (length stages_to_process) stages_to_process.

(** What the orchestrator leaves in the log. *)
Inductive action : Type :=
| TablesCreated                 (* the tables are there *)
| ProcessingStarted (k : nat)   (* "Processing Started For: <stage k>" *)
| ProcessingSkipped (k : nat).  (* "Processing Skipped For: <stage k>" *)

Section Orchestrator.

(** The store and everything else a stage can touch. *)
Variable W : Type.
(** [_create_database] and [_create_all_tables]: the database file and
    the five [CREATE TABLE IF NOT EXISTS]. *)
Variable create_tables : M W unit.
(** The undecorated bodies of the four stages, numbered from 0. *)
Variable stage : nat -> M W unit.

Definition St : Type := W * list action.

Definition log (a : action) : M St unit :=
  modify (fun s => (fst s, snd s ++ [a])).

Definition lift {A} (c : M W A) : M St A :=
  fun s => let '(w', r) := c (fst s) in ((w', snd s), r).

(** [self.stages_to_process[k]] *)
Definition index (stages_to_process : list Z) (k : nat) : M St Z :=
  match nth_error stages_to_process k with
  | Some v => ret v
  | None => raise IndexError
  end.

(** [process_decorator]: the wrapped stage runs only for [activate == 1]. *)
Definition process_decorator (k : nat) (activate : Z) : M St unit :=
  if activate =? 1
  then log (ProcessingStarted k) ;;; lift (stage k)
  else log (ProcessingSkipped k).

Definition _collect_data (stages_to_process : list Z) : M St unit :=
  a0 <- index stages_to_process 0 ;; process_decorator 0 a0 ;;;
  a1 <- index stages_to_process 1 ;; process_decorator 1 a1 ;;;
  a2 <- index stages_to_process 2 ;; process_decorator 2 a2 ;;;
  a3 <- index stages_to_process 3 ;; process_decorator 3 a3.

Definition start_pipeline (stages_to_process : list Z) : M St unit :=
  lift create_tables ;;;
  log TablesCreated ;;;
  _collect_data stages_to_process.

End Orchestrator.

(** The log entry a stage flag leaves behind. *)
Definition flag_action (k : nat) (flag : Z) : action :=
  if flag =? 1 then ProcessingStarted k else ProcessingSkipped k.

Fixpoint flag_actions (k : nat) (flags : list Z) : list action :=
  match flags with
  | [] => []
  | f :: rest => flag_action k f :: flag_actions (S k) rest
  end.

End Config.

(** ** SQLite tables with a declared primary key *)

Module Store.

Section Table.

Context {R K : Type} `{EqDecision K}.
(** The columns of the [PRIMARY KEY] clause. *)
Variable key : R -> K.
(** The [FOREIGN KEY] clauses, checked against the parent table as it
    stands when the statement runs ([PRAGMA foreign_keys = ON]). *)
Variable fk_ok : R -> bool.

Definition has_key (k : K) (t : list R) : bool :=
  existsb (fun r => bool_decide (key r = k)) t.

(** [INSERT OR IGNORE INTO t VALUES (...)]: a row whose key is taken is
    skipped; the conflict clause does not cover foreign keys. *)
Definition insert_or_ignore (r : R) (t : list R) : result (list R) :=
  if has_key (key r) t then Ok t
  else if fk_ok r then Ok (t ++ [r]) else Raise IntegrityError.

(** [INSERT INTO t VALUES (...)]: a taken key fails the statement. *)
Definition insert (r : R) (t : list R) : result (list R) :=
  if has_key (key r) t then Raise IntegrityError
  else if fk_ok r then Ok (t ++ [r]) else Raise IntegrityError.

(** [cursor.executemany(stmt, data)]: one statement per row, all in the
    transaction the connection opened. *)
Fixpoint executemany (stmt : R -> list R -> result (list R))
         (data : list R) (t : list R) : result (list R) :=
  match data with
  | [] => Ok t
  | r :: rest =>
      match stmt r t with
      | Ok t' => executemany stmt rest t'
      | Raise e => Raise e
      end
  end.

(** [with connection: executemany; commit]: the context manager rolls the
    transaction back when the block raises. *)
Definition transaction (stmt : R -> list R -> result (list R))
           (data : list R) (t : list R) : list R * result unit :=
  match executemany stmt data t with
  | Ok t' => (t', Ok tt)
  | Raise e => (t, Raise e)
  end.

End Table.

End Store.

(** ** Stage 1: what one fetched page writes *)

Module Stage1.

(** A ladder entry as the API returns it. *)
Record summoner : Type := {
  s_puuid : string;
  s_tier : string;
  s_rank : string
}.

(** A row of [Summoners_Table]; [puuid] is the primary key. *)
Record summoner_row : Type := {
  puuid : string;
  current_tier : string;
  current_division : string;
  date_collected : string
}.

(** The [for summoner in summoner_entries] loop building [data]. *)
Definition page_rows (curr_collection_date : string)
           (summoner_entries : list summoner) : list summoner_row :=
  map (fun s => {| puuid := s_puuid s; current_tier := s_tier s;
                   current_division := s_rank s;
                   date_collected := curr_collection_date |})
      summoner_entries.

(** [Summoners_Table] has no foreign key. *)
Definition insert_page (curr_collection_date : string)
           (summoner_entries : list summoner)
           (Summoners_Table : list summoner_row) : list summoner_row * result unit :=
  Store.transaction (Store.insert_or_ignore puuid (fun _ => true))
                    (page_rows curr_collection_date summoner_entries)
                    Summoners_Table.

End Stage1.

(** ** Python's [%] *)

Definition py_mod (a b : Z) : result Z :=
  if b =? 0 then Raise ZeroDivisionError else Ok (a mod b).

(** ** Stage 2: match ids per stored player *)

Module Stage2.

(** A row of [Match_ID_Table]: [(matchId, puuid)], [matchId] the primary
    key, [puuid] a foreign key into [Summoners_Table]. *)
Definition match_ref : Type := (string * string)%type.

Inductive log_entry : Type :=
| ApiFailed                      (* logger.error(f"{e}") *)
| BatchInserted (count : Z)      (* "Batch Inserted {count}" *)
| ForeignKeyConstraintFailed     (* the sqlite3.IntegrityError handler *)
| DatabaseError.                 (* the sqlite3.Error handler *)

Record state : Type := {
  Match_ID_Table : list match_ref;
  log : list log_entry
}.

Definition say (e : log_entry) : M state unit :=
  modify (fun s => {| Match_ID_Table := Match_ID_Table s; log := log s ++ [e] |}).

Section Stage.

(** [self.CallsAPI.get_matchIds_from_puuId] *)
Variable get_matchIds_from_puuId : string -> result (list string).
(** [self.batch_insert_limit]; the constructor stores the argument before
    it replaces the default, so the default run has [-1] here. *)
Variable batch_insert_limit : Z.
(** The [puuid] column of [Summoners_Table], the parent of the foreign key. *)
Variable Summoners_Table : list string.

Definition fk_ok (r : match_ref) : bool :=
  bool_decide (snd r ∈ Summoners_Table).

(** The [if count % self.batch_insert_limit == 0] block. *)
Definition flush (count : Z) (data : list match_ref) : M state unit :=
  fun s =>
    match Store.transaction (Store.insert fst fk_ok) data (Match_ID_Table s) with
    | (t', Ok _) =>
        ({| Match_ID_Table := t'; log := log s ++ [BatchInserted count] |}, Ok tt)
    | (t', Raise IntegrityError) =>
        ({| Match_ID_Table := t'; log := log s ++ [ForeignKeyConstraintFailed] |}, Ok tt)
    | (t', Raise _) =>
        ({| Match_ID_Table := t'; log := log s ++ [DatabaseError] |}, Ok tt)
    end.

(** The [for count, puuid in enumerate(puuid_list)] loop.
    [temp_match_ids] is [None] while the local is unbound; [data] is
    never cleared. *)
Fixpoint loop (count : Z) (puuid_list : list string)
         (temp_match_ids : option (list string)) (data : list match_ref)
  : M state unit :=
  match puuid_list with
  | [] => ret tt
  | puuid_str :: rest =>
      temp <- match get_matchIds_from_puuId puuid_str with
              | Ok ids => ret (Some ids)
              | Raise _ => say ApiFailed ;;; ret temp_match_ids
              end ;;
      match temp with
      | None => raise UnboundLocalError
      | Some ids =>
          let data' := data ++ map (fun match_id => (match_id, puuid_str)) ids in
          r <- (fun s => (s, py_mod count batch_insert_limit)) ;;
          (if r =? 0 then flush count data' else ret tt) ;;;
          loop (count + 1) rest temp data'
      end
  end.

(** [puuid_list] is the result of [SELECT puuid from Summoners_Table]. *)
Definition _collect_match_id_by_puuid : M state unit :=
  loop 0 Summoners_Table None [].

End Stage.

End Stage2.

(** ** Majority-vote tier *)

Module Tier.

(** [tier_freq_dict]: keys in insertion order. *)
Definition freq : Type := list (string * nat).

(** [d[tier] = d.get(tier, 0) + 1] *)
Fixpoint incr (tier : string) (d : freq) : freq :=
  match d with
  | [] => [(tier, 1%nat)]
  | (k, n) :: rest =>
      if bool_decide (k = tier) then (k, S n) :: rest
      else (k, n) :: incr tier rest
  end.

(** [if tier:] on what the lookup returned: a tier name or [None]. *)
Definition truthy (tier : option string) : option string :=
  match tier with
  | Some s => if bool_decide (s = "") then None else Some s
  | None => None
  end.

(** [max(d, key=d.get)] keeps the first key that reaches the maximum. *)
Fixpoint max_from (best : string * nat) (d : freq) : string :=
  match d with
  | [] => fst best
  | (k, n) :: rest =>
      if (snd best <? n)%nat then max_from (k, n) rest else max_from best rest
  end.

Definition py_max (d : freq) : result string :=
  match d with
  | [] => Raise ValueError      (* max() arg is an empty sequence *)
  | kv :: rest => Ok (max_from kv rest)
  end.

Section Vote.

(** [self.CallsAPI.get_summoner_tier_from_puuid] *)
Variable get_summoner_tier_from_puuid : string -> result (option string).

(** The [for puuid in player_puuids] loop.  [tier] is [None] while the
    local is unbound; the handler only logs, so a failed call leaves
    [tier] as the previous iteration set it. *)
Fixpoint tally (player_puuids : list string) (tier : option (option string))
         (tier_freq_dict : freq) : result freq :=
  match player_puuids with
  | [] => Ok tier_freq_dict
  | puuid :: rest =>
      let tier' := match get_summoner_tier_from_puuid puuid with
                   | Ok t => Some t
                   | Raise _ => tier
                   end in
      match tier' with
      | None => Raise UnboundLocalError
      | Some t =>
          tally rest tier'
                (match truthy t with
                 | Some s => incr s tier_freq_dict
                 | None => tier_freq_dict
                 end)
      end
  end.

Definition _get_majority_tier (player_puuids : list string) : result string :=
  match tally player_puuids None [] with
  | Ok d => py_max d
  | Raise e => Raise e
  end.

(** The tiers the successful lookups returned, in call order. *)
Definition successful_votes (player_puuids : list string) : list string :=
  flat_map (fun puuid =>
              match get_summoner_tier_from_puuid puuid with
              | Ok t => match truthy t with Some s => [s] | None => [] end
              | Raise _ => []
              end) player_puuids.

(** The frequency table of a list of votes. *)
Definition count_votes (votes : list string) : freq :=
  fold_left (fun d s => incr s d) votes [].

End Vote.

End Tier.

(** ** Python floats

    The arithmetic of the [goldPerMinute] computation is binary64, as
    CPython computes it.  The operations are collected in a class so that the
    stage can be stated over them; rationals serve further down to measure
    how far a binary64 result is from an exact quotient, never to compute
    what the code computes. *)

Class PyFloat (F : Type) : Type := {
  of_int : Z -> F;          (* float(n) *)
  fmul : F -> F -> F;
  fdiv : F -> F -> F;       (* the quotient for a non-zero divisor *)
  is_zero : F -> bool;
  tenth : F                 (* the literal 0.1 *)
}.

(** [a / b] on floats. *)
Definition truediv {F} `{PyFloat F} (a b : F) : result F :=
  if is_zero b then Raise ZeroDivisionError else Ok (fdiv a b).

(** [float(n)].  The conversion is exact for [|n| <= 2^53], which covers
    the durations and gold amounts of a payload; larger integers are outside
    what is modelled. *)
Definition float_of_Z (n : Z) : float :=
  if n <? 0 then PrimFloat.opp (PrimFloat.of_uint63 (Uint63.of_Z (- n)))
  else PrimFloat.of_uint63 (Uint63.of_Z n).

#[global] Instance binary64 : PyFloat float := {
  of_int := float_of_Z;
  fmul := PrimFloat.mul;
  fdiv := PrimFloat.div;
  is_zero := fun x => PrimFloat.eqb x 0%float;
  tenth := 0x1.999999999999ap-4%float
}.

(** The rational a finite binary64 number stands for. *)
Definition Q_of_float (f : float) : option Q :=
  match Prim2SF f with
  | S754_zero _ => Some (inject_Z 0)
  | S754_finite s m e =>
      Some (Qmult (Qmult (inject_Z (if s then -1 else 1)) (inject_Z (Zpos m)))
                  (Qpower (inject_Z 2) e))
  | _ => None
  end.

(** [f] is finite and differs from [q] by at most [|q| / 2^51]. *)
Definition close (q : Q) (f : float) : bool :=
  match Q_of_float f with
  | Some x => Qle_bool (Qmult (Qabs (Qminus x q)) (Qpower (inject_Z 2) 51)) (Qabs q)
  | None => false
  end.

(** ** Stage 3: match detail, team rows and participant rows *)

Module Stage3.

(** [team["objectives"]]; [atakhan] is read with [.get] and may be missing. *)
Record objectives : Type := {
  atakhan : option Z;
  baron : Z;
  champion : Z;
  dragon : Z;
  horde : Z;
  riftHerald : Z;
  tower : Z
}.

Record team : Type := {
  t_objectives : objectives;
  t_teamId : Z;
  t_win : bool
}.

(** [match_data["info"]["participants"][k]].  The twenty-six columns that
    are copied from the payload unchanged and that no later stage reads
    travel together in [p_copied]. *)
Record participant : Type := {
  p_puuid : string;
  p_teamId : Z;
  p_goldEarned : Z;
  p_teamPosition : string;
  p_copied : list pyval
}.

Record match_data : Type := {
  metadata_participants : list string;
  teams : list team;
  endOfGameResult : string;
  gameEndTimestamp : option Z;     (* read with [.get(..., 0)] *)
  gameDuration : Z;
  participants : list participant
}.

(** A row of [Match_Data_Teams_Table]; primary key [(matchId, teamId)]. *)
Record team_row : Type := {
  tr_matchId : string;
  tr_killedAtakhan : Z;
  tr_baronKills : Z;
  tr_championKills : Z;
  tr_dragonKills : Z;
  tr_dragonSoul : bool;
  tr_hordeKills : Z;
  tr_riftHeraldKills : Z;
  tr_towerKills : Z;
  tr_teamId : Z;
  tr_teamWin : bool;
  tr_gameTier : string;
  tr_endOfGameResult : string
}.

(** A row of [Match_Data_Participants_Table]; primary key
    [(puuId, matchId)]. *)
Record participant_row (F : Type) : Type := {
  pr_puuId : string;
  pr_matchId : string;
  pr_teamId : Z;
  pr_gameTier : string;
  pr_goldEarned : Z;
  pr_goldPerMinute : F;
  pr_teamPosition : string;
  pr_copied : list pyval;
  pr_endOfGameResult : string
}.
Arguments pr_puuId {F} _.
Arguments pr_matchId {F} _.
Arguments pr_teamId {F} _.
Arguments pr_gameTier {F} _.
Arguments pr_goldEarned {F} _.
Arguments pr_goldPerMinute {F} _.
Arguments pr_teamPosition {F} _.
Arguments pr_copied {F} _.
Arguments pr_endOfGameResult {F} _.

Inductive log_entry : Type :=
| Fetched (match_id : string)       (* get_match_data_from_matchId was called *)
| InsertSuccessful                  (* "Insert of teams data successful" *)
| DatabaseError                     (* the sqlite3.Error handler *)
| LoopAborted (e : exn).            (* the outer [except Exception] *)

Record state (F : Type) : Type := {
  Match_Data_Teams_Table : list team_row;
  Match_Data_Participants_Table : list (participant_row F);
  data_teams : list team_row;
  data_participants : list (participant_row F);
  log : list log_entry
}.
Arguments Match_Data_Teams_Table {F} _.
Arguments Match_Data_Participants_Table {F} _.
Arguments data_teams {F} _.
Arguments data_participants {F} _.
Arguments log {F} _.

(** The team tuple built from [teams_data[k]]. *)
Definition team_data (match_id : string) (t : team) (game_tier : string)
           (endOfGameResult : string) : team_row :=
  let o := t_objectives t in
  {| tr_matchId := match_id;
     tr_killedAtakhan := match atakhan o with Some k => k | None => 0 end;
     tr_baronKills := baron o;
     tr_championKills := champion o;
     tr_dragonKills := dragon o;
     tr_dragonSoul := if dragon o <? 4 then false else true;
     tr_hordeKills := horde o;
     tr_riftHeraldKills := riftHerald o;
     tr_towerKills := tower o;
     tr_teamId := t_teamId t;
     tr_teamWin := t_win t;
     tr_gameTier := game_tier;
     tr_endOfGameResult := endOfGameResult |}.

Section Stage.

Context {F : Type} `{PyFloat F}.

(** [self.CallsAPI.get_match_data_from_matchId] *)
Variable get_match_data_from_matchId : string -> result match_data.
Variable get_summoner_tier_from_puuid : string -> result (option string).
Variable batch_insert_limit : Z.
(** The [matchId] column of [Match_ID_Table]: the rows the stage reads
    and the parent of both foreign keys. *)
Variable Match_ID_Table : list string.

(** [if gameEndTimestamp: gameDuration / 60 else: gameDuration * 0.1 / 60] *)
Definition game_duration (m : match_data) : F :=
  match gameEndTimestamp m with
  | Some ts =>
      if ts =? 0
      then fdiv (fmul (of_int (gameDuration m)) tenth) (of_int 60)
      else fdiv (of_int (gameDuration m)) (of_int 60)
  | None => fdiv (fmul (of_int (gameDuration m)) tenth) (of_int 60)
  end.

(** [participant["goldEarned"] / game_duration] *)
Definition gold_per_minute (p : participant) (minutes : F) : result F :=
  truediv (of_int (p_goldEarned p)) minutes.

Definition participant_data (match_id : string) (p : participant)
           (game_tier : string) (gpm : F) (endOfGameResult : string)
  : participant_row F :=
  {| pr_puuId := p_puuid p;
     pr_matchId := match_id;
     pr_teamId := p_teamId p;
     pr_gameTier := game_tier;
     pr_goldEarned := p_goldEarned p;
     pr_goldPerMinute := gpm;
     pr_teamPosition := p_teamPosition p;
     pr_copied := p_copied p;
     pr_endOfGameResult := endOfGameResult |}.

Definition say (e : log_entry) : M (state F) unit :=
  modify (fun s => {| Match_Data_Teams_Table := Match_Data_Teams_Table s;
                      Match_Data_Participants_Table := Match_Data_Participants_Table s;
                      data_teams := data_teams s;
                      data_participants := data_participants s;
                      log := log s ++ [e] |}).

Definition append_teams (rows : list team_row) : M (state F) unit :=
  modify (fun s => {| Match_Data_Teams_Table := Match_Data_Teams_Table s;
                      Match_Data_Participants_Table := Match_Data_Participants_Table s;
                      data_teams := data_teams s ++ rows;
                      data_participants := data_participants s;
                      log := log s |}).

Definition append_participant (row : participant_row F) : M (state F) unit :=
  modify (fun s => {| Match_Data_Teams_Table := Match_Data_Teams_Table s;
                      Match_Data_Participants_Table := Match_Data_Participants_Table s;
                      data_teams := data_teams s;
                      data_participants := data_participants s ++ [row];
                      log := log s |}).

(** The [for participant in participants] loop. *)
Fixpoint participants_loop (match_id game_tier eogr : string) (minutes : F)
         (ps : list participant) : M (state F) unit :=
  match ps with
  | [] => ret tt
  | p :: rest =>
      gpm <- (fun s => (s, gold_per_minute p minutes)) ;;
      append_participant (participant_data match_id p game_tier gpm eogr) ;;;
      participants_loop match_id game_tier eogr minutes rest
  end.

(** The [if i == 0] block, which reads [data_participants[0]] for the
    log. *)
Definition log_first_rows : M (state F) unit :=
  fun s => match data_participants s with
           | [] => (s, Raise IndexError)
           | _ :: _ => (s, Ok tt)
           end.

Definition fk_ok (match_id : string) : bool :=
  bool_decide (match_id ∈ Match_ID_Table).

(** The [if i % self.batch_insert_limit == 0] block: two [executemany],
    each followed by its own [commit]. *)
Definition flush : M (state F) unit :=
  fun s =>
    match Store.transaction
            (Store.insert_or_ignore (fun r => (tr_matchId r, tr_teamId r))
                                    (fun r => fk_ok (tr_matchId r)))
            (data_teams s) (Match_Data_Teams_Table s) with
    | (_, Raise _) => say DatabaseError s
    | (teams', Ok _) =>
        match Store.transaction
                (Store.insert_or_ignore (fun r => (pr_puuId r, pr_matchId r))
                                        (fun r => fk_ok (pr_matchId r)))
                (data_participants s) (Match_Data_Participants_Table s) with
        | (_, Raise _) =>
            ({| Match_Data_Teams_Table := teams';
                Match_Data_Participants_Table := Match_Data_Participants_Table s;
                data_teams := data_teams s;
                data_participants := data_participants s;
                log := log s ++ [DatabaseError] |}, Ok tt)
        | (parts', Ok _) =>
            ({| Match_Data_Teams_Table := teams';
                Match_Data_Participants_Table := parts';
                data_teams := data_teams s;
                data_participants := data_participants s;
                log := log s ++ [InsertSuccessful] |}, Ok tt)
        end
    end.

(** The [for i, match_id in enumerate(match_ids)] loop. *)
Fixpoint loop (i : Z) (match_ids : list string) : M (state F) unit :=
  match match_ids with
  | [] => ret tt
  | match_id :: rest =>
      say (Fetched match_id) ;;;
      m <- (fun s => (s, get_match_data_from_matchId match_id)) ;;
      game_tier <- (fun s => (s, Tier._get_majority_tier
                                   get_summoner_tier_from_puuid
                                   (metadata_participants m))) ;;
      team1 <- (fun s => (s, match nth_error (teams m) 0 with
                             | Some t => Ok t | None => Raise IndexError end)) ;;
      team2 <- (fun s => (s, match nth_error (teams m) 1 with
                             | Some t => Ok t | None => Raise IndexError end)) ;;
      append_teams [team_data match_id team1 game_tier (endOfGameResult m);
                    team_data match_id team2 game_tier (endOfGameResult m)] ;;;
      participants_loop match_id game_tier (endOfGameResult m)
                        (game_duration m) (participants m) ;;;
      (if i =? 0 then log_first_rows else ret tt) ;;;
      if i =? 1 then ret tt            (* if i == 1: break *)
      else
        r <- (fun s => (s, py_mod i batch_insert_limit)) ;;
        (if r =? 0 then flush else ret tt) ;;;
        loop (i + 1) rest
  end.

(** [match_ids] is the result of [SELECT matchId FROM Match_ID_Table];
    the loop sits in one [try ... except Exception]. *)
Definition _collect_match_data_by_matchId : M (state F) unit :=
  try_except (loop 0 Match_ID_Table) (fun e => say (LoopAborted e)).

(** The match ids the stage asked the API about. *)
Definition fetched (s : state F) : list string :=
  flat_map (fun e => match e with Fetched m => [m] | _ => [] end) (log s).

End Stage.

End Stage3.

(** ** Stage 4: the timeline of a match *)

Module Stage4.

(** [data["info"]["participants"][k]] *)
Record tl_participant : Type := {
  participantId : Z;
  tl_puuid : string
}.

(** An entry of [frame["events"]].  Everything except [type] is read with
    [.get]; a missing key reads as [PNone]. *)
Record event : Type := {
  e_type : string;
  killerId : pyval;
  position_x : pyval;
  position_y : pyval;
  e_timestamp : pyval;
  killerTeamId : pyval;
  monsterType : pyval;
  e_teamId : pyval;
  buildingType : pyval
}.

Record participantFrame : Type := {
  pf_x : pyval;
  pf_y : pyval
}.

(** [participantFrames] is a JSON object: its keys are strings, kept in
    document order. *)
Record frame : Type := {
  events : list event;
  f_timestamp : pyval;
  participantFrames : list (string * participantFrame)
}.

Record timeline : Type := {
  tl_participants : list tl_participant;
  frames : list frame
}.

(** A row of [Match_Timeline_Table]; primary key
    [(matchId, puuId, timestamp)]. *)
Record row : Type := {
  matchId : string;
  puuId : pyval;
  teamId : pyval;
  inGameId : pyval;
  teamPosition : pyval;
  x : pyval;
  y : pyval;
  timestamp : pyval;
  event_name : pyval;     (* column [event] *)
  event_type : pyval      (* column [type] *)
}.

(** The function-level locals that one event may leave for the next;
    [None] while the local is unbound. *)
Record locals : Type := {
  in_game_id_e : option pyval;
  puuid_e : option pyval;
  position_x_e : option pyval;
  position_y_e : option pyval;
  timestamp_e : option pyval;
  team_position_e : option pyval;
  team_id_e : option pyval;
  event_type_e : option pyval
}.

Definition unbound : locals :=
  {| in_game_id_e := None; puuid_e := None; position_x_e := None;
     position_y_e := None; timestamp_e := None; team_position_e := None;
     team_id_e := None; event_type_e := None |}.

Inductive log_entry : Type :=
| TimelineFetched (match_id : string)
    (* get_match_timestamps_from_matcId was called *)
| Query (puuid match_id : string)
    (* the SELECT of _get_teamId_teamPos was executed *)
| NoData (puuid match_id : string)
    (* "No id and position data for player" *)
| Excluding (puuid : pyval) (event : string) (match_id : string)
    (* "Excluding this frame data" *)
| BatchInserted (iter_ : Z)
| ForeignKeyConstraintFailed
| DatabaseError.

Record state : Type := {
  vars : locals;
  data_events : list row;
  Match_Timeline_Table : list row;
  log : list log_entry
}.

Definition say (e : log_entry) : M state unit :=
  modify (fun s => {| vars := vars s; data_events := data_events s;
                      Match_Timeline_Table := Match_Timeline_Table s;
                      log := log s ++ [e] |}).

Definition assign (f : locals -> locals) : M state unit :=
  modify (fun s => {| vars := f (vars s); data_events := data_events s;
                      Match_Timeline_Table := Match_Timeline_Table s;
                      log := log s |}).

(** [data_events.append(r)] *)
Definition append (r : row) : M state unit :=
  modify (fun s => {| vars := vars s; data_events := data_events s ++ [r];
                      Match_Timeline_Table := Match_Timeline_Table s;
                      log := log s |}).

(** Reading a local. *)
Definition read (field : locals -> option pyval) : M state pyval :=
  fun s => match field (vars s) with
           | Some v => (s, Ok v)
           | None => (s, Raise UnboundLocalError)
           end.

(** How a loop body ends. *)
Inductive flow : Type := Next | Break.

Definition kill_types : list string :=
  ["ELITE_MONSTER_KILL"; "CHAMPION_KILL"; "BUILDING_KILL"].

(** [participant_ids.get(k)] *)
Definition dict_get (participant_ids : gmap Z string) (k : pyval) : pyval :=
  match k with
  | PInt z => match participant_ids !! z with Some s => PStr s | None => PNone end
  | _ => PNone
  end.

(** [int(s)] on the decimal numerals that JSON object keys of
    [participantFrames] are. *)
Definition py_int (s : string) : result Z :=
  match NilZero.int_of_string s with
  | Some i => Ok (Z.of_int i)
  | None => Raise ValueError
  end.

(** [participant_ids = {0: "Minion"}], then one assignment per participant. *)
Definition build_participant_ids (ps : list tl_participant) : gmap Z string :=
  fold_left (fun d p => <[participantId p := tl_puuid p]> d) ps
            (<[0 := "Minion"]> ∅).

Section Stage.

Context {F : Type}.

(** [self.CallsAPI.get_match_timestamps_from_matcId] *)
Variable get_match_timestamps_from_matcId : string -> result timeline.
Variable eventTypesToConsider : list string.
Variable batch_insert_limit : Z.
(** The table Stage 3 writes, read here. *)
Variable Match_Data_Participants_Table : list (Stage3.participant_row F).
(** The [matchId] column of [Match_ID_Table], parent of the foreign key. *)
Variable Match_ID_Table : list string.

(** [_get_teamId_teamPos]: the identifier is spliced into the text of the
    query with an f-string, so the comparison is on its formatted form
    (identifiers carry no quote character). *)
Definition _get_teamId_teamPos (puuid : pyval) (match_id : string)
  : M state (option (pyval * pyval)) :=
  if bool_decide (puuid = PStr "Minion") then ret (Some (PNone, PStr ""))
  else
    say (Query (format puuid) match_id) ;;;
    match filter (fun r => Stage3.pr_puuId r = format puuid
                           ∧ Stage3.pr_matchId r = match_id)
                 Match_Data_Participants_Table with
    | [] => say (NoData (format puuid) match_id) ;;; ret None
    | r :: _ => ret (Some (PInt (Stage3.pr_teamId r),
                           PStr (Stage3.pr_teamPosition r)))
    end.

(** The block under
    [if event['type'] in ["ELITE_MONSTER_KILL", "CHAMPION_KILL", "BUILDING_KILL"]]. *)
Definition kill_block (id : string) (participant_ids : gmap Z string)
           (ev : event) : M state flow :=
  let in_game_id := killerId ev in
  let puuid := if bool_decide (in_game_id = PInt 0) then PStr "Minion"
               else dict_get participant_ids in_game_id in
  assign (fun l => {| in_game_id_e := Some in_game_id;
                      puuid_e := Some puuid;
                      position_x_e := Some (position_x ev);
                      position_y_e := Some (position_y ev);
                      timestamp_e := Some (e_timestamp ev);
                      team_position_e := team_position_e l;
                      team_id_e := team_id_e l;
                      event_type_e := event_type_e l |}) ;;;
  teamId_teamPos <- _get_teamId_teamPos puuid id ;;
  match teamId_teamPos with
  | None =>
      if bool_decide (puuid ≠ PStr "Minion")
      then say (Excluding puuid (e_type ev) id) ;;; ret Break
      else raise TypeError          (* None[1] *)
  | Some (team_id, team_position) =>
      let attrs :=
        if bool_decide (e_type ev = "ELITE_MONSTER_KILL")
        then Some (killerTeamId ev, monsterType ev)
        else if bool_decide (e_type ev = "CHAMPION_KILL")
        then Some (team_id, PStr "KILL")
        else if bool_decide (e_type ev = "BUILDING_KILL")
        then Some (e_teamId ev, buildingType ev)   (* the team that LOST the building *)
        else None in
      assign (fun l => {| in_game_id_e := in_game_id_e l;
                          puuid_e := puuid_e l;
                          position_x_e := position_x_e l;
                          position_y_e := position_y_e l;
                          timestamp_e := timestamp_e l;
                          team_position_e := Some team_position;
                          team_id_e := match attrs with
                                       | Some a => Some (fst a)
                                       | None => team_id_e l
                                       end;
                          event_type_e := match attrs with
                                          | Some a => Some (snd a)
                                          | None => event_type_e l
                                          end |}) ;;;
      ret Next
  end.

(** The tuple [frame_event], built from the locals as they stand. *)
Definition frame_event (id : string) (ev : event) : M state row :=
  puuid <- read puuid_e ;;
  team_id <- read team_id_e ;;
  in_game_id <- read in_game_id_e ;;
  team_position <- read team_position_e ;;
  px <- read position_x_e ;;
  py <- read position_y_e ;;
  ts <- read timestamp_e ;;
  ety <- read event_type_e ;;
  ret {| matchId := id; puuId := puuid; teamId := team_id;
         inGameId := in_game_id; teamPosition := team_position;
         x := px; y := py; timestamp := ts;
         event_name := PStr (e_type ev); event_type := ety |}.

(** The body of [for event in frame['events']]. *)
Definition event_body (id : string) (participant_ids : gmap Z string)
           (ev : event) : M state flow :=
  if bool_decide (e_type ev ∈ eventTypesToConsider) then
    f <- (if bool_decide (e_type ev ∈ kill_types)
          then kill_block id participant_ids ev
          else ret Next) ;;
    match f with
    | Break => ret Break
    | Next => r <- frame_event id ev ;; append r ;;; ret Next
    end
  else ret Next.

Fixpoint events_loop (id : string) (participant_ids : gmap Z string)
         (evs : list event) : M state unit :=
  match evs with
  | [] => ret tt
  | ev :: rest =>
      f <- event_body id participant_ids ev ;;
      match f with
      | Next => events_loop id participant_ids rest
      | Break => ret tt
      end
  end.

(** The body of [for participantId, participantFrame in ...items()]. *)
Definition sample_body (id : string) (participant_ids : gmap Z string)
           (general_timestamp : pyval) (kv : string * participantFrame)
  : M state flow :=
  let in_game_id_p := fst kv in
  k <- (fun s => (s, py_int in_game_id_p)) ;;
  let puuid_p := dict_get participant_ids (PInt k) in
  teamId_teamPos <- _get_teamId_teamPos puuid_p id ;;
  match teamId_teamPos with
  | None => say (Excluding puuid_p "PARTICIPANT_FRAME" id) ;;; ret Break
  | Some (team_id_p, team_position_p) =>
      append {| matchId := id; puuId := puuid_p; teamId := team_id_p;
                inGameId := PStr in_game_id_p;
                teamPosition := team_position_p;
                x := pf_x (snd kv); y := pf_y (snd kv);
                timestamp := general_timestamp;
                event_name := PStr "POSITION";
                event_type := PStr "PARTICIPANT_FRAME" |} ;;;
      ret Next
  end.

Fixpoint samples_loop (id : string) (participant_ids : gmap Z string)
         (general_timestamp : pyval) (kvs : list (string * participantFrame))
  : M state unit :=
  match kvs with
  | [] => ret tt
  | kv :: rest =>
      f <- sample_body id participant_ids general_timestamp kv ;;
      match f with
      | Next => samples_loop id participant_ids general_timestamp rest
      | Break => ret tt
      end
  end.

(** The body of [for frame in data['info']['frames']]. *)
Definition frame_body (id : string) (participant_ids : gmap Z string)
           (fr : frame) : M state unit :=
  events_loop id participant_ids (events fr) ;;;
  samples_loop id participant_ids (f_timestamp fr) (participantFrames fr).

Fixpoint frames_loop (id : string) (participant_ids : gmap Z string)
         (frs : list frame) : M state unit :=
  match frs with
  | [] => ret tt
  | fr :: rest =>
      frame_body id participant_ids fr ;;;
      frames_loop id participant_ids rest
  end.

(** The [if iter_ % self.batch_insert_limit] block.  (SQLite never reports
    a conflict on a key with a NULL component; the comparison here is on
    the three columns as values.) *)
Definition flush (iter_ : Z) : M state unit :=
  fun s =>
    match Store.transaction
            (Store.insert_or_ignore (fun r => (matchId r, puuId r, timestamp r))
                                    (fun r => bool_decide (matchId r ∈ Match_ID_Table)))
            (data_events s) (Match_Timeline_Table s) with
    | (t', Ok _) =>
        ({| vars := vars s; data_events := data_events s;
            Match_Timeline_Table := t';
            log := log s ++ [BatchInserted iter_] |}, Ok tt)
    | (_, Raise IntegrityError) => say ForeignKeyConstraintFailed s
    | (_, Raise _) => say DatabaseError s
    end.

(** The [for iter_, match_id in enumerate(match_ids)] loop. *)
Fixpoint loop (iter_ : Z) (match_ids : list string) : M state unit :=
  match match_ids with
  | [] => ret tt
  | id :: rest =>
      say (TimelineFetched id) ;;;
      data <- (fun s => (s, get_match_timestamps_from_matcId id)) ;;
      let participant_ids := build_participant_ids (tl_participants data) in
      frames_loop id participant_ids (frames data) ;;;
      if iter_ =? 0 then ret tt        (* if iter_ == 0: break *)
      else
        r <- (fun s => (s, py_mod iter_ batch_insert_limit)) ;;
        (if negb (r =? 0) then flush iter_ else ret tt) ;;;
        loop (iter_ + 1) rest
  end.

(** The order of the primary key [(puuId, matchId)]: both columns are
    TEXT and compare byte by byte, a proper prefix first. *)
Definition key_le (r1 r2 : Stage3.participant_row F) : bool :=
  match String.compare (Stage3.pr_puuId r1) (Stage3.pr_puuId r2) with
  | Lt => true
  | Eq => String.leb (Stage3.pr_matchId r1) (Stage3.pr_matchId r2)
  | Gt => false
  end.

Fixpoint index_insert (r : Stage3.participant_row F)
         (index : list (Stage3.participant_row F))
  : list (Stage3.participant_row F) :=
  match index with
  | [] => [r]
  | r' :: rest =>
      if key_le r r' then r :: r' :: rest else r' :: index_insert r rest
  end.

(** The rows as the index of the primary key holds them. *)
Definition index_order (table : list (Stage3.participant_row F))
  : list (Stage3.participant_row F) :=
  fold_right index_insert [] table.

(** Each value once, where it comes first. *)
Fixpoint first_occurrences (l : list string) : list string :=
  match l with
  | [] => []
  | x :: rest => x :: filter (fun y => y <> x) (first_occurrences rest)
  end.

(** [SELECT DISTINCT matchId FROM Match_Data_Participants_Table].
    SQLite answers the query from the index of the primary key, the only
    index there is and one that holds the column: it scans the index in
    key order and returns each [matchId] where it first meets it.  The
    order of insertion plays no part. *)
Definition distinct_matchIds : list string :=
  first_occurrences
    (map Stage3.pr_matchId (index_order Match_Data_Participants_Table)).

Definition _collect_match_timeline_by_matchId : M state unit :=
  loop 0 distinct_matchIds.

(** The match ids the stage asked the API about. *)
Definition fetched (s : state) : list string :=
  flat_map (fun e => match e with TimelineFetched m => [m] | _ => [] end) (log s).

(** The store lookups that were executed. *)
Definition queries (s : state) : list (string * string) :=
  flat_map (fun e => match e with Query p m => [(p, m)] | _ => [] end) (log s).

End Stage.

Definition initial : state :=
  {| vars := unbound; data_events := []; Match_Timeline_Table := []; log := [] |}.

End Stage4.

(** ** Inputs used in the examples *)

Module Fixtures.

(** Tier lookups of which the one for [p2] fails. *)
Definition flaky (puuid : string) : result (option string) :=
  if bool_decide (puuid = "p1") then Ok (Some "GOLD")
  else if bool_decide (puuid = "p2") then Raise ApiError
  else Ok (Some "SILVER").

(** Two stored players with one match each. *)
Definition two_players (puuid : string) : result (list string) :=
  if bool_decide (puuid = "p1") then Ok ["m1"] else Ok ["m2"].

Definition empty : Stage2.state :=
  {| Stage2.Match_ID_Table := []; Stage2.log := [] |}.

(** A payload with nothing but a duration and an end timestamp. *)
Definition lasting (duration : Z) (ended : option Z) : Stage3.match_data :=
  {| Stage3.metadata_participants := []; Stage3.teams := []; Stage3.endOfGameResult := "";
     Stage3.gameEndTimestamp := ended; Stage3.gameDuration := duration; Stage3.participants := [] |}.

(** 1800 units played, with and without an end timestamp. *)
Definition ended_1800 : Stage3.match_data := lasting 1800 (Some 1700000000000).
Definition unended_1800 : Stage3.match_data := lasting 1800 None.

(** A well-formed match payload: two teams, two players, 1800 seconds. *)
Definition a_team (id : Z) (win : bool) : Stage3.team :=
  {| Stage3.t_objectives :=
       {| Stage3.atakhan := None; Stage3.baron := 1; Stage3.champion := 20;
          Stage3.dragon := 4; Stage3.horde := 3; Stage3.riftHerald := 1;
          Stage3.tower := 9 |};
     Stage3.t_teamId := id; Stage3.t_win := win |}.

Definition a_player (puuid : string) (team : Z) (position : string)
  : Stage3.participant :=
  {| Stage3.p_puuid := puuid; Stage3.p_teamId := team;
     Stage3.p_goldEarned := 12000; Stage3.p_teamPosition := position;
     Stage3.p_copied := [] |}.

Definition a_match : Stage3.match_data :=
  {| Stage3.metadata_participants := ["a"; "b"];
     Stage3.teams := [a_team 100 true; a_team 200 false];
     Stage3.endOfGameResult := "GameComplete";
     Stage3.gameEndTimestamp := Some 1700000000000;
     Stage3.gameDuration := 1800;
     Stage3.participants := [a_player "a" 100 "TOP"; a_player "b" 200 "JUNGLE"] |}.

Definition stage3_start : Stage3.state float :=
  {| Stage3.Match_Data_Teams_Table := [];
     Stage3.Match_Data_Participants_Table := [];
     Stage3.data_teams := []; Stage3.data_participants := [];
     Stage3.log := [] |}.

(** Stage 3 on three stored matches, every call to the API answering. *)
Definition stage3_run : Stage3.state float :=
  fst (Stage3._collect_match_data_by_matchId
         (fun _ => Ok a_match) (fun _ => Ok (Some "GOLD")) 1000
         ["m0"; "m1"; "m2"] stage3_start).

(** Stored participants: player [b] in matches [m0] and [m1]. *)
Definition stored_row (puuid match_id : string) (team : Z) (position : string)
  : Stage3.participant_row float :=
  Stage3.participant_data match_id (a_player puuid team position) "GOLD"
                          400%float "GameComplete".

Definition stored : list (Stage3.participant_row float) :=
  [stored_row "b" "m0" 200 "JUNGLE"; stored_row "b" "m1" 200 "JUNGLE"].

Definition an_event (type : string) (killer : Z) (time : Z) : Stage4.event :=
  {| Stage4.e_type := type; Stage4.killerId := PInt killer;
     Stage4.position_x := PInt 10; Stage4.position_y := PInt 20;
     Stage4.e_timestamp := PInt time;
     Stage4.killerTeamId := PInt 200; Stage4.monsterType := PStr "DRAGON";
     Stage4.e_teamId := PInt 100; Stage4.buildingType := PStr "TOWER_BUILDING" |}.

(** Player 1 ([a]) has no stored row, player 2 ([b]) has one. *)
Definition players : list Stage4.tl_participant :=
  [ {| Stage4.participantId := 1; Stage4.tl_puuid := "a" |};
    {| Stage4.participantId := 2; Stage4.tl_puuid := "b" |} ].

Definition a_sample : Stage4.participantFrame :=
  {| Stage4.pf_x := PInt 1; Stage4.pf_y := PInt 2 |}.

(** A frame whose second event and whose first sample cannot be resolved. *)
Definition a_frame : Stage4.frame :=
  {| Stage4.events := [an_event "ELITE_MONSTER_KILL" 2 1000;
                       an_event "CHAMPION_KILL" 1 2000;
                       an_event "BUILDING_KILL" 0 3000];
     Stage4.f_timestamp := PInt 60000;
     Stage4.participantFrames := [("1", a_sample); ("2", a_sample)] |}.

(** The same frame without the two unresolvable entries. *)
Definition a_frame_resolved : Stage4.frame :=
  {| Stage4.events := [an_event "ELITE_MONSTER_KILL" 2 1000;
                       an_event "BUILDING_KILL" 0 3000];
     Stage4.f_timestamp := PInt 60000;
     Stage4.participantFrames := [("2", a_sample)] |}.

Definition a_timeline : Stage4.timeline :=
  {| Stage4.tl_participants := players; Stage4.frames := [a_frame_resolved] |}.

(** The three rows [a_frame_resolved] gives for match [m0]. *)
Definition monster_row : Stage4.row :=
  {| Stage4.matchId := "m0"; Stage4.puuId := PStr "b"; Stage4.teamId := PInt 200;
     Stage4.inGameId := PInt 2; Stage4.teamPosition := PStr "JUNGLE";
     Stage4.x := PInt 10; Stage4.y := PInt 20; Stage4.timestamp := PInt 1000;
     Stage4.event_name := PStr "ELITE_MONSTER_KILL";
     Stage4.event_type := PStr "DRAGON" |}.

Definition building_row : Stage4.row :=
  {| Stage4.matchId := "m0"; Stage4.puuId := PStr "Minion"; Stage4.teamId := PInt 100;
     Stage4.inGameId := PInt 0; Stage4.teamPosition := PStr "";
     Stage4.x := PInt 10; Stage4.y := PInt 20; Stage4.timestamp := PInt 3000;
     Stage4.event_name := PStr "BUILDING_KILL";
     Stage4.event_type := PStr "TOWER_BUILDING" |}.

Definition sample_row : Stage4.row :=
  {| Stage4.matchId := "m0"; Stage4.puuId := PStr "b"; Stage4.teamId := PInt 200;
     Stage4.inGameId := PStr "2"; Stage4.teamPosition := PStr "JUNGLE";
     Stage4.x := PInt 1; Stage4.y := PInt 2; Stage4.timestamp := PInt 60000;
     Stage4.event_name := PStr "POSITION";
     Stage4.event_type := PStr "PARTICIPANT_FRAME" |}.

(** One frame of match [m0] run on the stored participants. *)
Definition run_frame (fr : Stage4.frame) : Stage4.state :=
  fst (Stage4.frame_body Stage4.kill_types stored "m0"
                         (Stage4.build_participant_ids players) fr Stage4.initial).

(** Stage 4 on the stored participants, every call to the API answering. *)
Definition stage4_run : Stage4.state :=
  fst (Stage4._collect_match_timeline_by_matchId
         (fun _ => Ok a_timeline) Stage4.kill_types 1000 stored ["m0"; "m1"]
         Stage4.initial).

End Fixtures.

(** ** Relating the state before and after a statement *)

(** [post R c]: whatever state [c] starts in and however it ends, the two
    states are related by [R]. *)
Definition post {S A : Type} (R : S -> S -> Prop) (c : M S A) : Prop :=
  forall s, R s (fst (c s)).

Module Stage3Spec.
Import Stage3.

Section Relations.
Context {F : Type}.

(** No match was fetched in between. *)
Definition silent (s s' : state F) : Prop :=
  fetched s' = fetched s.

(** At most [n] matches were fetched in between: the first ones of
    [match_ids], in order. *)
Definition upto (n : nat) (match_ids : list string) (s s' : state F) : Prop :=
  exists k, (k <= n)%nat /\ fetched s' = fetched s ++ firstn k match_ids.

End Relations.

End Stage3Spec.

Module Stage4Spec.
Import Stage4.

(** Nothing was fetched and nothing was written. *)
Definition quiet (s s' : state) : Prop :=
  fetched s' = fetched s /\ Match_Timeline_Table s' = Match_Timeline_Table s.

(** The rows added between two states all satisfy [P]. *)
Definition emits (P : row -> Prop) (s s' : state) : Prop :=
  exists new, data_events s' = data_events s ++ new /\ Forall P new.

(** A building-kill row carries the [teamId] of a building-kill event of
    the payload. *)
Definition attributed (payload : list event) (r : row) : Prop :=
  event_name r = PStr "BUILDING_KILL" ->
  exists ev, In ev payload /\ e_type ev = "BUILDING_KILL" /\ teamId r = e_teamId ev.

(** Both at once. *)
Definition step (P : row -> Prop) (s s' : state) : Prop :=
  quiet s s' /\ emits P s s'.

(** Every event of every frame the API returns for the given matches. *)
Definition payload_events (api : string -> result timeline)
           (match_ids : list string) : list event :=
  flat_map (fun id => match api id with
                      | Ok data => flat_map events (frames data)
                      | Raise _ => []
                      end) match_ids.

End Stage4Spec.

(** ** Counting votes *)

Module TierSpec.

(** The count a frequency table holds for a tier, 0 when the tier is not
    a key. *)
Fixpoint votes_for (tier : string) (d : Tier.freq) : nat :=
  match d with
  | [] => 0%nat
  | (k, n) :: rest =>
      if bool_decide (k = tier) then (n + votes_for tier rest)%nat
      else votes_for tier rest
  end.

(** How often a tier occurs in a list of votes. *)
Definition occurrences (tier : string) (votes : list string) : nat :=
  length (filter (fun v => v = tier) votes).

End TierSpec.

(** ** Stage 2: the one batch that can be stored *)

Module Stage2Spec.

Import Stage2.

Section Stage.

Variable get_matchIds_from_puuId : string -> result (list string).
Variable batch_insert_limit : Z.

(** What [data] holds at the first flush that finds any rows in it;
    [None] when the loop ends, or raises, before there is such a flush.
    The arguments are those of [loop]. *)
Fixpoint first_batch (count : Z) (puuid_list : list string)
         (temp_match_ids : option (list string)) (data : list match_ref)
  : option (list match_ref) :=
  match puuid_list with
  | [] => None
  | puuid_str :: rest =>
      let temp := match get_matchIds_from_puuId puuid_str with
                  | Ok ids => Some ids
                  | Raise _ => temp_match_ids
                  end in
      match temp with
      | None => None
      | Some ids =>
          let data' := data ++ map (fun match_id => (match_id, puuid_str)) ids in
          match py_mod count batch_insert_limit with
          | Raise _ => None
          | Ok r =>
              match data' with
              | _ :: _ =>
                  if r =? 0 then Some data'
                  else first_batch (count + 1) rest temp data'
              | [] => first_batch (count + 1) rest temp data'
              end
          end
      end
  end.

End Stage.

End Stage2Spec.

(** ** What Stage 4 resolves and emits, as functions of the payload *)

Module Stage4Rows.
Import Stage4.

Section Rows.
Context {F : Type}.
Variable table : list (Stage3.participant_row F).

(** The rows the query of [_get_teamId_teamPos] selects. *)
Definition selected (puuid : pyval) (match_id : string)
  : list (Stage3.participant_row F) :=
  filter (fun r => Stage3.pr_puuId r = format puuid
                   /\ Stage3.pr_matchId r = match_id) table.

(** The primary key of [Match_Data_Participants_Table]: no two rows for
    the same player and match. *)
Definition keyed : Prop :=
  forall r1 r2, In r1 table -> In r2 table ->
                Stage3.pr_puuId r1 = Stage3.pr_puuId r2 ->
                Stage3.pr_matchId r1 = Stage3.pr_matchId r2 -> r1 = r2.

(** The answer of [_get_teamId_teamPos]. *)
Definition resolve (puuid : pyval) (match_id : string) : option (pyval * pyval) :=
  if bool_decide (puuid = PStr "Minion") then Some (PNone, PStr "")
  else match selected puuid match_id with
       | [] => None
       | r :: _ => Some (PInt (Stage3.pr_teamId r), PStr (Stage3.pr_teamPosition r))
       end.

(** What [_get_teamId_teamPos] adds to the log. *)
Definition lookup_log (puuid : pyval) (match_id : string) : list log_entry :=
  if bool_decide (puuid = PStr "Minion") then []
  else match selected puuid match_id with
       | [] => [Query (format puuid) match_id; NoData (format puuid) match_id]
       | _ :: _ => [Query (format puuid) match_id]
       end.

End Rows.

(** The player a kill event is attributed to. *)
Definition actor (participant_ids : gmap Z string) (ev : event) : pyval :=
  if bool_decide (killerId ev = PInt 0) then PStr "Minion"
  else dict_get participant_ids (killerId ev).

(** The row of a kill event whose actor resolved to [(team_id, team_position)]. *)
Definition kill_row (id : string) (participant_ids : gmap Z string) (ev : event)
           (team_id team_position : pyval) : row :=
  {| matchId := id;
     puuId := actor participant_ids ev;
     teamId := if bool_decide (e_type ev = "ELITE_MONSTER_KILL") then killerTeamId ev
               else if bool_decide (e_type ev = "CHAMPION_KILL") then team_id
               else e_teamId ev;
     inGameId := killerId ev;
     teamPosition := team_position;
     x := position_x ev; y := position_y ev; timestamp := e_timestamp ev;
     event_name := PStr (e_type ev);
     event_type := if bool_decide (e_type ev = "ELITE_MONSTER_KILL") then monsterType ev
                   else if bool_decide (e_type ev = "CHAMPION_KILL") then PStr "KILL"
                   else buildingType ev |}.

(** The locals a kill event that was emitted as [r] leaves behind. *)
Definition locals_of (r : row) : locals :=
  {| in_game_id_e := Some (inGameId r); puuid_e := Some (puuId r);
     position_x_e := Some (x r); position_y_e := Some (y r);
     timestamp_e := Some (timestamp r);
     team_position_e := Some (teamPosition r);
     team_id_e := Some (teamId r); event_type_e := Some (event_type r) |}.

(** A row under another event name. *)
Definition renamed (name : string) (r : row) : row :=
  {| matchId := matchId r; puuId := puuId r; teamId := teamId r;
     inGameId := inGameId r; teamPosition := teamPosition r;
     x := x r; y := y r; timestamp := timestamp r;
     event_name := PStr name; event_type := event_type r |}.

(** The last participant of the payload that carries a given id. *)
Definition last_with_id (k : Z) (ps : list tl_participant) : option tl_participant :=
  find (fun p => bool_decide (participantId p = k)) (rev ps).

End Stage4Rows.

(** ** What Stage 3 stores, as a function of the payload *)

Module Stage3Rows.
Import Stage3.

Section Rows.
Context {F : Type} `{PyFloat F}.
Variable get_match_data_from_matchId : string -> result match_data.
Variable get_summoner_tier_from_puuid : string -> result (option string).
Variable batch_insert_limit : Z.
Variable Match_ID_Table : list string.

(** The two tables are the same in both states. *)
Definition kept (s s' : state F) : Prop :=
  Match_Data_Teams_Table s' = Match_Data_Teams_Table s
  /\ Match_Data_Participants_Table s' = Match_Data_Participants_Table s.

(** The rows of one match: two team rows and a row per participant. *)
Definition match_rows (match_id : string) (m : match_data) (game_tier : string)
           (team1 team2 : team) : list team_row * list (participant_row F) :=
  ([team_data match_id team1 game_tier (endOfGameResult m);
    team_data match_id team2 game_tier (endOfGameResult m)],
   map (fun p => participant_data match_id p game_tier
                   (fdiv (of_int (p_goldEarned p)) (game_duration m))
                   (endOfGameResult m))
       (participants m)).

(** The rows of the first stored match, when its iteration gets as far
    as the flush: the API and the tier vote answer, the payload has two
    teams and a participant, the duration is not zero and neither is
    the flush period. *)
Definition first_match_rows : option (list team_row * list (participant_row F)) :=
  match Match_ID_Table with
  | [] => None
  | match_id :: _ =>
      match get_match_data_from_matchId match_id with
      | Raise _ => None
      | Ok m =>
          match Tier._get_majority_tier get_summoner_tier_from_puuid
                                        (metadata_participants m) with
          | Raise _ => None
          | Ok game_tier =>
              match teams m with
              | team1 :: team2 :: _ =>
                  if is_zero (game_duration m) then None
                  else match participants m with
                       | [] => None
                       | _ :: _ =>
                           if batch_insert_limit =? 0 then None
                           else Some (match_rows match_id m game_tier team1 team2)
                       end
              | _ => None
              end
          end
      end
  end.

(** The two [INSERT OR IGNORE] statements of the flush. *)
Definition insert_teams : list team_row -> list team_row -> result (list team_row) :=
  Store.executemany
    (Store.insert_or_ignore (fun r => (tr_matchId r, tr_teamId r))
                            (fun r => fk_ok Match_ID_Table (tr_matchId r))).

Definition insert_participants
  : list (participant_row F) -> list (participant_row F)
    -> result (list (participant_row F)) :=
  Store.executemany
    (Store.insert_or_ignore (fun r => (pr_puuId r, pr_matchId r))
                            (fun r => fk_ok Match_ID_Table (pr_matchId r))).

(** A state of the stage as a call finds it: the two tables, nothing
    collected, nothing logged. *)
Definition fresh (teams : list team_row) (parts : list (participant_row F))
  : state F :=
  {| Match_Data_Teams_Table := teams; Match_Data_Participants_Table := parts;
     data_teams := []; data_participants := []; log := [] |}.

End Rows.

End Stage3Rows.

(** ** More inputs used in the examples *)

Module Fixtures2.
Import Fixtures.

(** A champion kill whose payload has no [killerId]. *)
Definition no_killer : Stage4.event :=
  {| Stage4.e_type := "CHAMPION_KILL"; Stage4.killerId := PNone;
     Stage4.position_x := PInt 10; Stage4.position_y := PInt 20;
     Stage4.e_timestamp := PInt 2000;
     Stage4.killerTeamId := PNone; Stage4.monsterType := PNone;
     Stage4.e_teamId := PNone; Stage4.buildingType := PNone |}.

(** An allow-list with an event type that is not a kill. *)
Definition with_wards : list string := ["CHAMPION_KILL"; "WARD_PLACED"].

(** The ids of [players]. *)
Definition player_ids : gmap Z string := Stage4.build_participant_ids players.

(** [a_match] with a duration of 0. *)
Definition zero_match : Stage3.match_data :=
  {| Stage3.metadata_participants := ["a"; "b"];
     Stage3.teams := [a_team 100 true; a_team 200 false];
     Stage3.endOfGameResult := "GameComplete";
     Stage3.gameEndTimestamp := Some 1700000000000;
     Stage3.gameDuration := 0;
     Stage3.participants := [a_player "a" 100 "TOP"; a_player "b" 200 "JUNGLE"] |}.

(** The rows Stage 3 builds for [a_match] stored as [m0]. *)
Definition rows_m0 : list Stage3.team_row * list (Stage3.participant_row float) :=
  Stage3Rows.match_rows "m0" a_match "GOLD" (a_team 100 true) (a_team 200 false).

Definition row_b : Stage3.participant_row float :=
  Stage3.participant_data "m0" (a_player "b" 200 "JUNGLE") "GOLD"
                          (fdiv (of_int 12000) (Stage3.game_duration a_match))
                          "GameComplete".

(** Stored participants in the order they were written: the row of
    player [b] in match [m1] first, then player [a] in match [m0], then
    player [c] in match [m1]. *)
Definition unordered : list (Stage3.participant_row float) :=
  [stored_row "b" "m1" 200 "JUNGLE"; stored_row "a" "m0" 100 "TOP";
   stored_row "c" "m1" 100 "MIDDLE"].

(** An API that has every timeline but the one of [m0]. *)
Definition m0_down (id : string) : result Stage4.timeline :=
  if bool_decide (id = "m0") then Raise ApiError else Ok a_timeline.

(** [a_match] without an end timestamp, its duration 1801 tenths of a
    second. *)
Definition unended_match : Stage3.match_data :=
  {| Stage3.metadata_participants := ["a"; "b"];
     Stage3.teams := [a_team 100 true; a_team 200 false];
     Stage3.endOfGameResult := "GameComplete";
     Stage3.gameEndTimestamp := None;
     Stage3.gameDuration := 1801;
     Stage3.participants := [a_player "a" 100 "TOP"; a_player "b" 200 "JUNGLE"] |}.

End Fixtures2.

(** ** Stage 1 as a whole: tiers, divisions and pages *)

Module Ladder.

Import Stage1.

(** What [get_summoner_entries_by_tier] answers, as far as the stage looks
    at it: [None], a JSON array of ladder entries, or a non-empty JSON
    object.  Of an object the stage reads [.get("stats", 0)] and of that
    [.get("status_code", 0)]: [stats] is [None] when the first [get] gives
    something without a [get] of its own (the default [0] included), and
    [Some c] when it gives a dict whose status code is [c], if any. *)
Inductive response : Type :=
| Null
| Entries (page : list summoner)
| Envelope (stats : option (option Z)).

(** The two things that can go wrong inside the [try] around the
    emptiness test; neither leaves it, [except Exception] takes both. *)
Inductive fault : Type :=
| Unbound        (* UnboundLocalError: summoner_entries was never assigned *)
| NoAttribute.   (* AttributeError: 'int' object has no attribute 'get' *)

Inductive log_entry : Type :=
| Requested (tier : string) (division : option string) (pages : Z)
                                 (* get_summoner_entries_by_tier was called *)
| ApiFailed                      (* logger.error(f"{e}") *)
| Unexpected (e : fault)         (* "Unexpected error occurred: {e}" *)
| EntriesInfo                    (* "Summoner Entries DataType: ..." *)
| InsertSuccessful (tier division : string) (pages : Z)
                                 (* "Insert successful| Tier: ..." *)
| DatabaseError.                 (* the sqlite3.Error handler *)

(** The table, the log, and the locals of the function that outlive an
    iteration: [None] and [false] stand for an unbound name. *)
Record state : Type := {
  Summoners_Table : list summoner_row;
  log : list log_entry;
  summoner_entries : option response;
  type_of_entries : bool;
  current_division : option string
}.

Definition say (e : log_entry) : M state unit :=
  modify (fun s => {| Summoners_Table := Summoners_Table s;
                      log := log s ++ [e];
                      summoner_entries := summoner_entries s;
                      type_of_entries := type_of_entries s;
                      current_division := current_division s |}).

Definition assign_entries (r : response) : M state unit :=
  modify (fun s => {| Summoners_Table := Summoners_Table s;
                      log := log s;
                      summoner_entries := Some r;
                      type_of_entries := type_of_entries s;
                      current_division := current_division s |}).

Definition assign_type : M state unit :=
  modify (fun s => {| Summoners_Table := Summoners_Table s;
                      log := log s;
                      summoner_entries := summoner_entries s;
                      type_of_entries := true;
                      current_division := current_division s |}).

Definition assign_division (d : string) : M state unit :=
  modify (fun s => {| Summoners_Table := Summoners_Table s;
                      log := log s;
                      summoner_entries := summoner_entries s;
                      type_of_entries := type_of_entries s;
                      current_division := Some d |}).

Definition write (t : list summoner_row) : M state unit :=
  modify (fun s => {| Summoners_Table := t;
                      log := log s;
                      summoner_entries := summoner_entries s;
                      type_of_entries := type_of_entries s;
                      current_division := current_division s |}).

Definition read_entries : M state response :=
  fun s => match summoner_entries s with
           | Some r => (s, Ok r)
           | None => (s, Raise UnboundLocalError)
           end.

Definition read_type : M state unit :=
  fun s => if type_of_entries s then (s, Ok tt) else (s, Raise UnboundLocalError).

Definition read_division : M state string :=
  fun s => match current_division s with
           | Some d => (s, Ok d)
           | None => (s, Raise UnboundLocalError)
           end.

Definition valid_tiers : list string :=
  ["CHALLENGER"; "MASTER"; "DIAMOND"; "EMERALD";
   "PLATINUM"; "GOLD"; "SILVER"; "BRONZE"; "IRON"].

Definition valid_divisions : list string := ["I"; "II"; "III"; "IV"].

(** An argument of the stage: left out ([None]), a list, or something
    that is not a list. *)
Inductive argument : Type :=
| Default
| Listed (l : list string)
| NotAList.

(** [if tiers == None: tiers = valid_tiers]; [None] is what fails
    [isinstance(_, list)]. *)
Definition defaulted (a : argument) (valid : list string) : option (list string) :=
  match a with
  | Default => Some valid
  | Listed l => Some l
  | NotAList => None
  end.

(** [for x in xs: if x not in valid: raise ValueError] *)
Fixpoint all_valid (valid : list string) (xs : list string) : result unit :=
  match xs with
  | [] => Ok tt
  | x :: rest =>
      if bool_decide (x ∈ valid) then all_valid valid rest else Raise ValueError
  end.

(** The [try] block in front of the loops; both handlers re-raise. *)
Definition validate (tiers divisions : argument)
  : result (list string * list string) :=
  match defaulted tiers valid_tiers, defaulted divisions valid_divisions with
  | Some ts, Some ds =>
      match all_valid valid_tiers ts with
      | Raise e => Raise e
      | Ok _ =>
          match all_valid valid_divisions ds with
          | Raise e => Raise e
          | Ok _ => Ok (ts, ds)
          end
      end
  | _, _ => Raise TypeError
  end.

(** [summoner_entries == None or len(summoner_entries) == 0] *)
Definition is_empty (r : response) : bool :=
  match r with
  | Null => true
  | Entries [] => true
  | Entries (_ :: _) => false
  | Envelope _ => false
  end.

(** How the guarded test ends: with [stop = True; break], by falling
    through, or in the handler. *)
Inductive guard : Type :=
| Break
| Pass
| Fault (e : fault).

(** The test of the CHALLENGER branch. *)
Definition guard_challenger (entries : option response) : guard :=
  match entries with
  | None => Fault Unbound
  | Some r => if is_empty r then Break else Pass
  end.

(** The test of the other tiers, with the status-code check on a dict. *)
Definition guard_division (entries : option response) : guard :=
  match entries with
  | None => Fault Unbound
  | Some r =>
      if is_empty r then Break
      else match r with
           | Envelope None => Fault NoAttribute
           | Envelope (Some status_code) =>
               if default 0 status_code =? 200 then Pass else Break
           | _ => Pass
           end
  end.

(** The handler of the CHALLENGER branch: [type(summoner_entries)] comes
    first. *)
Definition handler_challenger (e : fault) : M state unit :=
  read_entries ;;; assign_type ;;;
  say (Unexpected e) ;;;
  read_type ;;; read_entries ;;; say EntriesInfo.

(** The handler of the other tiers never assigns [type_of_entries]. *)
Definition handler_division (e : fault) : M state unit :=
  say (Unexpected e) ;;;
  read_type ;;; read_entries ;;; say EntriesInfo.

(** [for summoner in summoner_entries: ... data.append(...)]: iterating
    [None] fails, iterating an object yields its keys, and subscripting a
    key with ["puuid"] fails.  The entries read are returned; the rows are
    built from them by [page_rows]. *)
Definition collect : M state (list summoner) :=
  r <- read_entries ;;
  match r with
  | Null => raise TypeError
  | Envelope _ => raise TypeError
  | Entries page =>
      match last page with
      | Some summoner => assign_division (s_rank summoner) ;;; ret page
      | None => ret page
      end
  end.

Section Stage.

(** [self.CallsAPI.get_summoner_entries_by_tier(tier, division, pages)];
    the CHALLENGER branch passes no division. *)
Variable get_summoner_entries_by_tier :
  string -> option string -> Z -> result response.
Variable page_limit : Z.
Variable curr_collection_date : string.

(** The first [try]: a failed call leaves [summoner_entries] as it was. *)
Definition fetch (tier : string) (division : option string) (pages : Z)
  : M state unit :=
  say (Requested tier division pages) ;;;
  match get_summoner_entries_by_tier tier division pages with
  | Ok r => assign_entries r
  | Raise _ => say ApiFailed
  end.

(** The last [try]: [executemany], [commit], then the log line, which
    reads [current_division]. *)
Definition store (tier : string) (pages : Z) (page : list summoner)
  : M state unit :=
  fun s =>
    match insert_page curr_collection_date page (Summoners_Table s) with
    | (t', Ok _) =>
        (write t' ;;;
         d <- read_division ;;
         say (InsertSuccessful tier d pages)) s
    | (t', Raise _) => (write t' ;;; say DatabaseError) s
    end.

(** [if self.page_limit != -1 and self.page_limit == pages: break] *)
Definition last_page (pages : Z) : bool :=
  negb (page_limit =? -1) && (page_limit =? pages).

(** How a loop of the model ends: as the code's loop does, or because
    the model's bound on the iterations of one [while] was reached. *)
Inductive outcome : Type :=
| Finished
| OutOfFuel.

(** [while not stop]: [stop] is only set right before a [break], so the
    loop ends by [break] alone.  [division] is [None] in the CHALLENGER
    branch. *)
Fixpoint pages_loop (fuel : nat) (tier : string) (division : option string)
         (pages : Z) : M state outcome :=
  match fuel with
  | O => ret OutOfFuel
  | S fuel' =>
      fetch tier division pages ;;;
      g <- (fun s => (s, Ok (match division with
                             | None => guard_challenger (summoner_entries s)
                             | Some _ => guard_division (summoner_entries s)
                             end))) ;;
      match g with
      | Break => ret Finished
      | Pass =>
          page <- collect ;;
          store tier pages page ;;;
          if last_page pages then ret Finished
          else pages_loop fuel' tier division (pages + 1)
      | Fault e =>
          match division with
          | None => handler_challenger e
          | Some _ => handler_division e
          end ;;;
          page <- collect ;;
          store tier pages page ;;;
          if last_page pages then ret Finished
          else pages_loop fuel' tier division (pages + 1)
      end
  end.

(** [for division in divisions] *)
Fixpoint divisions_loop (fuel : nat) (tier : string) (divisions : list string)
  : M state outcome :=
  match divisions with
  | [] => ret Finished
  | division :: rest =>
      o <- pages_loop fuel tier (Some division) 1 ;;
      match o with
      | OutOfFuel => ret OutOfFuel
      | Finished => divisions_loop fuel tier rest
      end
  end.

(** [for tier in tiers] *)
Fixpoint tiers_loop (fuel : nat) (tiers divisions : list string)
  : M state outcome :=
  match tiers with
  | [] => ret Finished
  | tier :: rest =>
      o <- (if bool_decide (tier = "CHALLENGER")
            then pages_loop fuel tier None 1
            else divisions_loop fuel tier divisions) ;;
      match o with
      | OutOfFuel => ret OutOfFuel
      | Finished => tiers_loop fuel rest divisions
      end
  end.

Definition _collect_summoner_entries_by_tier (fuel : nat)
           (tiers divisions : argument) : M state outcome :=
  match validate tiers divisions with
  | Raise e => raise e
  | Ok (ts, ds) => tiers_loop fuel ts ds
  end.

(** The requests the stage sent. *)
Definition requests (s : state) : list (string * option string * Z) :=
  flat_map (fun e => match e with
                     | Requested tier division pages => [(tier, division, pages)]
                     | _ => []
                     end) (log s).

End Stage.

(** The state the stage starts in on a table [t]. *)
Definition initial (t : list summoner_row) : state :=
  {| Summoners_Table := t; log := []; summoner_entries := None;
     type_of_entries := false; current_division := None |}.

(** The [while] loops a validated call runs, in order. *)
Definition loops (tiers divisions : list string) : list (string * option string) :=
  flat_map (fun tier => if bool_decide (tier = "CHALLENGER")
                        then [(tier, None)]
                        else map (fun d => (tier, Some d)) divisions) tiers.

End Ladder.

(** ** Stage 1: what a run is compared with *)

Module LadderSpec.

Import Stage1 Ladder.

Section Stage.

Variable get_summoner_entries_by_tier :
  string -> option string -> Z -> result response.
Variable page_limit : Z.
Variable curr_collection_date : string.

(** One pass through the body of a [while] up to the page-limit test;
    [true] when it left the loop at the emptiness test. *)
Definition iteration (tier : string) (division : option string) (pages : Z)
  : M state bool :=
  fetch get_summoner_entries_by_tier tier division pages ;;;
  g <- (fun s => (s, Ok (match division with
                         | None => guard_challenger (summoner_entries s)
                         | Some _ => guard_division (summoner_entries s)
                         end))) ;;
  match g with
  | Break => ret true
  | Pass =>
      page <- collect ;;
      store curr_collection_date tier pages page ;;;
      ret false
  | Fault e =>
      match division with
      | None => handler_challenger e
      | Some _ => handler_division e
      end ;;;
      page <- collect ;;
      store curr_collection_date tier pages page ;;;
      ret false
  end.

(** The [while] loops of a call, one after the other. *)
Fixpoint run_loops (fuel : nat) (ls : list (string * option string))
  : M state outcome :=
  match ls with
  | [] => ret Finished
  | (tier, division) :: rest =>
      o <- pages_loop get_summoner_entries_by_tier page_limit
                      curr_collection_date fuel tier division 1 ;;
      match o with
      | OutOfFuel => ret OutOfFuel
      | Finished => run_loops fuel rest
      end
  end.

(** The pages written one after the other. *)
Definition store_pages (pages : list (list summoner))
           (t : list summoner_row) : list summoner_row :=
  fold_left (fun t page => fst (insert_page curr_collection_date page t))
            pages t.

(** Rows were only added: each new row is dated today and has a [puuid]
    that was not stored, and no two new rows share one. *)
Definition extends (s s' : state) : Prop :=
  exists added,
    Summoners_Table s' = Summoners_Table s ++ added
    /\ Forall (fun r => date_collected r = curr_collection_date
                        /\ Store.has_key puuid (puuid r) (Summoners_Table s) = false)
              added
    /\ NoDup (map puuid added).

(** Two states that differ in the table at most. *)
Definition alike (s1 s2 : state) : Prop :=
  log s1 = log s2
  /\ summoner_entries s1 = summoner_entries s2
  /\ type_of_entries s1 = type_of_entries s2
  /\ current_division s1 = current_division s2.

(** A statement that does not look at the table: started in two states
    that are alike it ends the same way, in states that are alike, and
    has written the same pages to both tables. *)
Definition blind {A} (c : M state A) : Prop :=
  forall s1 s2,
    alike s1 s2 ->
    snd (c s1) = snd (c s2)
    /\ alike (fst (c s1)) (fst (c s2))
    /\ exists pages,
         Summoners_Table (fst (c s1)) = store_pages pages (Summoners_Table s1)
         /\ Summoners_Table (fst (c s2)) = store_pages pages (Summoners_Table s2).

(** At most [n] requests were sent in between. *)
Definition asked (n : nat) (s s' : state) : Prop :=
  exists new, requests s' = requests s ++ new /\ (length new <= n)%nat.

(** The answers for one loop: non-empty pages from page 1 on, then an
    empty one or [None]. *)
Definition answers (tier : string) (division : option string)
           (pages : list (list summoner)) : Prop :=
  (forall i page, pages !! i = Some page ->
                  page <> []
                  /\ get_summoner_entries_by_tier tier division (1 + Z.of_nat i)
                     = Ok (Entries page))
  /\ exists r, get_summoner_entries_by_tier tier division
                 (1 + Z.of_nat (length pages)) = Ok r
               /\ is_empty r = true.

End Stage.

(** The diagnostic line of the two handlers was not reached, and
    [type_of_entries] is still unbound. *)
Definition undiagnosed (s : state) : Prop :=
  type_of_entries s = false /\ EntriesInfo ∉ log s.

End LadderSpec.

(** ** Stage 1: sample answers *)

Module LadderFixtures.

Import Stage1 Ladder.

Definition alice : summoner :=
  {| s_puuid := "p-alice"; s_tier := "CHALLENGER"; s_rank := "I" |}.
Definition bob : summoner :=
  {| s_puuid := "p-bob"; s_tier := "GOLD"; s_rank := "IV" |}.

(** An API that is down. *)
Definition down (tier : string) (division : option string) (pages : Z)
  : result response := Raise ApiError.

(** An API that answers the first page and fails afterwards. *)
Definition one_page (tier : string) (division : option string) (pages : Z)
  : result response :=
  if pages =? 1 then Ok (Entries [alice; bob]) else Raise ApiError.

(** An API that answers the first page and an empty second one. *)
Definition two_pages (tier : string) (division : option string) (pages : Z)
  : result response :=
  if pages =? 1 then Ok (Entries [alice; bob])
  else if pages =? 2 then Ok (Entries []) else Raise ApiError.

(** An API that answers with an error object. *)
Definition forbidden (tier : string) (division : option string) (pages : Z)
  : result response := Ok (Envelope (Some (Some 403))).

End LadderFixtures.

(** ** The orchestrator: what a run is compared with *)

Module ConfigSpec.

Import Config.

Section Orchestrator.

Variable W : Type.
Variable create_tables : M W unit.
Variable stage : nat -> M W unit.

(** A stage behind its flag, without the logging. *)
Definition gated (k : nat) (flag : Z) : M W unit :=
  if flag =? 1 then stage k else ret tt.

(** The stages of the flags given, numbered from [k], one after the
    other. *)
Fixpoint gated_from (k : nat) (flags : list Z) : M W unit :=
  match flags with
  | [] => ret tt
  | flag :: rest => gated k flag ;;; gated_from (S k) rest
  end.

(** [n] calls as [_collect_data] makes them, starting with stage [k]. *)
Fixpoint calls (n k : nat) (stages_to_process : list Z) : M (St W) unit :=
  match n with
  | O => ret tt
  | S n' =>
      a <- index W stages_to_process k ;;
      process_decorator W stage k a ;;;
      calls n' (S k) stages_to_process
  end.

(** Table creation and then the stages of the first four flags. *)
Definition plan (stages_to_process : list Z) : M W unit :=
  create_tables ;;; gated_from 0 (firstn 4 stages_to_process).

End Orchestrator.

End ConfigSpec.

(** ** The database file and its five tables *)

Module Schema.

Inductive log_entry : Type :=
| DatabaseAlreadyExists          (* logger.warning("Database already exists.") *)
| DatabaseCreated                (* logger.info("Database created.") *)
| DatabaseError                  (* the sqlite3.Error handler *)
| Committed (commit_message : string).
                                 (* logger.info(commit_message) *)

Section Schema.

(** What a table holds.  The stages give it a shape; table creation does
    not look at it. *)
Variable T : Type.
(** A table that was just created. *)
Variable no_rows : T.

(** The database file, [None] while there is none, otherwise its tables
    by name; and the log.  The save location is taken to be there and
    writable, so that [sqlite3.connect] does not raise. *)
Record state : Type := {
  file : option (gmap string T);
  log : list log_entry
}.

Definition say (e : log_entry) : M state unit :=
  modify (fun s => {| file := file s; log := log s ++ [e] |}).

(** [sqlite3.connect(path)]: a missing file is created as an empty
    database.  The tables of the open database are returned. *)
Definition connect : M state (gmap string T) :=
  fun s => let tables := default ∅ (file s) in
           ({| file := Some tables; log := log s |}, Ok tables).

(** What is committed. *)
Definition write (tables : gmap string T) : M state unit :=
  modify (fun s => {| file := Some tables; log := log s |}).

(** [self.database_location_absolute_path.is_file()] *)
Definition is_file (s : state) : bool :=
  match file s with
  | Some _ => true
  | None => false
  end.

Definition _create_database : M state unit :=
  fun s =>
    if is_file s then say DatabaseAlreadyExists s
    else try_except (connect ;;; say DatabaseCreated)
                    (fun _ => say DatabaseError) s.

(** [CREATE TABLE IF NOT EXISTS name (...)] *)
Definition create_table_if_not_exists (name : string) (tables : gmap string T)
  : gmap string T :=
  match tables !! name with
  | Some _ => tables
  | None => <[name := no_rows]> tables
  end.

(** [_create_db_table]; the query is given by the name of its table. *)
Definition _create_db_table (name : string) (commit_message : string)
  : M state unit :=
  tables <- connect ;;
  write (create_table_if_not_exists name tables) ;;;
  say (Committed commit_message).

Definition _create_summoner_entries_table : M state unit :=
  _create_db_table "Summoners_Table"
                   "Table 'Summoners_Table' created successfully!".

Definition _create_match_ids_table : M state unit :=
  _create_db_table "Match_ID_Table"
                   "Table 'Match_ID_Table' created successfully!".

Definition _create_match_data_teams_table : M state unit :=
  _create_db_table "Match_Data_Teams_Table"
                   "Table 'Match_Data_Teams_Table' created successfully!".

Definition _create_match_data_participants_table : M state unit :=
  _create_db_table "Match_Data_Participants_Table"
                   "Table 'Match_Data_Participants' created successfully!".

Definition _create_match_timeline_table : M state unit :=
  _create_db_table "Match_Timeline_Table"
                   "Table 'Match_IDs' created successfully!".

Definition _create_all_tables : M state unit :=
  _create_database ;;;
  _create_summoner_entries_table ;;;
  _create_match_ids_table ;;;
  _create_match_data_teams_table ;;;
  _create_match_data_participants_table ;;;
  _create_match_timeline_table.

(** The first two calls of [start_pipeline]. *)
Definition create : M state unit :=
  _create_database ;;; _create_all_tables.

End Schema.

Arguments file {T} _.
Arguments log {T} _.

(** The tables of the schema. *)
Definition table_names : list string :=
  ["Summoners_Table"; "Match_ID_Table"; "Match_Data_Teams_Table";
   "Match_Data_Participants_Table"; "Match_Timeline_Table"].

(** What the five calls log, whether a table was there or not. *)
Definition commit_messages : list log_entry :=
  [Committed "Table 'Summoners_Table' created successfully!";
   Committed "Table 'Match_ID_Table' created successfully!";
   Committed "Table 'Match_Data_Teams_Table' created successfully!";
   Committed "Table 'Match_Data_Participants' created successfully!";
   Committed "Table 'Match_IDs' created successfully!"].

End Schema.

(** ** Stage 3: the minutes of a match, as they are specified *)

Module Minutes.

Import Stage3.

(** [if match_data["info"].get("gameEndTimestamp", 0)]: the end timestamp
    is there and is not 0. *)
Definition ended (m : match_data) : bool :=
  match gameEndTimestamp m with
  | Some ts => negb (ts =? 0)
  | None => false
  end.

(** The minutes in binary64: [gameDuration / 60] for a match that ended,
    [gameDuration * 0.1 / 60] otherwise, the product rounded before the
    division. *)
Definition minutes (m : match_data) : float :=
  if ended m
  then PrimFloat.div (float_of_Z (gameDuration m)) (float_of_Z 60)
  else PrimFloat.div (PrimFloat.mul (float_of_Z (gameDuration m))
                                    0x1.999999999999ap-4%float)
                     (float_of_Z 60).

(** [gameDuration / 600] in binary64: one division, rounded once. *)
Definition by_600 (m : match_data) : float :=
  PrimFloat.div (float_of_Z (gameDuration m)) (float_of_Z 600).

(** The exact quotient the minutes stand for. *)
Definition quotient (m : match_data) : Q :=
  if ended m then (inject_Z (gameDuration m) / inject_Z 60)%Q
  else (inject_Z (gameDuration m) / inject_Z 600)%Q.

End Minutes.

(** * Properties *)

(** ** Rules for [post] *)

Module PostFacts.

Section Rules.
Context {S : Type} (R : S -> S -> Prop).
Hypothesis R_refl : forall s, R s s.
Hypothesis R_trans : forall s1 s2 s3, R s1 s2 -> R s2 s3 -> R s1 s3.

Lemma post_ret {A} (a : A) : post R (ret a).
Proof. intros s. apply R_refl. Qed.

Lemma post_raise {A} (e : exn) : post R (raise e : M S A).
Proof. intros s. apply R_refl. Qed.

Lemma post_pure {A} (x : result A) : post R (fun s => (s, x)).
Proof. intros s. apply R_refl. Qed.

Lemma post_modify (f : S -> S) : (forall s, R s (f s)) -> post R (modify f).
Proof. intros Hf s. apply Hf. Qed.

Lemma post_bind {A B} (c : M S A) (k : A -> M S B) :
  post R c -> (forall a, post R (k a)) -> post R (bind c k).
Proof.
  intros Hc Hk s. unfold bind. specialize (Hc s).
  destruct (c s) as [s1 [a|e]]; cbn in Hc.
  - eapply R_trans; [exact Hc | apply Hk].
  - exact Hc.
Qed.

Lemma post_try_except {A} (c : M S A) (h : exn -> M S A) :
  post R c -> (forall e, post R (h e)) -> post R (try_except c h).
Proof.
  intros Hc Hh s. unfold try_except. specialize (Hc s).
  destruct (c s) as [s1 [a|e]]; cbn in Hc.
  - exact Hc.
  - eapply R_trans; [exact Hc | apply Hh].
Qed.

End Rules.

(** The same with a relation per statement. *)
Section Composition.
Context {S : Type} (R1 R2 R3 : S -> S -> Prop).
Hypothesis R1_R3 : forall s s', R1 s s' -> R3 s s'.
Hypothesis R1_R2_R3 : forall s1 s2 s3, R1 s1 s2 -> R2 s2 s3 -> R3 s1 s3.

Lemma post_bind_seq {A B} (c : M S A) (k : A -> M S B) :
  post R1 c -> (forall a, post R2 (k a)) -> post R3 (bind c k).
Proof.
  intros Hc Hk s. unfold bind. specialize (Hc s).
  destruct (c s) as [s1 [a|e]]; cbn in Hc.
  - eapply R1_R2_R3; [exact Hc | apply Hk].
  - now apply R1_R3.
Qed.

Lemma post_try_except_seq {A} (c : M S A) (h : exn -> M S A) :
  post R1 c -> (forall e, post R2 (h e)) -> post R3 (try_except c h).
Proof.
  intros Hc Hh s. unfold try_except. specialize (Hc s).
  destruct (c s) as [s1 [a|e]]; cbn in Hc.
  - now apply R1_R3.
  - eapply R1_R2_R3; [exact Hc | apply Hh].
Qed.

End Composition.

End PostFacts.

(** ** The constructor's check and the orchestrator *)

Module ConfigFacts.
Import Config.

Lemma not_in_0_1_spec (v : Z) : not_in_0_1 v = true <-> v <> 0 /\ v <> 1.
Proof. unfold not_in_0_1. lia. Qed.

Lemma check_stages_total (len : nat) (values : list Z) :
  check_stages len values = Ok tt \/ check_stages len values = Raise ValueError.
Proof.
  induction values as [|v rest IH]; simpl; [now left|].
  destruct (not_in_0_1 v || (4 <? Z.of_nat len)); [now right | exact IH].
Qed.

Lemma check_stages_raises (len : nat) (values : list Z) :
  check_stages len values = Raise ValueError <->
  values <> [] /\ ((4 < len)%nat \/ Exists (fun v => v <> 0 /\ v <> 1) values).
Proof.
  induction values as [|v rest IH]; simpl.
  - split; [discriminate | intros [Hne _]; congruence].
  - destruct (not_in_0_1 v) eqn:Hv; simpl.
    + apply not_in_0_1_spec in Hv. split; [|reflexivity].
      intros _. split; [discriminate|]. right. now constructor.
    + assert (Hv' : ~ (v <> 0 /\ v <> 1)).
      { intros Hc. apply not_in_0_1_spec in Hc. congruence. }
      destruct (4 <? Z.of_nat len) eqn:Hlen.
      * split; [|reflexivity]. intros _. split; [discriminate|]. left. lia.
      * rewrite IH. split.
        -- intros [_ [Hl | Hex]]; [lia|]. split; [discriminate|].
           right. now constructor 2.
        -- intros [_ [Hl | Hex]]; [lia|].
           inversion Hex as [? ? Hhd | ? ? Htl]; subst; [tauto|].
           split; [|now right]. intros ->. inversion Htl.
Qed.

End ConfigFacts.

(** ** Majority-vote tier *)

Module TierFacts.
Import Tier Fixtures.

(** The example of the specification: three GOLD votes against two SILVER. *)
Example majority_gold :
  _get_majority_tier (fun p => Ok (Some p))
                     ["GOLD"; "SILVER"; "GOLD"; "SILVER"; "GOLD"] = Ok "GOLD".
Proof. reflexivity. Qed.

(** A tie goes to the tier that entered the table first. *)
Example tie_first_encountered :
  _get_majority_tier (fun p => Ok (Some p)) ["SILVER"; "GOLD"; "GOLD"; "SILVER"]
  = Ok "SILVER".
Proof. reflexivity. Qed.

Section Vote.
Variable api : string -> result (option string).

(** While no lookup has produced a tier, the table stays empty. *)
Lemma tally_no_votes (puuids : list string) (tier : option (option string)) :
  successful_votes api puuids = [] ->
  match tier with Some t => truthy t = None | None => True end ->
  tally api puuids tier [] = Ok [] \/
  tally api puuids tier [] = Raise UnboundLocalError.
Proof.
  revert tier. induction puuids as [|p rest IH]; intros tier Hnone Htier.
  - now left.
  - simpl in Hnone. apply app_eq_nil in Hnone. destruct Hnone as [Hp Hrest].
    simpl. destruct (api p) as [t | e].
    + destruct (truthy t) eqn:Ht; [discriminate|].
      apply IH; [exact Hrest | exact Ht].
    + destruct tier as [t|]; [|now right].
      rewrite Htier. apply IH; [exact Hrest | exact Htier].
Qed.

(** As long as every lookup answers, the table is the count of the
    tiers returned. *)
Lemma tally_all_answer (puuids : list string) (tier : option (option string)) (d : freq) :
  (forall p, In p puuids -> exists t, api p = Ok t) ->
  tally api puuids tier d
  = Ok (fold_left (fun d s => incr s d) (successful_votes api puuids) d).
Proof.
  intros Hall. revert tier d.
  induction puuids as [|p rest IH]; intros tier d; [reflexivity|].
  simpl. destruct (Hall p (or_introl eq_refl)) as [t Ht]. rewrite Ht.
  rewrite fold_left_app.
  rewrite IH by (intros q Hq; apply Hall; now right).
  now destruct (truthy t).
Qed.

End Vote.

(** C4.  When no tier lookup succeeds the function does not report a
    no-tier-data condition of its own: it ends in the [ValueError] of
    [max] on the empty table, or, when the very first lookup raised, in
    the [UnboundLocalError] of reading [tier]. *)
Theorem no_votes_raise_unrelated_error
        (api : string -> result (option string)) (player_puuids : list string) :
  successful_votes api player_puuids = [] ->
  _get_majority_tier api player_puuids = Raise ValueError \/
  _get_majority_tier api player_puuids = Raise UnboundLocalError.
Proof.
  intros Hnone. unfold _get_majority_tier.
  destruct (tally_no_votes api player_puuids None Hnone I) as [-> | ->];
    [now left | now right].
Qed.

(** The theorem at a match whose two players have no ranked tier. *)
Lemma no_votes_raise_unrelated_error_witness :
  successful_votes (fun _ => Ok None) ["p1"; "p2"] = []
  /\ (_get_majority_tier (fun _ => Ok None) ["p1"; "p2"] = Raise ValueError \/
      _get_majority_tier (fun _ => Ok None) ["p1"; "p2"] = Raise UnboundLocalError).
Proof.
  split; [reflexivity|].
  apply (no_votes_raise_unrelated_error (fun _ => Ok None) ["p1"; "p2"]).
  reflexivity.
Defined.

(** The three ways of having no vote, evaluated. *)
Example no_players : forall api, _get_majority_tier api [] = Raise ValueError.
Proof. reflexivity. Qed.

Example all_unranked :
  _get_majority_tier (fun _ => Ok None) ["p1"; "p2"] = Raise ValueError.
Proof. reflexivity. Qed.

Example all_lookups_fail :
  _get_majority_tier (fun _ => Raise ApiError) ["p1"; "p2"] = Raise UnboundLocalError.
Proof. reflexivity. Qed.

(** C5.  A failed lookup does add a vote: the handler leaves [tier] as the
    previous iteration set it and the test [if tier:] counts it again.
    With [p1] answering GOLD and the lookup of [p2] failing, the table is
    [GOLD: 2] although one lookup succeeded; with two SILVER answers
    after them the function returns GOLD where the successful lookups
    alone give SILVER. *)
Theorem failed_lookup_recounts_previous_tier :
  tally flaky ["p1"; "p2"] None [] = Ok [("GOLD", 2%nat)]
  /\ count_votes (successful_votes flaky ["p1"; "p2"]) = [("GOLD", 1%nat)]
  /\ _get_majority_tier flaky ["p1"; "p2"; "p3"; "p4"] = Ok "GOLD"
  /\ py_max (count_votes (successful_votes flaky ["p1"; "p2"; "p3"; "p4"]))
     = Ok "SILVER".
Proof. repeat split; reflexivity. Qed.

End TierFacts.

(** ** Writes: insert-if-absent in stages 1, 3 and 4, plain insert in stage 2 *)

Module StoreFacts.
Import Store Fixtures.

Section Table.
Context {R K : Type} `{EqDecision K}.
Variable key : R -> K.
Variable fk_ok : R -> bool.

Lemma has_key_app (k : K) (t : list R) (r : R) :
  has_key key k (t ++ [r]) = has_key key k t || bool_decide (key r = k).
Proof.
  unfold has_key. rewrite existsb_app. simpl. now rewrite orb_false_r.
Qed.

Lemma insert_or_ignore_keys (r : R) (t t' : list R) :
  insert_or_ignore key fk_ok r t = Ok t' ->
  has_key key (key r) t' = true
  /\ (forall k, has_key key k t = true -> has_key key k t' = true)
  /\ exists new, t' = t ++ new.
Proof.
  unfold insert_or_ignore. destruct (has_key key (key r) t) eqn:Hk.
  - intros [= <-]. repeat split; auto. exists []. now rewrite app_nil_r.
  - destruct (fk_ok r); [|discriminate]. intros [= <-]. repeat split.
    + rewrite has_key_app. rewrite bool_decide_eq_true_2 by reflexivity.
      apply orb_true_r.
    + intros k Hin. rewrite has_key_app, Hin. reflexivity.
    + now exists [r].
Qed.

Lemma executemany_or_ignore_keys (data : list R) (t t' : list R) :
  executemany (insert_or_ignore key fk_ok) data t = Ok t' ->
  (forall r, In r data -> has_key key (key r) t' = true)
  /\ (forall k, has_key key k t = true -> has_key key k t' = true)
  /\ exists new, t' = t ++ new.
Proof.
  revert t. induction data as [|r rest IH]; simpl; intros t Hrun.
  - injection Hrun as <-. split; [intros r []|]. split; [auto|].
    exists []. now rewrite app_nil_r.
  - destruct (insert_or_ignore key fk_ok r t) as [t1|e] eqn:Hone;
      [|discriminate].
    apply insert_or_ignore_keys in Hone. destruct Hone as [Hr [Hmono [n1 ->]]].
    destruct (IH _ Hrun) as [Hall [Hmono' [n2 ->]]]. repeat split.
    + intros r' [<- | Hin]; [now apply Hmono' | now apply Hall].
    + intros k Hk. apply Hmono', Hmono, Hk.
    + exists (n1 ++ n2). now rewrite app_assoc.
Qed.

Lemma executemany_or_ignore_noop (data : list R) (t : list R) :
  (forall r, In r data -> has_key key (key r) t = true) ->
  executemany (insert_or_ignore key fk_ok) data t = Ok t.
Proof.
  induction data as [|r rest IH]; simpl; intros Hall; [reflexivity|].
  unfold insert_or_ignore at 1. rewrite (Hall r (or_introl eq_refl)).
  apply IH. intros r' Hin. apply Hall. now right.
Qed.

(** Re-sending a batch that went through changes nothing, and what a
    batch finds stored stays stored in place. *)
Lemma executemany_or_ignore_idempotent (data : list R) (t t' : list R) :
  executemany (insert_or_ignore key fk_ok) data t = Ok t' ->
  executemany (insert_or_ignore key fk_ok) data t' = Ok t'
  /\ exists new, t' = t ++ new.
Proof.
  intros Hrun. apply executemany_or_ignore_keys in Hrun.
  destruct Hrun as [Hall [_ Hnew]]. split; [|exact Hnew].
  now apply executemany_or_ignore_noop.
Qed.

(** A plain insert of a batch that holds a stored key raises. *)
Lemma executemany_insert_conflict (data : list R) (t : list R) (r : R) :
  In r data -> has_key key (key r) t = true ->
  executemany (insert key fk_ok) data t = Raise IntegrityError.
Proof.
  revert t. induction data as [|r0 rest IH]; simpl; intros t Hin Hk; [easy|].
  unfold insert at 1. destruct (has_key key (key r0) t) eqn:Hk0; [reflexivity|].
  destruct (fk_ok r0); [|reflexivity].
  destruct Hin as [-> | Hin]; [congruence|].
  apply IH; [exact Hin|]. rewrite has_key_app, Hk. reflexivity.
Qed.

End Table.

(** Stage 1 writes a page with [INSERT OR IGNORE]: the page always goes
    through, writing it again changes nothing, and rows already stored are
    neither moved nor rewritten. *)
Lemma stage1_page_idempotent (date : string) (entries : list Stage1.summoner)
      (t : list Stage1.summoner_row) :
  exists t', Stage1.insert_page date entries t = (t', Ok tt)
             /\ Stage1.insert_page date entries t' = (t', Ok tt)
             /\ exists new, t' = t ++ new.
Proof.
  unfold Stage1.insert_page, transaction.
  assert (Hok : exists t',
             executemany (insert_or_ignore Stage1.puuid (fun _ => true))
                         (Stage1.page_rows date entries) t = Ok t').
  { generalize (Stage1.page_rows date entries). intros data. revert t.
    induction data as [|r rest IH]; simpl; intros t; [now eexists|].
    unfold insert_or_ignore at 1.
    destruct (has_key Stage1.puuid (Stage1.puuid r) t); apply IH. }
  destruct Hok as [t' Hrun]. exists t'. rewrite Hrun.
  apply executemany_or_ignore_idempotent in Hrun as [Hagain Hnew].
  rewrite Hagain. auto.
Qed.

(** Whatever the batch, a stored [matchId] in it makes Stage 2's flush
    fail as a whole: the table is left as it was. *)
Lemma stage2_flush_conflict (Summoners : list string) (count : Z)
      (data : list Stage2.match_ref) (s : Stage2.state) (r : Stage2.match_ref) :
  In r data -> has_key fst (fst r) (Stage2.Match_ID_Table s) = true ->
  Stage2.flush Summoners count data s
  = ({| Stage2.Match_ID_Table := Stage2.Match_ID_Table s;
        Stage2.log := Stage2.log s ++ [Stage2.ForeignKeyConstraintFailed] |}, Ok tt).
Proof.
  intros Hin Hk. unfold Stage2.flush, transaction.
  now rewrite (executemany_insert_conflict fst _ data _ r Hin Hk).
Qed.

(** C3.  Stage 2 writes with a plain [INSERT], not [INSERT OR IGNORE], and
    never clears [data].  On an empty [Match_ID_Table], with players [p1]
    and [p2] having one match each and a flush at every player, the second
    flush sends [m1] again: the statement raises [IntegrityError], the
    transaction is rolled back and [m2] is never stored.  Running the
    stage again on the result raises at the first flush already. *)
Theorem stage2_duplicate_key_discards_batch :
  Stage2._collect_match_id_by_puuid two_players 1 ["p1"; "p2"] empty
  = ({| Stage2.Match_ID_Table := [("m1", "p1")];
        Stage2.log := [Stage2.BatchInserted 0; Stage2.ForeignKeyConstraintFailed] |},
     Ok tt)
  /\ Stage2._collect_match_id_by_puuid two_players 1 ["p1"; "p2"]
       {| Stage2.Match_ID_Table := [("m1", "p1")]; Stage2.log := [] |}
     = ({| Stage2.Match_ID_Table := [("m1", "p1")];
           Stage2.log := [Stage2.ForeignKeyConstraintFailed;
                          Stage2.ForeignKeyConstraintFailed] |},
        Ok tt)
  /\ Store.transaction (Store.insert_or_ignore fst (Stage2.fk_ok ["p1"; "p2"]))
                       [("m1", "p1"); ("m2", "p2")] [("m1", "p1")]
     = ([("m1", "p1"); ("m2", "p2")], Ok tt).
Proof. repeat split; vm_compute; reflexivity. Qed.

(** The same with the default configuration, where
    [self.batch_insert_limit] is [-1] and every [count % -1] is 0. *)
Example stage2_default_limit :
  Stage2.Match_ID_Table
    (fst (Stage2._collect_match_id_by_puuid two_players (-1) ["p1"; "p2"] empty))
  = [("m1", "p1")].
Proof. vm_compute. reflexivity. Qed.

End StoreFacts.

(** ** Stage 3: minutes played and gold per minute *)

Module Stage3Facts.
Import Stage3 Fixtures.

Section Rows.
Context {F : Type} `{PyFloat F}.

(** With a non-zero number of minutes every participant gets a row, and
    its [goldPerMinute] is the quotient of [goldEarned] by the minutes. *)
Lemma participants_loop_rows (match_id tier eogr : string) (minutes : F)
      (ps : list participant) (s : state F) :
  is_zero minutes = false ->
  participants_loop match_id tier eogr minutes ps s
  = ({| Match_Data_Teams_Table := Match_Data_Teams_Table s;
        Match_Data_Participants_Table := Match_Data_Participants_Table s;
        data_teams := data_teams s;
        data_participants :=
          data_participants s ++
          map (fun p => participant_data match_id p tier
                          (fdiv (of_int (p_goldEarned p)) minutes) eogr) ps;
        log := log s |}, Ok tt).
Proof.
  intros Hnz. revert s. induction ps as [|p rest IH]; intros s.
  - simpl. rewrite app_nil_r. now destruct s.
  - simpl. unfold bind at 1. unfold gold_per_minute, truediv. rewrite Hnz.
    unfold bind at 1. unfold append_participant at 1, modify.
    rewrite IH. simpl. now rewrite <- app_assoc.
Qed.

(** A zero duration stops the loop at the first participant. *)
Lemma participants_loop_zero (match_id tier eogr : string) (minutes : F)
      (p : participant) (ps : list participant) (s : state F) :
  is_zero minutes = true ->
  participants_loop match_id tier eogr minutes (p :: ps) s
  = (s, Raise ZeroDivisionError).
Proof.
  intros Hz. simpl. unfold bind at 1. unfold gold_per_minute, truediv.
  now rewrite Hz.
Qed.

End Rows.

(** On every duration up to 3600 the minutes binary64 arithmetic returns
    are within one part in 2^51 of the exact quotients. *)
Lemma binary64_minutes_close :
  forallb (fun d => close (inject_Z d / inject_Z 60)
                          (game_duration (F := float) (lasting d (Some 1)))
                    && close (inject_Z d / inject_Z 600)
                             (game_duration (F := float) (lasting d None)))
          (map Z.of_nat (seq 0 (Z.to_nat 3601)))
  = true.
Proof. vm_compute. reflexivity. Qed.

(** *** The loop over the stored matches *)

Section Loop.
Context {F : Type} `{PyFloat F}.
Variable get_match_data_from_matchId : string -> result match_data.
Variable get_summoner_tier_from_puuid : string -> result (option string).
Variable batch_insert_limit : Z.
Variable Match_ID_Table : list string.

Import Stage3Spec.

Lemma silent_refl (s : state F) : silent s s.
Proof. reflexivity. Qed.

Lemma silent_trans (s1 s2 s3 : state F) :
  silent s1 s2 -> silent s2 s3 -> silent s1 s3.
Proof. unfold silent. congruence. Qed.

Lemma silent_upto (n : nat) (ids : list string) (s s' : state F) :
  silent s s' -> upto n ids s s'.
Proof.
  intros Hs. exists 0%nat. split; [lia|]. cbn. now rewrite app_nil_r.
Qed.

Lemma silent_then_upto (n : nat) (ids : list string) (s1 s2 s3 : state F) :
  silent s1 s2 -> upto n ids s2 s3 -> upto n ids s1 s3.
Proof.
  unfold silent. intros H12 (k & Hk & H23). exists k. split; [exact Hk|].
  congruence.
Qed.

Lemma upto_then_silent (n : nat) (ids : list string) (s1 s2 s3 : state F) :
  upto n ids s1 s2 -> silent s2 s3 -> upto n ids s1 s3.
Proof.
  unfold silent. intros (k & Hk & H12) H23. exists k. split; [exact Hk|].
  congruence.
Qed.

Lemma say_silent (e : log_entry) :
  (forall m, e <> Fetched m) -> post silent (say (F := F) e).
Proof.
  intros He s. unfold silent, fetched, say, modify. cbn.
  rewrite flat_map_app. cbn.
  destruct e; try apply app_nil_r. now destruct (He match_id).
Qed.

Lemma participants_loop_silent (match_id tier eogr : string) (minutes : F)
      (ps : list participant) :
  post silent (participants_loop match_id tier eogr minutes ps).
Proof.
  induction ps as [|p rest IH]; cbn [participants_loop].
  - apply PostFacts.post_ret, silent_refl.
  - apply (PostFacts.post_bind silent silent_trans);
      [apply PostFacts.post_pure, silent_refl|].
    intros gpm.
    apply (PostFacts.post_bind silent silent_trans);
      [intros s; reflexivity | intros _; exact IH].
Qed.

Lemma log_first_rows_silent : post silent (log_first_rows (F := F)).
Proof.
  intros s. unfold log_first_rows. now destruct (data_participants s).
Qed.

Lemma flush_silent : post silent (flush (F := F) Match_ID_Table).
Proof.
  intros s. unfold flush.
  destruct (Store.transaction _ (data_teams s) _) as [t1 [u1|e1]].
  - destruct (Store.transaction _ (data_participants s) _) as [t2 [u2|e2]];
      unfold silent, fetched; cbn; rewrite flat_map_app; apply app_nil_r.
  - now apply say_silent.
Qed.

(** What follows the call to the API in one iteration, up to the test
    [if i == 1]. *)
Lemma iteration_fetches (i : Z) (n : nat) (match_id : string)
      (rest : list string) :
  (i <> 1 ->
   post (upto n rest)
        (loop get_match_data_from_matchId get_summoner_tier_from_puuid
              batch_insert_limit Match_ID_Table (i + 1) rest)) ->
  post (upto (S n) (match_id :: rest))
       (loop get_match_data_from_matchId get_summoner_tier_from_puuid
             batch_insert_limit Match_ID_Table i (match_id :: rest)).
Proof.
  intros Hnext. cbn [loop].
  apply (PostFacts.post_bind_seq
           (fun s s' => fetched s' = fetched s ++ [match_id])
           (upto n rest)).
  - intros s s' Hf. exists 1%nat. split; [lia|]. exact Hf.
  - intros s1 s2 s3 H12 (k & Hk & H23). exists (S k). split; [lia|].
    rewrite H23, H12. cbn. now rewrite <- app_assoc.
  - intros s. unfold fetched, say, modify. cbn. now rewrite flat_map_app.
  - intros _.
    repeat (apply (PostFacts.post_bind_seq silent (upto n rest));
            [apply silent_upto | apply silent_then_upto
            | apply PostFacts.post_pure, silent_refl | intros ?]).
    apply (PostFacts.post_bind_seq silent (upto n rest));
      [apply silent_upto | apply silent_then_upto
      | intros s; reflexivity | intros _].
    apply (PostFacts.post_bind_seq silent (upto n rest));
      [apply silent_upto | apply silent_then_upto
      | apply participants_loop_silent | intros _].
    apply (PostFacts.post_bind_seq silent (upto n rest));
      [apply silent_upto | apply silent_then_upto | | intros _].
    { destruct (i =? 0); [apply log_first_rows_silent|].
      apply PostFacts.post_ret, silent_refl. }
    destruct (i =? 1) eqn:Hi.
    + intros s. apply silent_upto, silent_refl.
    + apply (PostFacts.post_bind_seq silent (upto n rest));
        [apply silent_upto | apply silent_then_upto
        | apply PostFacts.post_pure, silent_refl | intros r].
      apply (PostFacts.post_bind_seq silent (upto n rest));
        [apply silent_upto | apply silent_then_upto | | intros _].
      * destruct (r =? 0); [apply flush_silent|].
        apply PostFacts.post_ret, silent_refl.
      * apply Hnext. lia.
Qed.

Lemma loop_fetches_at_most_two (match_ids : list string) :
  post (upto 2 match_ids)
       (loop get_match_data_from_matchId get_summoner_tier_from_puuid
             batch_insert_limit Match_ID_Table 0 match_ids).
Proof.
  destruct match_ids as [|m0 rest0].
  - intros s. apply silent_upto, silent_refl.
  - apply (iteration_fetches 0 1 m0 rest0). intros _.
    change (0 + 1) with 1.
    destruct rest0 as [|m1 rest1].
    + intros s. apply silent_upto, silent_refl.
    + apply (iteration_fetches 1 0 m1 rest1). intros Hne.
      now contradiction Hne.
Qed.

(** The stage asks the API about the first two stored matches at most. *)
Lemma stage3_fetches_at_most_two :
  post (upto 2 Match_ID_Table)
       (_collect_match_data_by_matchId
          get_match_data_from_matchId get_summoner_tier_from_puuid
          batch_insert_limit Match_ID_Table).
Proof.
  unfold _collect_match_data_by_matchId.
  apply (PostFacts.post_try_except_seq (upto 2 Match_ID_Table) silent
                                       (upto 2 Match_ID_Table)).
  - auto.
  - apply upto_then_silent.
  - apply loop_fetches_at_most_two.
  - intros e. now apply say_silent.
Qed.

End Loop.

End Stage3Facts.

(** ** Stage 4: one event *)

Module Stage4Facts.
Import Stage4 Stage4Spec Fixtures.

Section Event.
Context {F : Type}.
Variable eventTypesToConsider : list string.
Variable table : list (Stage3.participant_row F).

(** The minion is answered without a query. *)
Lemma minion_lookup (id : string) (s : state) :
  _get_teamId_teamPos table (PStr "Minion") id s
  = (s, Ok (Some (PNone, PStr ""))).
Proof. reflexivity. Qed.

(** A lookup leaves everything but the log alone, and fails only for an
    identifier other than the minion's. *)
Lemma lookup_cases (puuid : pyval) (id : string) (s : state) :
  exists l r,
    _get_teamId_teamPos table puuid id s
    = ({| vars := vars s; data_events := data_events s;
          Match_Timeline_Table := Match_Timeline_Table s;
          log := log s ++ l |}, Ok r)
    /\ (r = None -> puuid <> PStr "Minion")
    /\ Forall (fun e => forall m, e <> TimelineFetched m) l.
Proof.
  unfold _get_teamId_teamPos.
  destruct (bool_decide (puuid = PStr "Minion")) eqn:Hm.
  - exists [], (Some (PNone, PStr "")). rewrite app_nil_r.
    split; [now destruct s|]. split; [discriminate | constructor].
  - apply bool_decide_eq_false in Hm.
    unfold bind, say, modify, ret. cbn [log vars data_events Match_Timeline_Table].
    destruct (filter _ table) as [|r0 rest].
    + exists [Query (format puuid) id; NoData (format puuid) id], None.
      cbn. rewrite <- app_assoc. split; [reflexivity|]. split; [auto|].
      repeat constructor; discriminate.
    + exists [Query (format puuid) id],
             (Some (PInt (Stage3.pr_teamId r0), PStr (Stage3.pr_teamPosition r0))).
      split; [reflexivity|]. split; [discriminate|].
      repeat constructor; discriminate.
Qed.


(** Building the tuple never touches the log or the rows. *)
Lemma frame_event_state (id : string) (ev : event) (s : state) :
  fst (frame_event id ev s) = s.
Proof.
  unfold frame_event, bind, read, ret.
  destruct (puuid_e (vars s)); [|reflexivity].
  destruct (team_id_e (vars s)); [|reflexivity].
  destruct (in_game_id_e (vars s)); [|reflexivity].
  destruct (team_position_e (vars s)); [|reflexivity].
  destruct (position_x_e (vars s)); [|reflexivity].
  destruct (position_y_e (vars s)); [|reflexivity].
  destruct (timestamp_e (vars s)); [|reflexivity].
  destruct (event_type_e (vars s)); reflexivity.
Qed.

Lemma frame_event_name (id : string) (ev : event) (s : state) (r : row) :
  snd (frame_event id ev s) = Ok r -> event_name r = PStr (e_type ev).
Proof.
  unfold frame_event, bind, read, ret.
  destruct (puuid_e (vars s)); [|discriminate].
  destruct (team_id_e (vars s)); [|discriminate].
  destruct (in_game_id_e (vars s)); [|discriminate].
  destruct (team_position_e (vars s)); [|discriminate].
  destruct (position_x_e (vars s)); [|discriminate].
  destruct (position_y_e (vars s)); [|discriminate].
  destruct (timestamp_e (vars s)); [|discriminate].
  destruct (event_type_e (vars s)); [|discriminate].
  cbn. now intros [= <-].
Qed.

Lemma kill_types_cases (ty : string) :
  ty ∈ kill_types ->
  ty = "ELITE_MONSTER_KILL" \/ ty = "CHAMPION_KILL" \/ ty = "BUILDING_KILL".
Proof.
  unfold kill_types. intros H.
  apply elem_of_cons in H as [-> | H]; [auto|].
  apply elem_of_cons in H as [-> | H]; [auto|].
  apply elem_of_cons in H as [-> | H]; [auto|].
  now apply elem_of_nil in H.
Qed.

(** C8.  An event whose [killerId] is 0 never adds to the log, so no
    store lookup is executed for it; if it is one of the three kill
    events of the allow-list, it yields one row, whose actor is
    ["Minion"] and whose [teamPosition] is the empty string. *)
Theorem minion_actor_not_looked_up
        (id : string) (participant_ids : gmap Z string) (ev : event) (s : state) :
  killerId ev = PInt 0 ->
  log (fst (event_body eventTypesToConsider table id participant_ids ev s)) = log s
  /\ queries (fst (event_body eventTypesToConsider table id participant_ids ev s))
     = queries s
  /\ (e_type ev ∈ eventTypesToConsider -> e_type ev ∈ kill_types ->
      exists s' r,
        event_body eventTypesToConsider table id participant_ids ev s = (s', Ok Next)
        /\ data_events s' = data_events s ++ [r]
        /\ puuId r = PStr "Minion" /\ inGameId r = PInt 0
        /\ teamPosition r = PStr "").
Proof.
  destruct ev as [ty kid px py ts ktid mty tid bty]. cbn. intros ->.
  assert (Hkill : ty ∈ eventTypesToConsider -> ty ∈ kill_types ->
            exists s' r,
              event_body eventTypesToConsider table id participant_ids
                {| e_type := ty; killerId := PInt 0; position_x := px;
                   position_y := py; e_timestamp := ts; killerTeamId := ktid;
                   monsterType := mty; e_teamId := tid; buildingType := bty |} s
              = (s', Ok Next)
              /\ data_events s' = data_events s ++ [r]
              /\ puuId r = PStr "Minion" /\ inGameId r = PInt 0
              /\ teamPosition r = PStr "" /\ log s' = log s).
  { intros Hin Hk. unfold event_body. cbn [e_type].
    rewrite (bool_decide_eq_true_2 _ Hin).
    apply kill_types_cases in Hk as [-> | [-> | ->]];
      (do 2 eexists; split; [vm_compute; reflexivity|];
       repeat split; reflexivity). }
  assert (Hlog : log (fst (event_body eventTypesToConsider table id participant_ids
                {| e_type := ty; killerId := PInt 0; position_x := px;
                   position_y := py; e_timestamp := ts; killerTeamId := ktid;
                   monsterType := mty; e_teamId := tid; buildingType := bty |} s))
                 = log s).
  { destruct (decide (ty ∈ eventTypesToConsider)) as [Hin | Hout].
    - destruct (decide (ty ∈ kill_types)) as [Hk | Hnk].
      + destruct (Hkill Hin Hk) as (s' & r & -> & _ & _ & _ & _ & Hl). exact Hl.
      + unfold event_body. cbn [e_type].
        rewrite (bool_decide_eq_true_2 _ Hin), (bool_decide_eq_false_2 _ Hnk).
        unfold bind at 1. unfold ret at 1. unfold bind.
        match goal with
        | |- context [frame_event ?i ?e s] =>
            pose proof (frame_event_state i e s) as Hst;
            destruct (frame_event i e s) as [s1 [r|e1]]
        end; cbn in Hst; subst s1; reflexivity.
    - unfold event_body. cbn [e_type].
      now rewrite (bool_decide_eq_false_2 _ Hout). }
  split; [exact Hlog|]. split; [unfold queries; now rewrite Hlog|].
  intros Hin Hk. destruct (Hkill Hin Hk) as (s' & r & H1 & H2 & H3 & H4 & H5 & _).
  exists s', r. auto.
Qed.

(** One event adds at most one row; the row is named after the event,
    and for a building kill its [teamId] is the payload's. *)
Lemma event_body_row (id : string) (participant_ids : gmap Z string)
      (ev : event) (s : state) :
  let s' := fst (event_body eventTypesToConsider table id participant_ids ev s) in
  data_events s' = data_events s \/
  exists r, data_events s' = data_events s ++ [r]
            /\ event_name r = PStr (e_type ev)
            /\ (e_type ev = "BUILDING_KILL" -> teamId r = e_teamId ev).
Proof.
  unfold event_body.
  destruct (bool_decide (e_type ev ∈ eventTypesToConsider)); [|now left].
  destruct (bool_decide (e_type ev ∈ kill_types)) eqn:Hk.
  - apply bool_decide_eq_true in Hk. apply kill_types_cases in Hk.
    destruct ev as [ty kid px py ts ktid mty tid bty]. cbn in Hk. cbn [e_type e_teamId].
    unfold kill_block, bind, assign, modify. cbv beta iota zeta.
    cbn [killerId e_type position_x position_y e_timestamp killerTeamId
         monsterType e_teamId buildingType].
    generalize (if bool_decide (kid = PInt 0) then PStr "Minion"
                else dict_get participant_ids kid).
    intros puuid.
    match goal with
    | |- context [_get_teamId_teamPos table ?p ?i ?st] =>
        destruct (lookup_cases p i st) as (l & r & Heq & Hr & _)
    end.
    rewrite Heq. clear Heq.
    destruct r as [[team_id team_position]|].
    + destruct Hk as [-> | [-> | ->]]; right; eexists;
        (split; [vm_compute; reflexivity|]); split; try reflexivity;
        intros; try discriminate; reflexivity.
    + rewrite (bool_decide_eq_true_2 _ (Hr eq_refl)). now left.
  - unfold bind, ret. cbv beta iota.
    apply bool_decide_eq_false in Hk.
    pose proof (frame_event_state id ev s) as Hst.
    pose proof (frame_event_name id ev s) as Hname.
    destruct (frame_event id ev s) as [s1 [r|e1]]; cbn in Hst; subst s1.
    + right. exists r. split; [reflexivity|]. split; [now apply Hname|].
      intros Hb. exfalso. apply Hk. rewrite Hb. unfold kill_types. set_solver.
    + now left.
Qed.

(** A building-kill event adds no row or exactly one, and that row has
    the [teamId] of the event payload. *)
Lemma building_kill_row
      (id : string) (participant_ids : gmap Z string) (ev : event) (s : state) :
  e_type ev = "BUILDING_KILL" ->
  let s' := fst (event_body eventTypesToConsider table id participant_ids ev s) in
  data_events s' = data_events s \/
  exists r, data_events s' = data_events s ++ [r]
            /\ event_name r = PStr "BUILDING_KILL"
            /\ teamId r = e_teamId ev.
Proof.
  intros Hb.
  destruct (event_body_row id participant_ids ev s) as [Hsame | (r & Hr & Hn & Ht)];
    [now left|].
  right. exists r. rewrite Hb in Hn. auto.
Qed.

(** Once the body of the event loop breaks, the events that follow are
    not looked at. *)
Lemma break_skips_rest (id : string) (participant_ids : gmap Z string)
      (ev : event) (rest : list event) (s : state) :
  snd (event_body eventTypesToConsider table id participant_ids ev s) = Ok Break ->
  events_loop eventTypesToConsider table id participant_ids (ev :: rest) s
  = (fst (event_body eventTypesToConsider table id participant_ids ev s), Ok tt).
Proof.
  intros Hb. cbn [events_loop]. unfold bind.
  destruct (event_body eventTypesToConsider table id participant_ids ev s)
    as [s1 r]. cbn in Hb. now subst r.
Qed.

(** A kill by a player without a stored row breaks. *)
Lemma unresolved_breaks (id : string) (participant_ids : gmap Z string)
      (ev : event) (s : state) :
  e_type ev ∈ eventTypesToConsider -> e_type ev ∈ kill_types ->
  killerId ev <> PInt 0 ->
  dict_get participant_ids (killerId ev) <> PStr "Minion" ->
  filter (fun r => Stage3.pr_puuId r = format (dict_get participant_ids (killerId ev))
                   /\ Stage3.pr_matchId r = id) table = [] ->
  snd (event_body eventTypesToConsider table id participant_ids ev s) = Ok Break
  /\ data_events (fst (event_body eventTypesToConsider table id participant_ids ev s))
     = data_events s.
Proof.
  intros Hin Hk H0 Hm Hnone. unfold event_body.
  rewrite (bool_decide_eq_true_2 _ Hin), (bool_decide_eq_true_2 _ Hk).
  unfold kill_block, _get_teamId_teamPos. cbv zeta.
  rewrite (bool_decide_eq_false_2 _ H0), (bool_decide_eq_false_2 _ Hm).
  unfold bind, assign, say, modify, ret. cbv beta iota.
  rewrite Hnone. cbv beta iota.
  now rewrite (bool_decide_eq_true_2 _ Hm).
Qed.

End Event.

(** *** Whole frames and the loop over the matches *)

Lemma fetched_app (l1 l2 : list log_entry) :
  Forall (fun e => forall m, e <> TimelineFetched m) l2 ->
  flat_map (fun e => match e with TimelineFetched m => [m] | _ => [] end) (l1 ++ l2)
  = flat_map (fun e => match e with TimelineFetched m => [m] | _ => [] end) l1.
Proof.
  intros Hl2. rewrite flat_map_app.
  assert (Hnil : flat_map (fun e => match e with TimelineFetched m => [m] | _ => [] end) l2 = []).
  { induction Hl2 as [|e l He _ IH]; [reflexivity|]. cbn. rewrite IH.
    destruct e; try reflexivity. now destruct (He match_id). }
  rewrite Hnil. apply app_nil_r.
Qed.

Lemma attributed_mono (l1 l2 : list event) (r : row) :
  (forall ev, In ev l1 -> In ev l2) -> attributed l1 r -> attributed l2 r.
Proof.
  intros Hsub Hr Hn. destruct (Hr Hn) as (ev & Hin & Hrest). exists ev. auto.
Qed.

Section Relations.
Variable P : row -> Prop.

Lemma step_refl (s : state) : step P s s.
Proof.
  split; [now split|]. exists []. rewrite app_nil_r. now split.
Qed.

Lemma step_trans (s1 s2 s3 : state) : step P s1 s2 -> step P s2 s3 -> step P s1 s3.
Proof.
  intros [[Hf1 Ht1] (n1 & Hd1 & Hp1)] [[Hf2 Ht2] (n2 & Hd2 & Hp2)].
  split; [split; congruence|].
  exists (n1 ++ n2). split.
  - rewrite Hd2, Hd1. now rewrite app_assoc.
  - now apply Forall_app.
Qed.

Lemma step_log (s : state) (l : list log_entry) :
  Forall (fun e => forall m, e <> TimelineFetched m) l ->
  step P s {| vars := vars s; data_events := data_events s;
              Match_Timeline_Table := Match_Timeline_Table s;
              log := log s ++ l |}.
Proof.
  intros Hl. split; [split; [|reflexivity]|].
  - unfold fetched. cbn. now apply fetched_app.
  - exists []. cbn. rewrite app_nil_r. now split.
Qed.

Lemma say_step (e : log_entry) :
  (forall m, e <> TimelineFetched m) -> post (step P) (say e).
Proof. intros He s. apply step_log. now constructor. Qed.

Lemma assign_step (f : locals -> locals) : post (step P) (assign f).
Proof.
  intros s. split; [now split|]. exists []. cbn. rewrite app_nil_r. now split.
Qed.

Lemma append_step (r : row) : P r -> post (step P) (append r).
Proof.
  intros Hr s. split; [now split|]. exists [r]. cbn. split; [reflexivity|].
  now constructor.
Qed.

End Relations.

Create HintDb steps.
#[local] Hint Resolve step_refl step_trans : steps.

Section Frames.
Context {F : Type}.
Variable eventTypesToConsider : list string.
Variable table : list (Stage3.participant_row F).
Variable P : row -> Prop.

Lemma lookup_step (puuid : pyval) (id : string) :
  post (step P) (_get_teamId_teamPos table puuid id).
Proof.
  intros s. destruct (lookup_cases table puuid id s) as (l & r & -> & _ & Hl).
  now apply step_log.
Qed.

Lemma kill_block_step (id : string) (pids : gmap Z string) (ev : event) :
  post (step P) (kill_block table id pids ev).
Proof.
  unfold kill_block. cbv zeta.
  apply PostFacts.post_bind; eauto with steps; [apply assign_step|]. intros _.
  apply PostFacts.post_bind; eauto with steps; [apply lookup_step|].
  intros [[team_id team_position]|].
  - apply PostFacts.post_bind; eauto with steps; [apply assign_step|]. intros _.
    apply PostFacts.post_ret; eauto with steps.
  - destruct (bool_decide _).
    + apply PostFacts.post_bind; eauto with steps; [now apply say_step|].
      intros _. apply PostFacts.post_ret; eauto with steps.
    + apply PostFacts.post_raise; eauto with steps.
Qed.

Lemma frame_event_step (id : string) (ev : event) :
  post (step P) (frame_event id ev).
Proof. intros s. rewrite frame_event_state. apply step_refl. Qed.

(** The rows of position samples are named ["POSITION"]. *)
Hypothesis P_position : forall r, event_name r = PStr "POSITION" -> P r.

Lemma sample_body_step (id : string) (pids : gmap Z string) (ts : pyval)
      (kv : string * participantFrame) :
  post (step P) (sample_body table id pids ts kv).
Proof.
  unfold sample_body. cbv zeta.
  apply PostFacts.post_bind; eauto with steps;
    [apply PostFacts.post_pure; eauto with steps|]. intros k.
  apply PostFacts.post_bind; eauto with steps; [apply lookup_step|].
  intros [[team_id team_position]|].
  - apply PostFacts.post_bind; eauto with steps.
    + apply append_step. now apply P_position.
    + intros _. apply PostFacts.post_ret; eauto with steps.
  - apply PostFacts.post_bind; eauto with steps; [now apply say_step|].
    intros _. apply PostFacts.post_ret; eauto with steps.
Qed.

Lemma samples_loop_step (id : string) (pids : gmap Z string) (ts : pyval)
      (kvs : list (string * participantFrame)) :
  post (step P) (samples_loop table id pids ts kvs).
Proof.
  induction kvs as [|kv rest IH]; cbn [samples_loop].
  - apply PostFacts.post_ret; eauto with steps.
  - apply PostFacts.post_bind; eauto with steps; [apply sample_body_step|].
    intros [|]; [exact IH | apply PostFacts.post_ret; eauto with steps].
Qed.

End Frames.

Section Attribution.
Context {F : Type}.
Variable eventTypesToConsider : list string.
Variable table : list (Stage3.participant_row F).
Variable payload : list event.

Lemma position_attributed (r : row) :
  event_name r = PStr "POSITION" -> attributed payload r.
Proof. intros Hn Hb. congruence. Qed.

Lemma event_body_quiet (id : string) (pids : gmap Z string) (ev : event) :
  post (step (fun _ => True)) (event_body eventTypesToConsider table id pids ev).
Proof.
  unfold event_body. destruct (bool_decide (_ ∈ eventTypesToConsider));
    [|apply PostFacts.post_ret; eauto with steps].
  apply PostFacts.post_bind; eauto with steps.
  - destruct (bool_decide _);
      [apply kill_block_step | apply PostFacts.post_ret; eauto with steps].
  - intros [|]; [|apply PostFacts.post_ret; eauto with steps].
    apply PostFacts.post_bind; eauto with steps; [apply frame_event_step|].
    intros r. apply PostFacts.post_bind; eauto with steps;
      [now apply append_step|].
    intros _. apply PostFacts.post_ret; eauto with steps.
Qed.

Lemma event_body_step (id : string) (pids : gmap Z string) (ev : event) :
  In ev payload ->
  post (step (attributed payload))
       (event_body eventTypesToConsider table id pids ev).
Proof.
  intros Hin s. split; [apply (event_body_quiet id pids ev s)|].
  destruct (event_body_row eventTypesToConsider table id pids ev s)
    as [Hsame | (r & Hr & Hn & Ht)].
  - exists []. rewrite app_nil_r. now split.
  - exists [r]. split; [exact Hr|]. constructor; [|constructor].
    intros Hb. exists ev. rewrite Hn in Hb. injection Hb as Hb. auto.
Qed.

Lemma events_loop_step (id : string) (pids : gmap Z string) (evs : list event) :
  (forall ev, In ev evs -> In ev payload) ->
  post (step (attributed payload))
       (events_loop eventTypesToConsider table id pids evs).
Proof.
  induction evs as [|ev rest IH]; intros Hsub; cbn [events_loop].
  - apply PostFacts.post_ret; eauto with steps.
  - apply PostFacts.post_bind; eauto with steps.
    + apply event_body_step, Hsub. now left.
    + intros [|]; [|apply PostFacts.post_ret; eauto with steps].
      apply IH. intros ev' Hin. apply Hsub. now right.
Qed.

Lemma frames_loop_step (id : string) (pids : gmap Z string) (frs : list frame) :
  (forall ev, In ev (flat_map events frs) -> In ev payload) ->
  post (step (attributed payload))
       (frames_loop eventTypesToConsider table id pids frs).
Proof.
  induction frs as [|fr rest IH]; intros Hsub; cbn [frames_loop].
  - apply PostFacts.post_ret; eauto with steps.
  - apply PostFacts.post_bind; eauto with steps.
    + unfold frame_body. apply PostFacts.post_bind; eauto with steps.
      * apply events_loop_step. intros ev Hin. apply Hsub. cbn.
        apply in_or_app. now left.
      * intros _. apply samples_loop_step. apply position_attributed.
    + intros _. apply IH. intros ev Hin. apply Hsub. cbn.
      apply in_or_app. now right.
Qed.

End Attribution.

Section Matches.
Context {F : Type}.
Variable api : string -> result timeline.
Variable eventTypesToConsider : list string.
Variable batch_insert_limit : Z.
Variable table : list (Stage3.participant_row F).
Variable Match_ID_Table : list string.

(** The loop over the matches ends with its first iteration: one call
    to the API at most, no write, and only attributed rows. *)
Lemma loop_first_match_only (match_ids : list string) (s : state) :
  let s' := fst (loop api eventTypesToConsider batch_insert_limit table
                      Match_ID_Table 0 match_ids s) in
  fetched s' = fetched s ++ firstn 1 match_ids
  /\ Match_Timeline_Table s' = Match_Timeline_Table s
  /\ emits (attributed (payload_events api match_ids)) s s'.
Proof.
  destruct match_ids as [|id rest]; cbv zeta.
  - cbn. rewrite app_nil_r. repeat split. exists []. rewrite app_nil_r. now split.
  - set (s1 := {| vars := vars s; data_events := data_events s;
                  Match_Timeline_Table := Match_Timeline_Table s;
                  log := log s ++ [TimelineFetched id] |}).
    assert (Hs1 : fetched s1 = fetched s ++ [id]).
    { unfold fetched, s1. cbn. rewrite flat_map_app. reflexivity. }
    destruct (api id) as [data|e] eqn:Hapi.
    + assert (Heq : loop api eventTypesToConsider batch_insert_limit table
                         Match_ID_Table 0 (id :: rest) s
                    = (frames_loop eventTypesToConsider table id
                         (build_participant_ids (tl_participants data))
                         (frames data) ;;; ret tt) s1).
      { cbn [loop]. unfold bind, say, modify. cbv beta iota.
        rewrite Hapi. reflexivity. }
      rewrite Heq. clear Heq.
      match goal with
      | |- context [fst (?c s1)] =>
          assert (Hstep : step (attributed (payload_events api (id :: rest)))
                               s1 (fst (c s1)))
      end.
      { apply PostFacts.post_bind; eauto with steps.
        - apply frames_loop_step. intros ev Hin. cbn. rewrite Hapi.
          apply in_or_app. now left.
        - intros _. apply PostFacts.post_ret; eauto with steps. }
      destruct Hstep as [[Hf Ht] Hemit]. rewrite Hf, Ht, Hs1.
      repeat split. exact Hemit.
    + assert (Heq : loop api eventTypesToConsider batch_insert_limit table
                         Match_ID_Table 0 (id :: rest) s
                    = (s1, Raise e)).
      { cbn [loop]. unfold bind, say, modify. cbv beta iota.
        rewrite Hapi. reflexivity. }
      rewrite Heq. cbn [fst]. rewrite Hs1.
      repeat split. exists []. rewrite app_nil_r. now split.
Qed.

(** The stage asks the API about the first match only and writes
    nothing. *)
Lemma stage4_first_match_only :
  let s' := fst (_collect_match_timeline_by_matchId
                   api eventTypesToConsider batch_insert_limit table
                   Match_ID_Table initial) in
  fetched s' = firstn 1 (distinct_matchIds table)
  /\ Match_Timeline_Table s' = [].
Proof.
  destruct (loop_first_match_only (distinct_matchIds table) initial)
    as (Hf & Ht & _).
  split; [exact Hf | exact Ht].
Qed.

(** C7.  Whatever the killer, the participants and the stored rows are,
    a building-kill event adds no row or exactly one, and that row has
    the [teamId] of the event payload; so every building-kill row the
    stage collects carries the [teamId] of a building-kill event of the
    fetched timelines. *)
Theorem building_kill_carries_payload_team :
  (forall (id : string) (participant_ids : gmap Z string) (ev : event) (s : state),
     e_type ev = "BUILDING_KILL" ->
     let s' := fst (event_body eventTypesToConsider table id participant_ids ev s) in
     data_events s' = data_events s \/
     exists r, data_events s' = data_events s ++ [r]
               /\ event_name r = PStr "BUILDING_KILL"
               /\ teamId r = e_teamId ev)
  /\ (forall r,
        In r (data_events
                (fst (_collect_match_timeline_by_matchId
                        api eventTypesToConsider batch_insert_limit table
                        Match_ID_Table initial))) ->
        event_name r = PStr "BUILDING_KILL" ->
        exists ev, In ev (payload_events api (distinct_matchIds table))
                   /\ e_type ev = "BUILDING_KILL" /\ teamId r = e_teamId ev).
Proof.
  split; [intros; now apply building_kill_row|].
  intros r Hin. unfold _collect_match_timeline_by_matchId in Hin.
  destruct (loop_first_match_only (distinct_matchIds table) initial)
    as (_ & _ & new & Hnew & Hall).
  rewrite Hnew in Hin. cbn in Hin.
  rewrite Forall_forall in Hall. apply Hall. now apply list_elem_of_In.
Qed.

End Matches.

(** The theorem at the collected rows of the example: the tower that team
    100 lost to a minion. *)
Lemma building_kill_carries_payload_team_witness :
  In building_row (data_events stage4_run)
  /\ exists ev, In ev (payload_events (fun _ => Ok a_timeline)
                                      (distinct_matchIds stored))
                /\ e_type ev = "BUILDING_KILL"
                /\ teamId building_row = e_teamId ev.
Proof.
  assert (Hin : In building_row (data_events stage4_run)).
  { right. left. reflexivity. }
  split; [exact Hin|].
  exact (proj2 (building_kill_carries_payload_team
                  (fun _ => Ok a_timeline) kill_types 1000 stored ["m0"; "m1"])
               building_row Hin eq_refl).
Defined.

(** The payload's [teamId] also wins over the team of a resolved killer:
    player [b] of team 200 destroys a tower of team 100. *)
Example building_kill_by_player :
  map teamId
      (data_events
         (fst (event_body kill_types stored "m0" (build_participant_ids players)
                          (an_event "BUILDING_KILL" 2 3000) initial)))
  = [PInt 100].
Proof. vm_compute. reflexivity. Qed.


(** The theorem at a tower destroyed by a minion in match [m0]. *)
Lemma minion_actor_not_looked_up_witness :
  queries (fst (event_body kill_types stored "m0" (build_participant_ids players)
                           (an_event "BUILDING_KILL" 0 3000) initial)) = []
  /\ exists s' r,
       event_body kill_types stored "m0" (build_participant_ids players)
                  (an_event "BUILDING_KILL" 0 3000) initial = (s', Ok Next)
       /\ data_events s' = [r]
       /\ puuId r = PStr "Minion" /\ inGameId r = PInt 0
       /\ teamPosition r = PStr "".
Proof.
  destruct (minion_actor_not_looked_up
              kill_types stored "m0" (build_participant_ids players)
              (an_event "BUILDING_KILL" 0 3000) initial eq_refl)
    as (_ & Hq & Hrow).
  split; [exact Hq|]. apply Hrow.
  - unfold kill_types. cbn.
    apply list_elem_of_further, list_elem_of_further, list_elem_of_here.
  - unfold kill_types. cbn.
    apply list_elem_of_further, list_elem_of_further, list_elem_of_here.
Defined.

(** C2.  A failed resolution does not drop one event or one sample: the
    [break] leaves the loop.  In a frame whose second event and whose first
    position sample cannot be resolved, the building kill that follows the
    event and the sample of the resolvable player that follows the sample
    are not collected, while they are when the two unresolvable entries
    are not in the frame. *)
Theorem unresolved_actor_ends_the_loop :
  data_events (run_frame a_frame) = [monster_row]
  /\ data_events (run_frame a_frame_resolved)
     = [monster_row; building_row; sample_row]
  /\ log (run_frame a_frame)
     = [Query "b" "m0";
        Query "a" "m0"; NoData "a" "m0";
        Excluding (PStr "a") "CHAMPION_KILL" "m0";
        Query "a" "m0"; NoData "a" "m0";
        Excluding (PStr "a") "PARTICIPANT_FRAME" "m0"].
Proof. repeat split; vm_compute; reflexivity. Qed.

(** C1.  Neither loop covers its input.  Stage 3 leaves its loop at
    [i == 1]: of three stored matches the third is never fetched, and the
    rows of the second are extracted but not written.  Stage 4 leaves its
    loop at [iter_ == 0]: of two matches with stored participants only the
    first is fetched, and nothing is written. *)
Theorem loops_stop_after_first_matches :
  Stage3.fetched stage3_run = ["m0"; "m1"]
  /\ map Stage3.tr_matchId (Stage3.data_teams stage3_run)
     = ["m0"; "m0"; "m1"; "m1"]
  /\ map Stage3.pr_matchId (Stage3.data_participants stage3_run)
     = ["m0"; "m0"; "m1"; "m1"]
  /\ map Stage3.tr_matchId (Stage3.Match_Data_Teams_Table stage3_run)
     = ["m0"; "m0"]
  /\ map Stage3.pr_matchId (Stage3.Match_Data_Participants_Table stage3_run)
     = ["m0"; "m0"]
  /\ distinct_matchIds stored = ["m0"; "m1"]
  /\ fetched stage4_run = ["m0"]
  /\ map matchId (data_events stage4_run) = ["m0"; "m0"; "m0"]
  /\ Match_Timeline_Table stage4_run = [].
Proof. repeat split; vm_compute; reflexivity. Qed.

End Stage4Facts.

(** ** More on the majority vote *)

Module TierMore.
Import Tier TierSpec.

(** [max_from] returns the key of the first entry that reaches the
    largest count. *)
Lemma max_from_first_maximum (rest : freq) :
  forall (b : string * nat) (mid pre : freq),
    (forall x, In x pre -> (snd x < snd b)%nat) ->
    (forall x, In x mid -> (snd x <= snd b)%nat) ->
    exists d1 n d2,
      pre ++ b :: mid ++ rest = d1 ++ (max_from b rest, n) :: d2
      /\ (forall x, In x d1 -> (snd x < n)%nat)
      /\ (forall x, In x d2 -> (snd x <= n)%nat).
Proof.
  induction rest as [|[k n] r IH]; intros b mid pre Hpre Hmid.
  - exists pre, (snd b), mid. rewrite app_nil_r. cbn.
    destruct b as [kb nb]. cbn in *. auto.
  - cbn [max_from]. destruct (snd b <? n)%nat eqn:Hlt.
    + apply Nat.ltb_lt in Hlt.
      destruct (IH (k, n) [] (pre ++ b :: mid)) as (d1 & m & d2 & Heq & H1 & H2).
      * intros x Hx. cbn. apply in_app_or in Hx as [Hx | [<- | Hx]].
        -- specialize (Hpre x Hx). lia.
        -- exact Hlt.
        -- specialize (Hmid x Hx). lia.
      * intros x [].
      * exists d1, m, d2. split; [|auto].
        rewrite <- Heq. cbn. rewrite <- app_assoc. reflexivity.
    + apply Nat.ltb_ge in Hlt.
      destruct (IH b (mid ++ [(k, n)]) pre Hpre) as (d1 & m & d2 & Heq & H1 & H2).
      * intros x Hx. apply in_app_or in Hx as [Hx | [<- | []]]; [auto|exact Hlt].
      * exists d1, m, d2. split; [|auto].
        rewrite <- Heq. rewrite <- app_assoc. reflexivity.
Qed.

Lemma py_max_decomposition (d : freq) (k : string) :
  py_max d = Ok k ->
  exists d1 n d2,
    d = d1 ++ (k, n) :: d2
    /\ (forall x, In x d1 -> (snd x < n)%nat)
    /\ (forall x, In x d2 -> (snd x <= n)%nat).
Proof.
  intros Hk. destruct d as [|b rest]; [discriminate|].
  cbn in Hk. injection Hk as <-.
  destruct (max_from_first_maximum rest b [] []) as (d1 & n & d2 & Heq & H1 & H2);
    [intros x [] | intros x [] |].
  exists d1, n, d2. cbn in Heq. auto.
Qed.

(** X1.  [max(d, key=d.get)] fails exactly on the empty table; otherwise
    it returns the key of an entry with the largest count, and among the
    entries with that count the one that entered the table first: every
    entry before it counts strictly less. *)
Theorem py_max_first_of_the_largest (d : freq) :
  (py_max d = Raise ValueError <-> d = [])
  /\ forall k, py_max d = Ok k ->
       exists d1 n d2,
         d = d1 ++ (k, n) :: d2
         /\ (forall x, In x d1 -> (snd x < n)%nat)
         /\ (forall x, In x d2 -> (snd x <= n)%nat).
Proof.
  split.
  - destruct d; cbn; split; congruence.
  - apply py_max_decomposition.
Qed.

(** The theorem at a table with a tie between its first and third tier. *)
Lemma py_max_first_of_the_largest_witness :
  exists d1 n d2,
    [("SILVER", 2%nat); ("IRON", 1%nat); ("GOLD", 2%nat)]
    = d1 ++ ("SILVER", n) :: d2
    /\ (forall x, In x d1 -> (snd x < n)%nat)
    /\ (forall x, In x d2 -> (snd x <= n)%nat).
Proof.
  apply (proj2 (py_max_first_of_the_largest
                  [("SILVER", 2%nat); ("IRON", 1%nat); ("GOLD", 2%nat)])).
  reflexivity.
Defined.

(** *** The table counts occurrences *)

Lemma votes_for_incr (t k : string) (d : freq) :
  votes_for k (incr t d)
  = (votes_for k d + if bool_decide (t = k) then 1 else 0)%nat.
Proof.
  induction d as [|[k0 n0] rest IH]; cbn.
  - destruct (bool_decide (t = k)); lia.
  - destruct (bool_decide (k0 = t)) eqn:Ht.
    + apply bool_decide_eq_true in Ht. subst k0. cbn.
      destruct (bool_decide (t = k)); lia.
    + cbn. rewrite IH. destruct (bool_decide (k0 = k)); lia.
Qed.

Lemma incr_keys (t : string) (d : freq) (k : string) :
  In k (map fst (incr t d)) <-> k = t \/ In k (map fst d).
Proof.
  induction d as [|[k0 n0] rest IH]; cbn.
  - intuition.
  - destruct (bool_decide (k0 = t)) eqn:Ht; cbn.
    + apply bool_decide_eq_true in Ht. subst k0. intuition.
    + rewrite IH. intuition.
Qed.

Lemma incr_NoDup (t : string) (d : freq) :
  List.NoDup (map fst d) -> List.NoDup (map fst (incr t d)).
Proof.
  induction d as [|[k0 n0] rest IH]; cbn; intros Hd.
  - constructor; [intros [] | constructor].
  - inversion Hd as [|? ? Hnotin Hrest]; subst.
    destruct (bool_decide (k0 = t)) eqn:Ht; cbn.
    + now constructor.
    + apply bool_decide_eq_false in Ht. constructor; [|auto].
      rewrite incr_keys. intros [-> | Hin]; [congruence | contradiction].
Qed.

Lemma votes_for_absent (k : string) (d : freq) :
  ~ In k (map fst d) -> votes_for k d = 0%nat.
Proof.
  induction d as [|[k0 n0] rest IH]; cbn; intros Hk; [reflexivity|].
  rewrite bool_decide_eq_false_2 by tauto. apply IH. tauto.
Qed.

Lemma votes_for_entry (k : string) (n : nat) (d : freq) :
  List.NoDup (map fst d) -> In (k, n) d -> votes_for k d = n.
Proof.
  induction d as [|[k0 n0] rest IH]; cbn; intros Hd Hin; [contradiction|].
  inversion Hd as [|? ? Hnotin Hrest]; subst.
  destruct Hin as [[= -> ->] | Hin].
  - rewrite bool_decide_eq_true_2 by reflexivity.
    rewrite (votes_for_absent k rest Hnotin). lia.
  - rewrite bool_decide_eq_false_2.
    + now apply IH.
    + intros ->. apply Hnotin. apply (in_map fst) in Hin. exact Hin.
Qed.

Lemma count_from (votes : list string) (d : freq) (k : string) :
  votes_for k (fold_left (fun d s => incr s d) votes d)
  = (votes_for k d + occurrences k votes)%nat
  /\ (List.NoDup (map fst d) ->
      List.NoDup (map fst (fold_left (fun d s => incr s d) votes d)))
  /\ (In k (map fst (fold_left (fun d s => incr s d) votes d)) ->
      In k votes \/ In k (map fst d)).
Proof.
  revert d. induction votes as [|v rest IH]; intros d; cbn [fold_left].
  - split; [unfold occurrences; cbn; lia | auto].
  - destruct (IH (incr v d)) as (Hc & Hn & Hk). split; [|split].
    + rewrite Hc, votes_for_incr. unfold occurrences.
      destruct (decide (v = k)) as [->|Hne].
      * rewrite bool_decide_eq_true_2 by reflexivity.
        rewrite filter_cons_True by reflexivity. cbn [length]. lia.
      * rewrite bool_decide_eq_false_2 by exact Hne.
        rewrite filter_cons_False by exact Hne. lia.
    + intros Hd. apply Hn. now apply incr_NoDup.
    + intros Hin. apply Hk in Hin as [Hin | Hin]; [left; now right|].
      apply incr_keys in Hin as [-> | Hin]; [left; now left | now right].
Qed.

(** X2.  When every lookup answers, the function returns one of the tiers
    that were returned, and no tier was returned more often. *)
Theorem majority_is_most_frequent
        (api : string -> result (option string)) (player_puuids : list string)
        (tier : string) :
  (forall p, In p player_puuids -> exists t, api p = Ok t) ->
  _get_majority_tier api player_puuids = Ok tier ->
  In tier (successful_votes api player_puuids)
  /\ forall other,
       (occurrences other (successful_votes api player_puuids)
        <= occurrences tier (successful_votes api player_puuids))%nat.
Proof.
  intros Hall Hres. unfold _get_majority_tier in Hres.
  rewrite (TierFacts.tally_all_answer api player_puuids None [] Hall) in Hres.
  set (votes := successful_votes api player_puuids) in *.
  set (d := fold_left (fun d s => incr s d) votes []) in *.
  assert (Hcount : forall k, votes_for k d = occurrences k votes).
  { intros k. unfold d. now rewrite (proj1 (count_from votes [] k)). }
  assert (Hnodup : List.NoDup (map fst d)).
  { apply (proj1 (proj2 (count_from votes [] tier))). constructor. }
  destruct (py_max_decomposition d tier Hres) as (d1 & n & d2 & Heq & H1 & H2).
  assert (Hin : In (tier, n) d) by (rewrite Heq; apply in_or_app; right; now left).
  assert (Hn : votes_for tier d = n) by now apply votes_for_entry.
  assert (Hmax : forall k m, In (k, m) d -> (m <= n)%nat).
  { intros k m Hkm. rewrite Heq in Hkm.
    apply in_app_or in Hkm as [Hkm | [[= _ <-] | Hkm]].
    - specialize (H1 _ Hkm). cbn in H1. lia.
    - lia.
    - exact (H2 _ Hkm). }
  split.
  - destruct (proj2 (proj2 (count_from votes [] tier))) as [Hv | []]; [|exact Hv].
    apply (in_map fst) in Hin. exact Hin.
  - intros other. rewrite <- !Hcount, Hn.
    destruct (in_dec string_dec other (map fst d)) as [Hk | Hk].
    + apply in_map_iff in Hk as ([k m] & Hfst & Hkm). cbn in Hfst. subst k.
      rewrite (votes_for_entry other m d Hnodup Hkm). now apply (Hmax other m).
    + rewrite (votes_for_absent other d Hk). lia.
Qed.

(** The theorem at the example of the specification: three GOLD votes
    against two SILVER. *)
Lemma majority_is_most_frequent_witness :
  In "GOLD" (successful_votes (fun p => Ok (Some p))
                              ["GOLD"; "SILVER"; "GOLD"; "SILVER"; "GOLD"])
  /\ forall other,
       (occurrences other (successful_votes (fun p => Ok (Some p))
                             ["GOLD"; "SILVER"; "GOLD"; "SILVER"; "GOLD"])
        <= occurrences "GOLD" (successful_votes (fun p => Ok (Some p))
                                 ["GOLD"; "SILVER"; "GOLD"; "SILVER"; "GOLD"]))%nat.
Proof.
  apply (majority_is_most_frequent (fun p => Ok (Some p))
           ["GOLD"; "SILVER"; "GOLD"; "SILVER"; "GOLD"] "GOLD").
  - intros p _. now exists (Some p).
  - reflexivity.
Defined.

End TierMore.

(** ** More on Stage 2 *)

Module Stage2More.
Import Store Stage2.

Section Table.
Context {R K : Type} `{EqDecision K}.
Variable key : R -> K.
Variable fk_ok : R -> bool.

Lemma executemany_insert_keys (data : list R) (t t' : list R) :
  executemany (insert key fk_ok) data t = Ok t' ->
  (forall r, In r data -> has_key key (key r) t' = true)
  /\ (forall k, has_key key k t = true -> has_key key k t' = true).
Proof.
  revert t. induction data as [|r rest IH]; cbn; intros t Hrun.
  - injection Hrun as <-. split; [intros r []|auto].
  - unfold insert at 1 in Hrun.
    destruct (has_key key (key r) t) eqn:Hk; [discriminate|].
    destruct (fk_ok r); [|discriminate].
    destruct (IH _ Hrun) as [Hall Hmono]. split.
    + intros r' [<- | Hin]; [|now apply Hall].
      apply Hmono. rewrite StoreFacts.has_key_app.
      rewrite (bool_decide_eq_true_2 _ eq_refl). apply orb_true_r.
    + intros k Hin. apply Hmono. now rewrite StoreFacts.has_key_app, Hin.
Qed.

(** A batch that failed fails again however it is extended. *)
Lemma executemany_insert_stays_failed (data more : list R) (t : list R) (e : exn) :
  executemany (insert key fk_ok) data t = Raise e ->
  executemany (insert key fk_ok) (data ++ more) t = Raise e.
Proof.
  revert t. induction data as [|r rest IH]; cbn; intros t Hrun; [discriminate|].
  destruct (insert key fk_ok r t) as [t1|e1]; [now apply IH | exact Hrun].
Qed.

(** A batch that went through, if sent again, fails. *)
Lemma executemany_insert_twice (data : list R) (t t' : list R) :
  data <> [] ->
  executemany (insert key fk_ok) data t = Ok t' ->
  executemany (insert key fk_ok) data t' = Raise IntegrityError.
Proof.
  intros Hne Hrun. destruct data as [|r rest]; [congruence|].
  apply (StoreFacts.executemany_insert_conflict key fk_ok (r :: rest) t' r
           (in_eq r rest)).
  apply (proj1 (executemany_insert_keys _ _ _ Hrun)). apply in_eq.
Qed.

End Table.

Section Stage.
Variable api : string -> result (list string).
Variable batch_insert_limit : Z.
Variable Summoners_Table : list string.

Abbreviation run := (loop api batch_insert_limit Summoners_Table).
Abbreviation send := (executemany (insert fst (fk_ok Summoners_Table))).

(** One iteration, spelled out. *)
Lemma loop_cons (count : Z) (p : string) (rest : list string)
      (temp : option (list string)) (data : list match_ref) (s : state) :
  run count (p :: rest) temp data s
  = let s1 := match api p with
              | Ok _ => s
              | Raise _ => {| Match_ID_Table := Match_ID_Table s;
                              log := log s ++ [ApiFailed] |}
              end in
    let temp' := match api p with Ok ids => Some ids | Raise _ => temp end in
    match temp' with
    | None => (s1, Raise UnboundLocalError)
    | Some ids =>
        let data' := data ++ map (fun match_id => (match_id, p)) ids in
        match py_mod count batch_insert_limit with
        | Raise e => (s1, Raise e)
        | Ok r =>
            run (count + 1) rest temp' data'
                (if r =? 0
                 then fst (flush Summoners_Table count data' s1)
                 else s1)
        end
    end.
Proof.
  cbn [loop]. unfold bind, say, modify, ret, raise, flush.
  destruct (api p) as [ids|e]; [|destruct temp as [ids|]];
    cbv beta iota zeta; try reflexivity;
    (destruct (py_mod count batch_insert_limit) as [r|e']; [|reflexivity];
     destruct (r =? 0); [|reflexivity];
     destruct (transaction _ _ _) as [t' [u|[]]]; reflexivity).
Qed.

Lemma flush_table (count : Z) (data : list match_ref) (s : state) :
  Match_ID_Table (fst (flush Summoners_Table count data s))
  = match send data (Match_ID_Table s) with
    | Ok t' => t'
    | Raise _ => Match_ID_Table s
    end.
Proof.
  unfold flush, transaction.
  destruct (send data (Match_ID_Table s)) as [t'|[]]; reflexivity.
Qed.

(** Once the collected rows cannot be sent, the table stays as it is. *)
Lemma loop_stuck (puuid_list : list string) :
  forall count temp data s e,
    send data (Match_ID_Table s) = Raise e ->
    Match_ID_Table (fst (run count puuid_list temp data s)) = Match_ID_Table s.
Proof.
  induction puuid_list as [|p rest IH]; intros count temp data s e Hstuck;
    [reflexivity|].
  rewrite loop_cons. cbv zeta.
  set (s1 := match api p with Ok _ => s | Raise _ => _ end).
  assert (Hs1 : Match_ID_Table s1 = Match_ID_Table s) by (unfold s1; now destruct (api p)).
  destruct (match api p with Ok ids => Some ids | Raise _ => temp end) as [ids|];
    [|exact Hs1].
  destruct (py_mod count batch_insert_limit) as [r|e']; [|exact Hs1].
  match goal with
  | |- context [run _ rest _ ?d _] => set (data' := d)
  end.
  assert (Hstuck' : send data' (Match_ID_Table s1) = Raise e).
  { rewrite Hs1. now apply executemany_insert_stays_failed. }
  destruct (r =? 0).
  - rewrite (IH _ _ _ _ e).
    + rewrite flush_table, Hstuck'. exact Hs1.
    + rewrite flush_table, Hstuck'. exact Hstuck'.
  - rewrite (IH _ _ _ _ e Hstuck'). exact Hs1.
Qed.

(** The table the loop leaves is the one the first flush with rows in
    it leaves. *)
Lemma loop_first_batch (puuid_list : list string) :
  forall count temp data s,
    Match_ID_Table (fst (run count puuid_list temp data s))
    = match Stage2Spec.first_batch api batch_insert_limit count puuid_list
                                   temp data with
      | None => Match_ID_Table s
      | Some sent =>
          fst (transaction (insert fst (fk_ok Summoners_Table)) sent
                           (Match_ID_Table s))
      end.
Proof.
  induction puuid_list as [|p rest IH]; intros count temp data s;
    [reflexivity|].
  rewrite loop_cons. cbv zeta. cbn [Stage2Spec.first_batch].
  set (s1 := match api p with Ok _ => s | Raise _ => _ end).
  assert (Hs1 : Match_ID_Table s1 = Match_ID_Table s)
    by (unfold s1; now destruct (api p)).
  destruct (match api p with Ok ids => Some ids | Raise _ => temp end) as [ids|];
    [|exact Hs1].
  destruct (py_mod count batch_insert_limit) as [r|e']; [|exact Hs1].
  match goal with
  | |- context [run _ rest _ ?d _] => set (data' := d)
  end.
  destruct data' as [|r0 d0] eqn:Hdata.
  - rewrite IH. destruct (r =? 0); [|now rewrite Hs1].
    rewrite flush_table. cbn [executemany]. now rewrite Hs1.
  - destruct (r =? 0); [|now rewrite IH, Hs1].
    unfold transaction. rewrite <- Hs1.
    destruct (send (r0 :: d0) (Match_ID_Table s1)) as [t1|e] eqn:Hsend;
      cbn [fst].
    + rewrite (loop_stuck rest _ _ _ _ IntegrityError).
      * now rewrite flush_table, Hsend.
      * rewrite flush_table, Hsend.
        eapply executemany_insert_twice; [|exact Hsend]. discriminate.
    + rewrite (loop_stuck rest _ _ _ _ e).
      * now rewrite flush_table, Hsend.
      * now rewrite flush_table, Hsend.
Qed.

(** X3.  Whatever the players, the answers of the API and the flush
    period are, the whole stage stores one batch at most, and it is the
    first: the table it leaves is the table it found, or what one
    [executemany] of the rows collected up to the first flush that has
    any makes of it.  ([data] is never cleared, so every later flush
    sends these rows again, with what was collected since, and fails;
    what was collected since is never stored.) *)
Theorem stage2_stores_one_batch_at_most (s : state) :
  Match_ID_Table
    (fst (_collect_match_id_by_puuid api batch_insert_limit Summoners_Table s))
  = match Stage2Spec.first_batch api batch_insert_limit 0 Summoners_Table
                                 None [] with
    | None => Match_ID_Table s
    | Some sent =>
        fst (transaction (insert fst (fk_ok Summoners_Table)) sent
                         (Match_ID_Table s))
    end.
Proof. apply loop_first_batch. Qed.

(** X4.  If the first stored player has at least one match and the flush
    period is not 0, the table the stage leaves is the one its first
    flush leaves: the first player's matches if that insert goes
    through, nothing otherwise.  No match of any later player is ever
    stored. *)
Theorem stage2_stores_first_player_only
        (p0 : string) (rest : list string) (ids0 : list string) (s : state) :
  Summoners_Table = p0 :: rest ->
  api p0 = Ok ids0 -> ids0 <> [] -> batch_insert_limit <> 0 ->
  Match_ID_Table (fst (_collect_match_id_by_puuid api batch_insert_limit
                                                  Summoners_Table s))
  = fst (transaction (insert fst (fk_ok Summoners_Table))
                     (map (fun match_id => (match_id, p0)) ids0)
                     (Match_ID_Table s)).
Proof.
  intros Hst Hapi Hne Hlim. unfold _collect_match_id_by_puuid.
  rewrite Hst at 2. rewrite loop_cons. cbv zeta. rewrite Hapi.
  unfold py_mod. destruct (batch_insert_limit =? 0) eqn:Hz; [lia|].
  rewrite Z.mod_0_l by exact Hlim. change (0 =? 0) with true. cbv iota.
  cbn [app]. unfold transaction.
  match goal with
  | |- context [run _ rest _ ?d _] => set (rows := d)
  end.
  assert (Hrows : rows <> []).
  { unfold rows. destruct ids0; [congruence | discriminate]. }
  destruct (send rows (Match_ID_Table s)) as [t1|e] eqn:Hsend; cbn [fst].
  - rewrite (loop_stuck rest _ _ _ _ IntegrityError).
    + now rewrite flush_table, Hsend.
    + rewrite flush_table, Hsend.
      eapply executemany_insert_twice; [exact Hrows | exact Hsend].
  - rewrite (loop_stuck rest _ _ _ _ e).
    + now rewrite flush_table, Hsend.
    + now rewrite flush_table, Hsend.
Qed.

(** X5.  The two ways the stage raises before it has written anything:
    the fetch for the first player fails, and [temp_match_ids] is read
    unbound; or the flush period is 0, and [count % 0] is evaluated
    right after the first fetch. *)
Theorem stage2_early_errors
        (p0 : string) (rest : list string) (s : state) :
  Summoners_Table = p0 :: rest ->
  (forall e, api p0 = Raise e ->
     _collect_match_id_by_puuid api batch_insert_limit Summoners_Table s
     = ({| Match_ID_Table := Match_ID_Table s; log := log s ++ [ApiFailed] |},
        Raise UnboundLocalError))
  /\ (forall ids, api p0 = Ok ids -> batch_insert_limit = 0 ->
        _collect_match_id_by_puuid api batch_insert_limit Summoners_Table s
        = (s, Raise ZeroDivisionError)).
Proof.
  intros Hst. unfold _collect_match_id_by_puuid. split.
  - intros e Hapi. rewrite Hst at 2. rewrite loop_cons. cbv zeta.
    now rewrite Hapi.
  - intros ids Hapi Hlim. rewrite Hst at 2. rewrite loop_cons. cbv zeta.
    rewrite Hapi. unfold py_mod. now rewrite Hlim.
Qed.

End Stage.

(** The theorem for two players with one match each. *)
Lemma stage2_stores_first_player_only_witness :
  Match_ID_Table (fst (_collect_match_id_by_puuid Fixtures.two_players (-1)
                                                  ["p1"; "p2"] Fixtures.empty))
  = fst (transaction (insert fst (fk_ok ["p1"; "p2"])) [("m1", "p1")] []).
Proof.
  apply (stage2_stores_first_player_only Fixtures.two_players (-1) ["p1"; "p2"]
           "p1" ["p2"] ["m1"] Fixtures.empty eq_refl eq_refl);
    [discriminate | lia].
Defined.

(** The theorem for a first player whose fetch fails, and for a flush
    period of 0. *)
Lemma stage2_early_errors_witness :
  _collect_match_id_by_puuid (fun _ => Raise ApiError) 1 ["p1"; "p2"] Fixtures.empty
  = ({| Match_ID_Table := []; log := [ApiFailed] |}, Raise UnboundLocalError)
  /\ _collect_match_id_by_puuid Fixtures.two_players 0 ["p1"; "p2"] Fixtures.empty
     = (Fixtures.empty, Raise ZeroDivisionError).
Proof.
  split.
  - apply (proj1 (stage2_early_errors (fun _ => Raise ApiError) 1 ["p1"; "p2"]
                    "p1" ["p2"] Fixtures.empty eq_refl) ApiError eq_refl).
  - apply (proj2 (stage2_early_errors Fixtures.two_players 0 ["p1"; "p2"]
                    "p1" ["p2"] Fixtures.empty eq_refl) ["m1"] eq_refl eq_refl).
Defined.

End Stage2More.

(** ** More on Stage 4 *)

Module Stage4More.
Import Stage4 Stage4Rows.

Section Event.
Context {F : Type}.
Variable eventTypesToConsider : list string.
Variable table : list (Stage3.participant_row F).

(** The lookup, as a function of the table. *)
Lemma lookup_resolves (puuid : pyval) (id : string) (s : state) :
  _get_teamId_teamPos table puuid id s
  = ({| vars := vars s; data_events := data_events s;
        Match_Timeline_Table := Match_Timeline_Table s;
        log := log s ++ lookup_log table puuid id |},
     Ok (resolve table puuid id)).
Proof.
  unfold _get_teamId_teamPos, resolve, lookup_log, selected.
  destruct (bool_decide (puuid = PStr "Minion")).
  - rewrite app_nil_r. now destruct s.
  - unfold bind, say, modify, ret. cbv beta iota.
    destruct (filter _ table) as [|r0 rest]; cbn.
    + now rewrite <- app_assoc.
    + reflexivity.
Qed.

(** A kill event of the allow-list, as a function of the answer. *)
Lemma kill_event_outcome (id : string) (pids : gmap Z string) (ev : event)
      (s : state) :
  e_type ev ∈ eventTypesToConsider -> e_type ev ∈ kill_types ->
  event_body eventTypesToConsider table id pids ev s
  = match resolve table (actor pids ev) id with
    | Some (team_id, team_position) =>
        ({| vars := locals_of (kill_row id pids ev team_id team_position);
            data_events := data_events s ++
                           [kill_row id pids ev team_id team_position];
            Match_Timeline_Table := Match_Timeline_Table s;
            log := log s ++ lookup_log table (actor pids ev) id |}, Ok Next)
    | None =>
        ({| vars := {| in_game_id_e := Some (killerId ev);
                       puuid_e := Some (actor pids ev);
                       position_x_e := Some (position_x ev);
                       position_y_e := Some (position_y ev);
                       timestamp_e := Some (e_timestamp ev);
                       team_position_e := team_position_e (vars s);
                       team_id_e := team_id_e (vars s);
                       event_type_e := event_type_e (vars s) |};
            data_events := data_events s;
            Match_Timeline_Table := Match_Timeline_Table s;
            log := log s ++ lookup_log table (actor pids ev) id
                         ++ [Excluding (actor pids ev) (e_type ev) id] |},
         Ok Break)
    end.
Proof.
  intros Hin Hk. unfold event_body.
  rewrite (bool_decide_eq_true_2 _ Hin), (bool_decide_eq_true_2 _ Hk).
  apply Stage4Facts.kill_types_cases in Hk.
  unfold kill_block. cbv zeta. fold (actor pids ev).
  unfold bind at 1. unfold bind at 1. unfold assign at 1, modify at 1.
  unfold bind at 1. rewrite lookup_resolves.
  cbn [vars data_events Match_Timeline_Table log].
  assert (Hnone : resolve table (actor pids ev) id = None ->
                  actor pids ev <> PStr "Minion").
  { unfold resolve. intros Hr Hm.
    rewrite (bool_decide_eq_true_2 _ Hm) in Hr. discriminate. }
  destruct (resolve table (actor pids ev) id) as [[team_id team_position]|].
  - unfold kill_row, locals_of.
    destruct ev as [ty kid px py ts ktid mty tid bty]. cbn in Hk |- *.
    destruct Hk as [-> | [-> | ->]]; reflexivity.
  - rewrite (bool_decide_eq_true_2 _ (Hnone eq_refl)).
    unfold bind, say, modify, ret. cbn. now rewrite <- app_assoc.
Qed.

(** A stored participant is resolved to its stored team and position,
    with one query. *)
Lemma resolve_stored (r : Stage3.participant_row F) :
  keyed table -> In r table -> Stage3.pr_puuId r <> "Minion" ->
  resolve table (PStr (Stage3.pr_puuId r)) (Stage3.pr_matchId r)
  = Some (PInt (Stage3.pr_teamId r), PStr (Stage3.pr_teamPosition r))
  /\ lookup_log table (PStr (Stage3.pr_puuId r)) (Stage3.pr_matchId r)
     = [Query (Stage3.pr_puuId r) (Stage3.pr_matchId r)].
Proof.
  intros Hkey Hin Hm. unfold resolve, lookup_log.
  rewrite bool_decide_eq_false_2 by congruence.
  assert (Hsel : r ∈ selected table (PStr (Stage3.pr_puuId r)) (Stage3.pr_matchId r)).
  { unfold selected. apply list_elem_of_filter. split; [now split|].
    now apply list_elem_of_In. }
  destruct (selected table (PStr (Stage3.pr_puuId r)) (Stage3.pr_matchId r))
    as [|h rest] eqn:Hs; [now apply elem_of_nil in Hsel|].
  assert (Hh : h ∈ selected table (PStr (Stage3.pr_puuId r)) (Stage3.pr_matchId r))
    by (rewrite Hs; left).
  unfold selected in Hh. apply list_elem_of_filter in Hh as [[Hp Hmid] Hht].
  apply list_elem_of_In in Hht. cbn in Hp.
  assert (h = r) by now apply Hkey. subst h. now split.
Qed.

(** X6.  An elite-monster kill of the allow-list is dropped, ending the
    event loop of its frame, when its killer has no stored row; otherwise
    it yields one row whose [teamId] and type are the [killerTeamId] and
    [monsterType] of the payload, whatever team the store holds for the
    killer. *)
Theorem monster_kill_attributed_from_payload
        (id : string) (pids : gmap Z string) (ev : event) (s : state) :
  e_type ev = "ELITE_MONSTER_KILL" ->
  e_type ev ∈ eventTypesToConsider ->
  match resolve table (actor pids ev) id with
  | None =>
      snd (event_body eventTypesToConsider table id pids ev s) = Ok Break
      /\ data_events (fst (event_body eventTypesToConsider table id pids ev s))
         = data_events s
  | Some (team_id, team_position) =>
      snd (event_body eventTypesToConsider table id pids ev s) = Ok Next
      /\ data_events (fst (event_body eventTypesToConsider table id pids ev s))
         = data_events s ++
           [{| matchId := id; puuId := actor pids ev;
               teamId := killerTeamId ev; inGameId := killerId ev;
               teamPosition := team_position;
               x := position_x ev; y := position_y ev;
               timestamp := e_timestamp ev;
               event_name := PStr "ELITE_MONSTER_KILL";
               event_type := monsterType ev |}]
  end.
Proof.
  intros Hty Hin.
  assert (Hk : e_type ev ∈ kill_types).
  { rewrite Hty. unfold kill_types. apply list_elem_of_here. }
  rewrite (kill_event_outcome id pids ev s Hin Hk).
  destruct (resolve table (actor pids ev) id) as [[team_id team_position]|].
  - split; [reflexivity|]. cbn [fst data_events]. unfold kill_row.
    rewrite Hty. reflexivity.
  - now split.
Qed.

(** X7.  A champion kill by a player who has a row in the store for the
    match yields one row that carries this player's stored team and
    position, and costs one query. *)
Theorem champion_kill_resolved_from_store
        (id : string) (pids : gmap Z string) (ev : event) (s : state)
        (k : Z) (r : Stage3.participant_row F) :
  e_type ev = "CHAMPION_KILL" ->
  e_type ev ∈ eventTypesToConsider ->
  killerId ev = PInt k -> k <> 0 ->
  pids !! k = Some (Stage3.pr_puuId r) ->
  keyed table -> In r table ->
  Stage3.pr_puuId r <> "Minion" -> Stage3.pr_matchId r = id ->
  exists s',
    event_body eventTypesToConsider table id pids ev s = (s', Ok Next)
    /\ data_events s'
       = data_events s ++
         [{| matchId := id; puuId := PStr (Stage3.pr_puuId r);
             teamId := PInt (Stage3.pr_teamId r); inGameId := PInt k;
             teamPosition := PStr (Stage3.pr_teamPosition r);
             x := position_x ev; y := position_y ev;
             timestamp := e_timestamp ev;
             event_name := PStr "CHAMPION_KILL"; event_type := PStr "KILL" |}]
    /\ queries s' = queries s ++ [(Stage3.pr_puuId r, id)].
Proof.
  intros Hty Hin Hkid Hk0 Hpid Hkey Hr Hm Hid.
  assert (Hk : e_type ev ∈ kill_types).
  { rewrite Hty. unfold kill_types. apply list_elem_of_further, list_elem_of_here. }
  assert (Hactor : actor pids ev = PStr (Stage3.pr_puuId r)).
  { unfold actor. rewrite Hkid.
    rewrite bool_decide_eq_false_2 by congruence. cbn. now rewrite Hpid. }
  destruct (resolve_stored r Hkey Hr Hm) as [Hres Hlog].
  rewrite Hid in Hres, Hlog.
  rewrite (kill_event_outcome id pids ev s Hin Hk), Hactor, Hres, Hlog.
  eexists. split; [reflexivity|]. cbn [data_events log]. split.
  - unfold kill_row. rewrite Hty, Hactor, Hkid. reflexivity.
  - unfold queries. cbn [log]. rewrite flat_map_app. reflexivity.
Qed.

(** X8.  The position sample of a participant who has a row in the store
    for the match yields one row named POSITION / PARTICIPANT_FRAME that
    carries the frame's timestamp, the sample's coordinates, the key of
    the sample as [inGameId], and the stored team and position. *)
Theorem sample_resolved_from_store
        (id : string) (pids : gmap Z string) (general_timestamp : pyval)
        (key : string) (pf : participantFrame) (s : state)
        (k : Z) (r : Stage3.participant_row F) :
  py_int key = Ok k ->
  pids !! k = Some (Stage3.pr_puuId r) ->
  keyed table -> In r table ->
  Stage3.pr_puuId r <> "Minion" -> Stage3.pr_matchId r = id ->
  exists s',
    sample_body table id pids general_timestamp (key, pf) s = (s', Ok Next)
    /\ data_events s'
       = data_events s ++
         [{| matchId := id; puuId := PStr (Stage3.pr_puuId r);
             teamId := PInt (Stage3.pr_teamId r); inGameId := PStr key;
             teamPosition := PStr (Stage3.pr_teamPosition r);
             x := pf_x pf; y := pf_y pf; timestamp := general_timestamp;
             event_name := PStr "POSITION";
             event_type := PStr "PARTICIPANT_FRAME" |}]
    /\ queries s' = queries s ++ [(Stage3.pr_puuId r, id)].
Proof.
  intros Hint Hpid Hkey Hr Hm Hid.
  destruct (resolve_stored r Hkey Hr Hm) as [Hres Hlog].
  rewrite Hid in Hres, Hlog.
  unfold sample_body. cbv zeta. cbn [fst snd].
  unfold bind at 1. rewrite Hint. cbn [dict_get]. rewrite Hpid.
  unfold bind at 1. rewrite lookup_resolves, Hres, Hlog.
  eexists. split; [reflexivity|]. cbn [data_events log]. split; [reflexivity|].
  unfold queries. cbn [log]. rewrite flat_map_app. reflexivity.
Qed.

(** X9.  An event of the allow-list that is not one of the three kill
    events has no attributes of its own.  As the first event after the
    locals were created it raises [UnboundLocalError]; right after a
    kill event that was emitted it yields that event's row again under
    its own name, with the same match, player and timestamp. *)
Theorem other_event_repeats_last_kill
        (id : string) (pids : gmap Z string) (ev1 ev2 : event) (s s1 : state) :
  e_type ev2 ∈ eventTypesToConsider -> ~ e_type ev2 ∈ kill_types ->
  (vars s = unbound ->
   event_body eventTypesToConsider table id pids ev2 s
   = (s, Raise UnboundLocalError))
  /\ (e_type ev1 ∈ eventTypesToConsider -> e_type ev1 ∈ kill_types ->
      event_body eventTypesToConsider table id pids ev1 s = (s1, Ok Next) ->
      exists r,
        data_events s1 = data_events s ++ [r]
        /\ event_body eventTypesToConsider table id pids ev2 s1
           = ({| vars := vars s1;
                 data_events := data_events s1 ++ [renamed (e_type ev2) r];
                 Match_Timeline_Table := Match_Timeline_Table s1;
                 log := log s1 |}, Ok Next)).
Proof.
  intros Hin2 Hk2.
  assert (Hbody : forall s0,
             event_body eventTypesToConsider table id pids ev2 s0
             = (r <- frame_event id ev2 ;; append r ;;; ret Next) s0).
  { intros s0. unfold event_body.
    rewrite (bool_decide_eq_true_2 _ Hin2), (bool_decide_eq_false_2 _ Hk2).
    reflexivity. }
  split.
  - intros Hu. rewrite Hbody. unfold bind, frame_event, bind, read.
    rewrite Hu. reflexivity.
  - intros Hin1 Hk1 Hrun.
    rewrite (kill_event_outcome id pids ev1 s Hin1 Hk1) in Hrun.
    destruct (resolve table (actor pids ev1) id) as [[team_id team_position]|];
      [|discriminate].
    injection Hrun as <-.
    exists (kill_row id pids ev1 team_id team_position).
    split; [reflexivity|]. rewrite Hbody. reflexivity.
Qed.

(** X10.  A kill event without [killerId] is looked up under the name
    ["None"]: with no such row in the store it is dropped like any
    unresolved event, ending the event loop of its frame. *)
Theorem missing_killer_is_looked_up_as_None
        (id : string) (pids : gmap Z string) (ev : event) (s : state) :
  e_type ev ∈ eventTypesToConsider -> e_type ev ∈ kill_types ->
  killerId ev = PNone ->
  selected table PNone id = [] ->
  exists s',
    event_body eventTypesToConsider table id pids ev s = (s', Ok Break)
    /\ data_events s' = data_events s
    /\ log s' = log s ++ [Query "None" id; NoData "None" id;
                           Excluding PNone (e_type ev) id].
Proof.
  intros Hin Hk Hkid Hsel.
  assert (Hactor : actor pids ev = PNone).
  { unfold actor. rewrite Hkid. reflexivity. }
  rewrite (kill_event_outcome id pids ev s Hin Hk), Hactor.
  unfold resolve, lookup_log. rewrite Hsel.
  rewrite bool_decide_eq_false_2 by discriminate.
  eexists. split; [reflexivity|]. split; reflexivity.
Qed.

End Event.

(** *** The identifier map *)

Lemma find_app {A} (f : A -> bool) (l1 l2 : list A) :
  find f (l1 ++ l2) = match find f l1 with Some a => Some a | None => find f l2 end.
Proof.
  induction l1 as [|a l1 IH]; cbn; [reflexivity|]. now destruct (f a).
Qed.

Lemma fold_insert_lookup (ps : list tl_participant) (k : Z) :
  forall d : gmap Z string,
    fold_left (fun d p => <[participantId p := tl_puuid p]> d) ps d !! k
    = match last_with_id k ps with
      | Some p => Some (tl_puuid p)
      | None => d !! k
      end.
Proof.
  unfold last_with_id.
  induction ps as [|p rest IH]; intros d; cbn [fold_left rev]; [reflexivity|].
  rewrite IH, find_app. cbn [find].
  destruct (find _ (rev rest)) as [q|]; [reflexivity|].
  destruct (decide (participantId p = k)) as [Heq | Hne].
  - rewrite (bool_decide_eq_true_2 _ Heq). rewrite <- Heq. apply lookup_insert_eq.
  - rewrite (bool_decide_eq_false_2 _ Hne). now apply lookup_insert_ne.
Qed.

(** X11.  The identifier map of a match sends an in-game id to the puuid
    of the last participant of the payload that carries it; an id no
    participant carries is absent, except 0, which stands for
    ["Minion"] as long as no participant has in-game id 0. *)
Theorem participant_ids_lookup (ps : list tl_participant) (k : Z) :
  build_participant_ids ps !! k
  = match last_with_id k ps with
    | Some p => Some (tl_puuid p)
    | None => if bool_decide (k = 0) then Some "Minion" else None
    end.
Proof.
  unfold build_participant_ids. rewrite fold_insert_lookup.
  destruct (last_with_id k ps); [reflexivity|].
  destruct (decide (k = 0)) as [-> | Hne].
  - rewrite bool_decide_eq_true_2 by reflexivity. apply lookup_insert_eq.
  - rewrite bool_decide_eq_false_2 by exact Hne.
    rewrite lookup_insert_ne by congruence. apply lookup_empty.
Qed.

(** *** The order SQLite reads the stored matches in *)

Section Order.
Context {F : Type}.

Abbreviation row := (Stage3.participant_row F).
Abbreviation le := (fun r1 r2 : row => key_le r1 r2 = true).

Lemma compare_lt_trans (a b c : string) :
  String.compare a b = Lt -> String.compare b c = Lt -> String.compare a c = Lt.
Proof.
  intros Hab Hbc. apply OrderedTypeEx.String_as_OT.cmp_lt.
  apply OrderedTypeEx.String_as_OT.cmp_lt in Hab, Hbc.
  exact (OrderedTypeEx.String_as_OT.lt_trans _ _ _ Hab Hbc).
Qed.

Lemma compare_gt_lt (a b : string) :
  String.compare a b = Gt -> String.compare b a = Lt.
Proof.
  intros Hab. rewrite String.compare_antisym, Hab. reflexivity.
Qed.

Lemma leb_trans (a b c : string) :
  String.leb a b = true -> String.leb b c = true -> String.leb a c = true.
Proof.
  unfold String.leb.
  destruct (String.compare a b) eqn:Hab; [| |discriminate];
    destruct (String.compare b c) eqn:Hbc; try discriminate; intros _ _.
  - apply String.compare_eq_iff in Hab, Hbc. subst.
    assert (Hcc : String.compare c c = Eq)
      by exact (proj2 (OrderedTypeEx.String_as_OT.cmp_eq c c) eq_refl).
    now rewrite Hcc.
  - apply String.compare_eq_iff in Hab. subst. now rewrite Hbc.
  - apply String.compare_eq_iff in Hbc. subst. now rewrite Hab.
  - now rewrite (compare_lt_trans a b c Hab Hbc).
Qed.

Lemma key_le_total (r1 r2 : row) : le r1 r2 \/ le r2 r1.
Proof.
  unfold key_le.
  rewrite (String.compare_antisym (Stage3.pr_puuId r1) (Stage3.pr_puuId r2)).
  destruct (String.compare (Stage3.pr_puuId r2) (Stage3.pr_puuId r1)) eqn:Hc;
    cbn; [|now right|now left].
  apply String.leb_total.
Qed.

Lemma key_le_trans (r1 r2 r3 : row) : le r1 r2 -> le r2 r3 -> le r1 r3.
Proof.
  unfold key_le.
  destruct (String.compare (Stage3.pr_puuId r1) (Stage3.pr_puuId r2)) eqn:H12;
    [| |discriminate];
    destruct (String.compare (Stage3.pr_puuId r2) (Stage3.pr_puuId r3)) eqn:H23;
    try discriminate.
  - apply String.compare_eq_iff in H12. rewrite H12, H23. apply leb_trans.
  - apply String.compare_eq_iff in H12. rewrite H12, H23. auto.
  - apply String.compare_eq_iff in H23. rewrite <- H23, H12. auto.
  - rewrite (compare_lt_trans _ _ _ H12 H23). auto.
Qed.

(** Two rows that are each below the other have the same key. *)
Lemma key_le_antisym (r1 r2 : row) :
  le r1 r2 -> le r2 r1 ->
  Stage3.pr_puuId r1 = Stage3.pr_puuId r2
  /\ Stage3.pr_matchId r1 = Stage3.pr_matchId r2.
Proof.
  unfold key_le.
  rewrite (String.compare_antisym (Stage3.pr_puuId r2) (Stage3.pr_puuId r1)).
  destruct (String.compare (Stage3.pr_puuId r1) (Stage3.pr_puuId r2)) eqn:Hc;
    cbn; try discriminate.
  intros H12 H21. split; [now apply String.compare_eq_iff|].
  now apply String.leb_antisym.
Qed.

Lemma index_insert_elem (r r' : row) (index : list row) :
  In r' (index_insert r index) <-> r' = r \/ In r' index.
Proof.
  induction index as [|r0 rest IH]; cbn; [intuition|].
  destruct (key_le r r0); cbn; [intuition|]. rewrite IH. intuition.
Qed.

Lemma index_insert_sorted (r : row) (index : list row) :
  StronglySorted le index -> StronglySorted le (index_insert r index).
Proof.
  induction 1 as [|r0 rest Hsorted IH Hall]; cbn.
  - constructor; constructor.
  - destruct (key_le r r0) eqn:Hle.
    + constructor; [now constructor|]. constructor; [exact Hle|].
      eapply List.Forall_impl; [|exact Hall].
      intros a Ha. now apply (key_le_trans r r0 a).
    + constructor; [exact IH|].
      apply List.Forall_forall. intros a Ha. apply index_insert_elem in Ha.
      destruct Ha as [-> | Ha].
      * destruct (key_le_total r0 r) as [H | H]; [exact H|congruence].
      * rewrite List.Forall_forall in Hall. now apply Hall.
Qed.

Lemma index_order_elem (r : row) (table : list row) :
  In r (index_order table) <-> In r table.
Proof.
  induction table as [|r0 rest IH]; cbn; [reflexivity|].
  rewrite index_insert_elem, IH. intuition.
Qed.

Lemma index_order_sorted (table : list row) :
  StronglySorted le (index_order table).
Proof.
  induction table as [|r0 rest IH]; cbn; [constructor|].
  now apply index_insert_sorted.
Qed.

(** The query returns first the match of the least key. *)
Lemma least_key_first (table : list row) (r : row) :
  In r table -> (forall r', In r' table -> le r r') ->
  exists rest, distinct_matchIds table = Stage3.pr_matchId r :: rest.
Proof.
  intros Hin Hleast. unfold distinct_matchIds.
  pose proof (index_order_sorted table) as Hsorted.
  destruct (index_order table) as [|r0 index] eqn:Hindex.
  - apply index_order_elem in Hin. rewrite Hindex in Hin. contradiction.
  - cbn [map first_occurrences]. eexists.
    assert (Hr0 : In r0 table).
    { apply index_order_elem. rewrite Hindex. now left. }
    assert (Hle : le r0 r).
    { apply index_order_elem in Hin. rewrite Hindex in Hin.
      destruct Hin as [-> | Hin].
      - destruct (key_le_total r r) as [H | H]; exact H.
      - apply StronglySorted_inv in Hsorted. destruct Hsorted as [_ Hall].
        rewrite List.Forall_forall in Hall. now apply Hall. }
    destruct (key_le_antisym r r0 (Hleast r0 Hr0) Hle) as [_ ->]. reflexivity.
Qed.

Lemma no_row_no_match (table : list row) :
  distinct_matchIds table = [] <-> table = [].
Proof.
  unfold distinct_matchIds. split; [|intros ->; reflexivity].
  destruct table as [|r rest]; [reflexivity|]. intros Hnil.
  assert (Hin : In r (index_order (r :: rest))).
  { apply index_order_elem. now left. }
  destruct (index_order (r :: rest)); [contradiction|discriminate].
Qed.

End Order.

Section Matches.
Context {F : Type}.
Variable api : string -> result timeline.
Variable eventTypesToConsider : list string.
Variable batch_insert_limit : Z.
Variable table : list (Stage3.participant_row F).
Variable Match_ID_Table : list string.

(** X12.  With no participant stored the stage does nothing at all; and
    when the timeline of the match the query returns first cannot be
    fetched, the stage raises the error of the API itself: nothing
    catches it, and no other match is tried.  The match that comes
    first is the one of the stored row with the least primary key,
    [puuId] before [matchId], whatever the order the rows were stored
    in. *)
Theorem stage4_fetch_failure_propagates :
  (distinct_matchIds table = [] ->
   _collect_match_timeline_by_matchId api eventTypesToConsider
     batch_insert_limit table Match_ID_Table initial = (initial, Ok tt))
  /\ (forall id rest e,
        distinct_matchIds table = id :: rest -> api id = Raise e ->
        _collect_match_timeline_by_matchId api eventTypesToConsider
          batch_insert_limit table Match_ID_Table initial
        = ({| vars := unbound; data_events := [];
              Match_Timeline_Table := []; log := [TimelineFetched id] |},
           Raise e))
  /\ (forall r e,
        In r table ->
        (forall r', In r' table -> key_le r r' = true) ->
        api (Stage3.pr_matchId r) = Raise e ->
        _collect_match_timeline_by_matchId api eventTypesToConsider
          batch_insert_limit table Match_ID_Table initial
        = ({| vars := unbound; data_events := [];
              Match_Timeline_Table := [];
              log := [TimelineFetched (Stage3.pr_matchId r)] |},
           Raise e)).
Proof.
  assert (Hfirst : forall id rest e,
             distinct_matchIds table = id :: rest -> api id = Raise e ->
             _collect_match_timeline_by_matchId api eventTypesToConsider
               batch_insert_limit table Match_ID_Table initial
             = ({| vars := unbound; data_events := [];
                   Match_Timeline_Table := []; log := [TimelineFetched id] |},
                Raise e)).
  { unfold _collect_match_timeline_by_matchId. intros id rest e -> Hapi.
    cbn [loop]. unfold bind, say, modify. cbv beta iota. now rewrite Hapi. }
  split; [|split; [exact Hfirst|]].
  - unfold _collect_match_timeline_by_matchId. intros ->. reflexivity.
  - intros r e Hin Hleast Hapi.
    destruct (least_key_first table r Hin Hleast) as [rest Hhead].
    exact (Hfirst _ rest e Hhead Hapi).
Qed.

End Matches.

End Stage4More.

(** ** More on Stage 3 *)

Module Stage3More.
Import Stage3 Stage3Rows.

Section Table.
Context {R K : Type} `{EqDecision K}.
Variable key : R -> K.
Variable fk_ok : R -> bool.

(** With the foreign keys in place [INSERT OR IGNORE] does not raise. *)
Lemma executemany_or_ignore_ok (data t : list R) :
  (forall r, In r data -> fk_ok r = true) ->
  exists t', Store.executemany (Store.insert_or_ignore key fk_ok) data t = Ok t'.
Proof.
  revert t. induction data as [|r rest IH]; intros t Hfk; cbn; [now eexists|].
  unfold Store.insert_or_ignore at 1.
  destruct (Store.has_key key (key r) t).
  - apply IH. intros r' Hin. apply Hfk. now right.
  - rewrite (Hfk r (or_introl eq_refl)). apply IH.
    intros r' Hin. apply Hfk. now right.
Qed.

(** Fresh rows with distinct keys are all stored, in order. *)
Lemma executemany_or_ignore_fresh (data t : list R) :
  (forall r, In r data -> fk_ok r = true) ->
  (forall r, In r data -> Store.has_key key (key r) t = false) ->
  List.NoDup (map key data) ->
  Store.executemany (Store.insert_or_ignore key fk_ok) data t = Ok (t ++ data).
Proof.
  revert t. induction data as [|r rest IH]; intros t Hfk Hfresh Hnd; cbn.
  - now rewrite app_nil_r.
  - unfold Store.insert_or_ignore at 1.
    rewrite (Hfresh r (or_introl eq_refl)), (Hfk r (or_introl eq_refl)).
    inversion Hnd as [|? ? Hnotin Hrest]; subst.
    rewrite IH.
    + now rewrite <- app_assoc.
    + intros r' Hin. apply Hfk. now right.
    + intros r' Hin. rewrite StoreFacts.has_key_app.
      rewrite (Hfresh r' (or_intror Hin)). cbn.
      apply bool_decide_eq_false_2. intros Heq. apply Hnotin.
      rewrite Heq. now apply in_map.
    + exact Hrest.
Qed.

End Table.

Section Stage.
Context {F : Type} `{PyFloat F}.
Variable api : string -> result match_data.
Variable tier_api : string -> result (option string).
Variable batch_insert_limit : Z.
Variable Match_ID_Table : list string.

Abbreviation run := (loop api tier_api batch_insert_limit Match_ID_Table).

Lemma kept_refl (s : state F) : kept s s.
Proof. now split. Qed.

Lemma kept_trans (s1 s2 s3 : state F) : kept s1 s2 -> kept s2 s3 -> kept s1 s3.
Proof. unfold kept. intros [? ?] [? ?]. split; congruence. Qed.

Lemma participants_loop_kept (match_id tier eogr : string) (minutes : F)
      (ps : list participant) :
  post kept (participants_loop match_id tier eogr minutes ps).
Proof.
  induction ps as [|p rest IH]; cbn [participants_loop].
  - apply PostFacts.post_ret, kept_refl.
  - apply (PostFacts.post_bind kept kept_trans);
      [apply PostFacts.post_pure, kept_refl|].
    intros gpm.
    apply (PostFacts.post_bind kept kept_trans);
      [intros s; now split | intros _; exact IH].
Qed.

(** The second iteration ends the loop before it could write. *)
Lemma second_iteration_kept (match_ids : list string) :
  post kept (run 1 match_ids).
Proof.
  destruct match_ids as [|match_id rest]; cbn [loop].
  - apply PostFacts.post_ret, kept_refl.
  - apply (PostFacts.post_bind kept kept_trans); [intros s; now split|].
    intros _.
    repeat (apply (PostFacts.post_bind kept kept_trans);
            [apply PostFacts.post_pure, kept_refl | intros ?]).
    apply (PostFacts.post_bind kept kept_trans); [intros s; now split|].
    intros _.
    apply (PostFacts.post_bind kept kept_trans);
      [apply participants_loop_kept|].
    intros _. change (1 =? 0) with false. change (1 =? 1) with true.
    cbv iota.
    apply (PostFacts.post_bind kept kept_trans);
      [apply PostFacts.post_ret, kept_refl|].
    intros _. apply PostFacts.post_ret, kept_refl.
Qed.

(** The first iteration, spelled out. *)
Lemma first_iteration (match_id : string) (rest : list string) (s : state F) :
  run 0 (match_id :: rest) s
  = let s1 := {| Match_Data_Teams_Table := Match_Data_Teams_Table s;
                 Match_Data_Participants_Table := Match_Data_Participants_Table s;
                 data_teams := data_teams s;
                 data_participants := data_participants s;
                 log := log s ++ [Fetched match_id] |} in
    match api match_id with
    | Raise e => (s1, Raise e)
    | Ok m =>
        match Tier._get_majority_tier tier_api (metadata_participants m) with
        | Raise e => (s1, Raise e)
        | Ok game_tier =>
            match teams m with
            | team1 :: team2 :: _ =>
                let s2 := {| Match_Data_Teams_Table := Match_Data_Teams_Table s;
                             Match_Data_Participants_Table :=
                               Match_Data_Participants_Table s;
                             data_teams :=
                               data_teams s ++
                               [team_data match_id team1 game_tier (endOfGameResult m);
                                team_data match_id team2 game_tier (endOfGameResult m)];
                             data_participants := data_participants s;
                             log := log s ++ [Fetched match_id] |} in
                match participants_loop match_id game_tier (endOfGameResult m)
                                        (game_duration m) (participants m) s2 with
                | (s3, Raise e) => (s3, Raise e)
                | (s3, Ok _) =>
                    match data_participants s3 with
                    | [] => (s3, Raise IndexError)
                    | _ :: _ =>
                        match py_mod 0 batch_insert_limit with
                        | Raise e => (s3, Raise e)
                        | Ok r =>
                            run 1 rest
                                (if r =? 0 then fst (flush Match_ID_Table s3) else s3)
                        end
                    end
                end
            | _ => (s1, Raise IndexError)
            end
        end
    end.
Proof.
  cbn [loop]. unfold bind, say, append_teams, log_first_rows, modify, ret.
  cbv beta iota zeta.
  destruct (api match_id) as [m|e]; [|reflexivity].
  destruct (Tier._get_majority_tier tier_api (metadata_participants m))
    as [game_tier|e]; [|reflexivity].
  destruct (teams m) as [|team1 [|team2 more]]; cbn [nth_error]; try reflexivity.
  cbv beta iota zeta. cbn [data_teams data_participants log
                            Match_Data_Teams_Table Match_Data_Participants_Table].
  destruct (participants_loop _ _ _ _ _ _) as [s3 [u|e]]; [|reflexivity].
  change (0 =? 0) with true. change (0 =? 1) with false.
  change (0 + 1) with 1. cbv beta iota.
  destruct (data_participants s3) eqn:Hd; cbv beta iota; [reflexivity|].
  destruct (py_mod 0 batch_insert_limit) as [r|e]; [|reflexivity].
  destruct (r =? 0); [|reflexivity].
  unfold flush.
  destruct (Store.transaction _ (data_teams s3) _) as [t1 [u1|e1]].
  - destruct (Store.transaction _ (data_participants s3) _) as [t2 [u2|e2]];
      reflexivity.
  - reflexivity.
Qed.

End Stage.

Section Effect.
Context {F : Type} `{PyFloat F}.
Variable api : string -> result match_data.
Variable tier_api : string -> result (option string).
Variable batch_insert_limit : Z.
Variable Match_ID_Table : list string.

Abbreviation run := (loop api tier_api batch_insert_limit Match_ID_Table).

(** The rows of the first match all carry its id. *)
Lemma first_match_rows_ids (dt : list team_row) (dp : list (participant_row F)) :
  first_match_rows api tier_api batch_insert_limit Match_ID_Table = Some (dt, dp) ->
  exists match_id rest,
    Match_ID_Table = match_id :: rest
    /\ (forall r, In r dt -> tr_matchId r = match_id)
    /\ (forall r, In r dp -> pr_matchId r = match_id).
Proof.
  unfold first_match_rows. destruct Match_ID_Table as [|match_id rest]; [discriminate|].
  destruct (api match_id) as [m|]; [|discriminate].
  destruct (Tier._get_majority_tier _ _) as [g|]; [|discriminate].
  destruct (teams m) as [|t1 [|t2 more]]; try discriminate.
  destruct (is_zero _); [discriminate|].
  destruct (participants m) as [|p0 ps]; [discriminate|].
  destruct (batch_insert_limit =? 0); [discriminate|].
  unfold match_rows. intros [= <- <-]. exists match_id, rest.
  split; [reflexivity|]. split.
  - intros r [<- | [<- | []]]; reflexivity.
  - intros r Hin. apply in_map_iff in Hin as (p & <- & _). reflexivity.
Qed.

Lemma first_rows_insert (dt : list team_row) (dp : list (participant_row F))
      (T : list team_row) (P : list (participant_row F)) :
  first_match_rows api tier_api batch_insert_limit Match_ID_Table = Some (dt, dp) ->
  (exists T', insert_teams Match_ID_Table dt T = Ok T')
  /\ (exists P', insert_participants Match_ID_Table dp P = Ok P').
Proof.
  intros Hrows.
  destruct (first_match_rows_ids dt dp Hrows) as (match_id & rest & HM & Hdt & Hdp).
  assert (Hfk : fk_ok Match_ID_Table match_id = true).
  { unfold fk_ok. apply bool_decide_eq_true_2. rewrite HM. apply list_elem_of_here. }
  split.
  - apply executemany_or_ignore_ok. intros r Hr. now rewrite (Hdt r Hr).
  - apply executemany_or_ignore_ok. intros r Hr. now rewrite (Hdp r Hr).
Qed.

(** The effect of the loop on the two tables. *)
Lemma loop_effect (T : list team_row) (P : list (participant_row F)) :
  let s' := fst (run 0 Match_ID_Table (fresh T P)) in
  match first_match_rows api tier_api batch_insert_limit Match_ID_Table with
  | None => kept (fresh T P) s'
  | Some (dt, dp) =>
      insert_teams Match_ID_Table dt T = Ok (Match_Data_Teams_Table s')
      /\ insert_participants Match_ID_Table dp P
         = Ok (Match_Data_Participants_Table s')
  end.
Proof.
  cbv zeta.
  destruct (first_match_rows api tier_api batch_insert_limit Match_ID_Table)
    as [[dt dp]|] eqn:Hrows.
  - destruct (first_rows_insert dt dp T P Hrows) as [[T' HT] [P' HP]].
    revert Hrows HT HP. unfold first_match_rows.
    destruct Match_ID_Table as [|match_id rest] eqn:HM; [discriminate|].
    rewrite first_iteration. cbv zeta.
    destruct (api match_id) as [m|]; [|discriminate].
    destruct (Tier._get_majority_tier _ _) as [g|]; [|discriminate].
    destruct (teams m) as [|t1 [|t2 more]]; try discriminate.
    destruct (is_zero (game_duration m)) eqn:Hz; [discriminate|].
    destruct (participants m) as [|p0 ps] eqn:Hps; [discriminate|].
    destruct (batch_insert_limit =? 0) eqn:Hlim; [discriminate|].
    intros [= <- <-] HT HP.
    rewrite (Stage3Facts.participants_loop_rows _ _ _ _ _ _ Hz).
    cbn [data_participants data_teams fresh app map
         Match_Data_Teams_Table Match_Data_Participants_Table log].
    unfold py_mod. rewrite Hlim. rewrite Z.mod_0_l by lia.
    change (0 =? 0) with true. cbv iota.
    match goal with
    | |- context [loop ?a ?b ?c ?d 1 rest ?st] =>
        destruct (second_iteration_kept a b c d rest st) as [Ht Hp]
    end.
    rewrite Ht, Hp. unfold flush, Store.transaction.
    cbn [data_participants data_teams
         Match_Data_Teams_Table Match_Data_Participants_Table].
    unfold insert_teams in HT |- *. unfold insert_participants in HP |- *.
    rewrite Hps in HP. cbn [map] in HP.
    rewrite HT. cbv beta iota. rewrite HP. cbv beta iota.
    cbn [Match_Data_Teams_Table Match_Data_Participants_Table fst].
    split; [reflexivity|]. rewrite Hps. cbn [map]. exact HP.
  - revert Hrows. unfold first_match_rows.
    destruct Match_ID_Table as [|match_id rest] eqn:HM; [intros _; apply kept_refl|].
    rewrite first_iteration. cbv zeta.
    destruct (api match_id) as [m|]; [|intros _; now split].
    destruct (Tier._get_majority_tier _ _) as [g|]; [|intros _; now split].
    destruct (teams m) as [|t1 [|t2 more]]; try (intros _; now split).
    destruct (is_zero (game_duration m)) eqn:Hz.
    + intros _. destruct (participants m) as [|p0 ps].
      * cbn. now split.
      * rewrite Stage3Facts.participants_loop_zero by exact Hz. now split.
    + rewrite (Stage3Facts.participants_loop_rows _ _ _ _ _ _ Hz).
      destruct (participants m) as [|p0 ps]; [intros _; cbn; now split|].
      cbn [data_participants fresh app map].
      unfold py_mod. destruct (batch_insert_limit =? 0); [intros _; now split|].
      discriminate.
Qed.

Lemma stage_effect (T : list team_row) (P : list (participant_row F)) :
  let end_ := _collect_match_data_by_matchId api tier_api batch_insert_limit
                                             Match_ID_Table (fresh T P) in
  snd end_ = Ok tt
  /\ match first_match_rows api tier_api batch_insert_limit Match_ID_Table with
     | None =>
         Match_Data_Teams_Table (fst end_) = T
         /\ Match_Data_Participants_Table (fst end_) = P
     | Some (dt, dp) =>
         insert_teams Match_ID_Table dt T = Ok (Match_Data_Teams_Table (fst end_))
         /\ insert_participants Match_ID_Table dp P
            = Ok (Match_Data_Participants_Table (fst end_))
     end.
Proof.
  cbv zeta. unfold _collect_match_data_by_matchId, try_except.
  pose proof (loop_effect T P) as Heff. cbv zeta in Heff.
  destruct (run 0 Match_ID_Table (fresh T P)) as [s1 [u|e]]; cbn [fst snd] in *.
  - split; [now destruct u|].
    destruct (first_match_rows _ _ _ _) as [[dt dp]|]; exact Heff.
  - split; [reflexivity|].
    destruct (first_match_rows _ _ _ _) as [[dt dp]|]; exact Heff.
Qed.

(** X13.  Stage 3 never raises: whatever goes wrong in an iteration is
    logged and ends the loop.  On its two tables its whole effect is one
    flush of the rows of the first stored match, made of two
    [INSERT OR IGNORE] batches that both go through; or nothing, when
    the first iteration does not reach the flush. *)
Theorem stage3_stores_first_match_or_nothing
        (T : list team_row) (P : list (participant_row F)) :
  let end_ := _collect_match_data_by_matchId api tier_api batch_insert_limit
                                             Match_ID_Table (fresh T P) in
  snd end_ = Ok tt
  /\ match first_match_rows api tier_api batch_insert_limit Match_ID_Table with
     | None =>
         Match_Data_Teams_Table (fst end_) = T
         /\ Match_Data_Participants_Table (fst end_) = P
     | Some (dt, dp) =>
         insert_teams Match_ID_Table dt T = Ok (Match_Data_Teams_Table (fst end_))
         /\ insert_participants Match_ID_Table dp P
            = Ok (Match_Data_Participants_Table (fst end_))
     end.
Proof. apply stage_effect. Qed.

(** X14.  Running the stage again on the tables it left, with the same
    answers from the API, changes neither table. *)
Theorem stage3_rerun_changes_nothing
        (T : list team_row) (P : list (participant_row F)) :
  let s1 := fst (_collect_match_data_by_matchId api tier_api batch_insert_limit
                                                Match_ID_Table (fresh T P)) in
  let s2 := fst (_collect_match_data_by_matchId
                   api tier_api batch_insert_limit Match_ID_Table
                   (fresh (Match_Data_Teams_Table s1)
                          (Match_Data_Participants_Table s1))) in
  Match_Data_Teams_Table s2 = Match_Data_Teams_Table s1
  /\ Match_Data_Participants_Table s2 = Match_Data_Participants_Table s1.
Proof.
  cbv zeta.
  destruct (stage_effect T P) as [_ H1]. cbv zeta in H1.
  set (s1 := fst (_collect_match_data_by_matchId api tier_api batch_insert_limit
                                                 Match_ID_Table (fresh T P))) in *.
  destruct (stage_effect (Match_Data_Teams_Table s1)
                         (Match_Data_Participants_Table s1)) as [_ H2].
  cbv zeta in H2.
  destruct (first_match_rows api tier_api batch_insert_limit Match_ID_Table)
    as [[dt dp]|]; [|exact H2].
  destruct H1 as [HT1 HP1]. destruct H2 as [HT2 HP2].
  unfold insert_teams, insert_participants in *.
  apply StoreFacts.executemany_or_ignore_idempotent in HT1 as [HT1 _].
  apply StoreFacts.executemany_or_ignore_idempotent in HP1 as [HP1 _].
  split; congruence.
Qed.

(** X15.  A first match whose duration comes out as zero minutes: the
    two team rows are collected, the division for the first participant
    raises [ZeroDivisionError], the loop ends there and nothing is
    written. *)
Theorem stage3_zero_duration_aborts
        (T : list team_row) (P : list (participant_row F))
        (match_id : string) (rest : list string) (m : match_data)
        (game_tier : string) (team1 team2 : team) (more : list team)
        (p0 : participant) (ps : list participant) :
  Match_ID_Table = match_id :: rest ->
  api match_id = Ok m ->
  Tier._get_majority_tier tier_api (metadata_participants m) = Ok game_tier ->
  teams m = team1 :: team2 :: more ->
  participants m = p0 :: ps ->
  is_zero (game_duration m) = true ->
  _collect_match_data_by_matchId api tier_api batch_insert_limit
                                 Match_ID_Table (fresh T P)
  = ({| Match_Data_Teams_Table := T; Match_Data_Participants_Table := P;
        data_teams := [team_data match_id team1 game_tier (endOfGameResult m);
                       team_data match_id team2 game_tier (endOfGameResult m)];
        data_participants := [];
        log := [Fetched match_id; LoopAborted ZeroDivisionError] |}, Ok tt).
Proof.
  intros HM Hapi Htier Hteams Hps Hz.
  unfold _collect_match_data_by_matchId, try_except.
  rewrite HM at 2. rewrite first_iteration. cbv zeta.
  rewrite Hapi, Htier, Hteams, Hps.
  rewrite Stage3Facts.participants_loop_zero by exact Hz. reflexivity.
Qed.

Lemma NoDup_map_injective {A B} (f : A -> B) (l : list A) (a b : A) :
  List.NoDup (map f l) -> In a l -> In b l -> f a = f b -> a = b.
Proof.
  induction l as [|x l IH]; cbn; intros Hnd Ha Hb Hf; [contradiction|].
  inversion Hnd as [|? ? Hnotin Hrest]; subst.
  destruct Ha as [-> | Ha], Hb as [-> | Hb]; auto.
  - exfalso. apply Hnotin. rewrite Hf. now apply in_map.
  - exfalso. apply Hnotin. rewrite <- Hf. now apply in_map.
Qed.

(** X16.  What Stage 3 stores is what Stage 4 resolves: when the first
    match is stored into an empty participants table and its players
    are pairwise distinct, the lookup of Stage 4 answers, for each of
    them, the team and the position of the row Stage 3 built from the
    payload. *)
Theorem stage3_rows_resolve_in_stage4
        (T : list team_row) (dt : list team_row) (dp : list (participant_row F))
        (r : participant_row F) (s4 : Stage4.state) :
  first_match_rows api tier_api batch_insert_limit Match_ID_Table = Some (dt, dp) ->
  List.NoDup (map pr_puuId dp) ->
  In r dp -> pr_puuId r <> "Minion" ->
  let stored := Match_Data_Participants_Table
                  (fst (_collect_match_data_by_matchId
                          api tier_api batch_insert_limit Match_ID_Table
                          (fresh T []))) in
  stored = dp
  /\ snd (Stage4._get_teamId_teamPos stored (PStr (pr_puuId r)) (pr_matchId r) s4)
     = Ok (Some (PInt (pr_teamId r), PStr (pr_teamPosition r))).
Proof.
  intros Hrows Hnd Hr Hm. cbv zeta.
  destruct (stage_effect T []) as [_ Heff]. cbv zeta in Heff.
  rewrite Hrows in Heff. destruct Heff as [_ HP].
  destruct (first_match_rows_ids dt dp Hrows) as (match_id & rest & HM & _ & Hdp).
  assert (Hstored : insert_participants Match_ID_Table dp [] = Ok dp).
  { unfold insert_participants.
    rewrite (executemany_or_ignore_fresh _ _ dp []); [reflexivity| | |].
    - intros r' Hr'. rewrite (Hdp r' Hr'). unfold fk_ok.
      apply bool_decide_eq_true_2. rewrite HM. apply list_elem_of_here.
    - reflexivity.
    - clear -Hnd. induction dp as [|x l IH]; cbn; [constructor|].
      inversion Hnd as [|? ? Hnotin Hrest]; subst. constructor; [|auto].
      intros Hin. apply Hnotin. apply in_map_iff in Hin as (y & [= Hy _] & Hyl).
      rewrite <- Hy. now apply in_map. }
  rewrite Hstored in HP. injection HP as HP. rewrite <- HP.
  split; [reflexivity|].
  rewrite Stage4More.lookup_resolves. cbn [snd]. f_equal.
  apply Stage4More.resolve_stored; [|exact Hr|exact Hm].
  intros r1 r2 H1 H2 Hp _. now apply (NoDup_map_injective pr_puuId dp).
Qed.

End Effect.

End Stage3More.

(** ** Stage 3: the minutes and the gold per minute that are stored *)

Module Stage3Gold.
Import Stage3 Stage3Rows Fixtures Fixtures2.

(** The stage computes the minutes as they are specified. *)
Lemma game_duration_minutes (m : match_data) :
  game_duration (F := float) m = Minutes.minutes m.
Proof.
  unfold game_duration, Minutes.minutes, Minutes.ended.
  destruct (gameEndTimestamp m) as [ts|]; [|reflexivity].
  now destruct (ts =? 0).
Qed.

(** The minutes depend on the duration and on whether the match ended. *)
Lemma minutes_lasting (m : match_data) :
  Minutes.minutes m
  = Minutes.minutes (lasting (gameDuration m)
                             (if Minutes.ended m then Some 1 else None)).
Proof.
  unfold Minutes.minutes. now destruct (Minutes.ended m).
Qed.

Lemma minutes_close (m : match_data) :
  0 <= gameDuration m <= 3600 ->
  close (Minutes.quotient m) (Minutes.minutes m) = true.
Proof.
  intros Hd. pose proof Stage3Facts.binary64_minutes_close as Hall.
  rewrite forallb_forall in Hall.
  specialize (Hall (gameDuration m)).
  assert (Hin : In (gameDuration m) (map Z.of_nat (seq 0 (Z.to_nat 3601)))).
  { apply in_map_iff. exists (Z.to_nat (gameDuration m)). split; [lia|].
    apply in_seq. lia. }
  apply Hall in Hin. apply andb_true_iff in Hin. destruct Hin as [H60 H600].
  rewrite game_duration_minutes in H60, H600.
  rewrite minutes_lasting. unfold Minutes.quotient.
  destruct (Minutes.ended m); [exact H60|exact H600].
Qed.

Section Stage.
Context {F : Type} `{PyFloat F}.
Variable api : string -> result match_data.
Variable tier_api : string -> result (option string).
Variable batch_insert_limit : Z.
Variable Match_ID_Table : list string.

(** The rows of the first match, when every step up to the flush goes
    through. *)
Lemma first_rows (match_id : string) (rest : list string) (m : match_data)
      (game_tier : string) (team1 team2 : team) (more : list team) :
  Match_ID_Table = match_id :: rest ->
  api match_id = Ok m ->
  Tier._get_majority_tier tier_api (metadata_participants m) = Ok game_tier ->
  teams m = team1 :: team2 :: more ->
  participants m <> [] ->
  batch_insert_limit <> 0 ->
  is_zero (game_duration m) = false ->
  first_match_rows api tier_api batch_insert_limit Match_ID_Table
  = Some (match_rows match_id m game_tier team1 team2).
Proof.
  intros HM Hapi Htier Hteams Hps Hlim Hnz. unfold first_match_rows.
  rewrite HM, Hapi, Htier, Hteams, Hnz.
  destruct (participants m); [congruence|].
  now rewrite (proj2 (Z.eqb_neq batch_insert_limit 0) Hlim).
Qed.

(** Rows of distinct players, flushed into an empty table, are the
    table. *)
Lemma first_rows_stored (T : list team_row) (dt : list team_row)
      (dp : list (participant_row F)) :
  first_match_rows api tier_api batch_insert_limit Match_ID_Table = Some (dt, dp) ->
  List.NoDup (map pr_puuId dp) ->
  Match_Data_Participants_Table
    (fst (_collect_match_data_by_matchId api tier_api batch_insert_limit
                                         Match_ID_Table (fresh T [])))
  = dp.
Proof.
  intros Hrows Hnd.
  destruct (Stage3More.stage_effect api tier_api batch_insert_limit
                                    Match_ID_Table T []) as [_ Heff].
  cbv zeta in Heff. rewrite Hrows in Heff. destruct Heff as [_ HP].
  destruct (Stage3More.first_match_rows_ids api tier_api batch_insert_limit
                                            Match_ID_Table dt dp Hrows)
    as (match_id & rest & HM & _ & Hdp).
  assert (Hstored : insert_participants Match_ID_Table dp [] = Ok dp).
  { unfold insert_participants.
    rewrite (Stage3More.executemany_or_ignore_fresh _ _ dp []);
      [reflexivity| | |].
    - intros r' Hr'. rewrite (Hdp r' Hr'). unfold fk_ok.
      apply bool_decide_eq_true_2. rewrite HM. apply list_elem_of_here.
    - reflexivity.
    - clear -Hnd. induction dp as [|x l IH]; cbn; [constructor|].
      inversion Hnd as [|? ? Hnotin Hrest]; subst. constructor; [|auto].
      intros Hin. apply Hnotin. apply in_map_iff in Hin as (y & [= Hy _] & Hyl).
      rewrite <- Hy. now apply in_map. }
  rewrite Hstored in HP. now injection HP as <-.
Qed.

End Stage.

(** C6.  What Stage 3 stores as [goldPerMinute], in binary64.  The stage
    computes the minutes of a match as [gameDuration / 60] when the payload
    has an end timestamp other than 0, and as [gameDuration * 0.1 / 60]
    otherwise; a duration of 1800 gives 30 and 3.  For durations up to 3600
    these minutes are within one part in 2^51 of the quotients by 60 and by
    600.  And when the first stored match goes through (the API and the
    tier vote answer, there are two teams and distinct players, the
    minutes are not 0, the flush period is not 0), the rows the stage
    writes into an empty table are those of the participants of the
    payload, each with [goldEarned] divided by these minutes. *)
Theorem gold_per_minute_unit_correction :
  (forall m : match_data, game_duration (F := float) m = Minutes.minutes m)
  /\ Minutes.minutes ended_1800 = 30%float
  /\ Minutes.minutes unended_1800 = 3%float
  /\ (forall m : match_data,
        0 <= gameDuration m <= 3600 ->
        close (Minutes.quotient m) (Minutes.minutes m) = true)
  /\ (forall (api : string -> result match_data)
             (tier_api : string -> result (option string))
             (batch_insert_limit : Z) (Match_ID_Table : list string)
             (T : list team_row)
             (match_id : string) (rest : list string) (m : match_data)
             (game_tier : string) (team1 team2 : team) (more : list team),
        Match_ID_Table = match_id :: rest ->
        api match_id = Ok m ->
        Tier._get_majority_tier tier_api (metadata_participants m) = Ok game_tier ->
        teams m = team1 :: team2 :: more ->
        participants m <> [] ->
        List.NoDup (map p_puuid (participants m)) ->
        batch_insert_limit <> 0 ->
        PrimFloat.eqb (Minutes.minutes m) 0 = false ->
        Match_Data_Participants_Table
          (fst (_collect_match_data_by_matchId api tier_api batch_insert_limit
                                               Match_ID_Table (fresh T [])))
        = map (fun p =>
                 participant_data match_id p game_tier
                   (PrimFloat.div (float_of_Z (p_goldEarned p)) (Minutes.minutes m))
                   (endOfGameResult m))
              (participants m)).
Proof.
  split; [exact game_duration_minutes|].
  split; [vm_compute; reflexivity|]. split; [vm_compute; reflexivity|].
  split; [exact minutes_close|].
  intros api tier_api batch_insert_limit Match_ID_Table T match_id rest m
         game_tier team1 team2 more HM Hapi Htier Hteams Hps Hnd Hlim Hnz.
  rewrite <- game_duration_minutes in Hnz.
  rewrite (first_rows_stored api tier_api batch_insert_limit Match_ID_Table T
             (fst (match_rows match_id m game_tier team1 team2))
             (snd (match_rows match_id m game_tier team1 team2))).
  - cbn [snd match_rows]. apply map_ext. intros p.
    now rewrite game_duration_minutes.
  - now apply (first_rows api tier_api batch_insert_limit Match_ID_Table
                          match_id rest m game_tier team1 team2 more).
  - cbn [snd match_rows]. rewrite map_map. exact Hnd.
Qed.

(** The theorem at three stored matches whose payload is [a_match], 1800
    seconds with an end timestamp and two players with 12000 gold each:
    thirty minutes, and 400 gold per minute in both rows. *)
Lemma gold_per_minute_unit_correction_witness :
  map pr_goldPerMinute
      (Match_Data_Participants_Table
         (fst (_collect_match_data_by_matchId
                 (fun _ => Ok a_match) (fun _ => Ok (Some "GOLD")) 1000
                 ["m0"; "m1"; "m2"] (fresh [] []))))
  = [400%float; 400%float]
  /\ close (30 # 1) (Minutes.minutes a_match) = true.
Proof.
  destruct gold_per_minute_unit_correction as (_ & _ & _ & Hclose & Hrows).
  split.
  - rewrite (Hrows (fun _ => Ok a_match) (fun _ => Ok (Some "GOLD")) 1000
                   ["m0"; "m1"; "m2"] [] "m0" ["m1"; "m2"] a_match "GOLD"
                   (a_team 100 true) (a_team 200 false) []);
      try reflexivity.
    + discriminate.
    + cbn. constructor; [cbn; intros [Heq | []]; discriminate|].
      constructor; [intros []|constructor].
    + lia.
  - apply (Hclose a_match). cbn. lia.
Defined.

(** At a duration of 1801 without an end timestamp the minutes the stage
    computes are not [gameDuration / 600]: the product by 0.1 is rounded
    before the division, and the two results differ in the last place.
    The gold per minute the stage stores for [unended_match] differs in the
    same way from the quotient by [gameDuration / 600]. *)
Lemma minutes_are_not_the_quotient_by_600 :
  PrimFloat.eqb (game_duration (F := float) (lasting 1801 None))
                (Minutes.by_600 (lasting 1801 None)) = false
  /\ map pr_goldPerMinute
         (Match_Data_Participants_Table
            (fst (_collect_match_data_by_matchId
                    (fun _ => Ok unended_match) (fun _ => Ok (Some "GOLD")) 1000
                    ["m0"] (fresh [] []))))
     = [0x1.f3b8eda9dc76dp+11%float; 0x1.f3b8eda9dc76dp+11%float]
  /\ PrimFloat.div (float_of_Z 12000) (Minutes.by_600 unended_match)
     = 0x1.f3b8eda9dc76ep+11%float.
Proof. repeat split; vm_compute; reflexivity. Qed.

End Stage3Gold.

(** ** The theorems of Stages 3 and 4 at the example inputs *)

Module MoreWitnesses.
Import Fixtures Fixtures2 Stage4 Stage4Rows.

Lemma stored_keyed : keyed stored.
Proof.
  intros r1 r2 H1 H2 _ Hm.
  destruct H1 as [<- | [<- | []]], H2 as [<- | [<- | []]];
    try reflexivity; discriminate.
Qed.

Lemma monster_kill_attributed_from_payload_witness :
  snd (event_body kill_types stored "m0" player_ids
                  (an_event "ELITE_MONSTER_KILL" 2 1000) initial) = Ok Next
  /\ data_events (fst (event_body kill_types stored "m0" player_ids
                                  (an_event "ELITE_MONSTER_KILL" 2 1000) initial))
     = [monster_row].
Proof.
  exact (Stage4More.monster_kill_attributed_from_payload
           kill_types stored "m0" player_ids
           (an_event "ELITE_MONSTER_KILL" 2 1000) initial eq_refl
           (list_elem_of_here _ _)).
Defined.

Lemma champion_kill_resolved_from_store_witness :
  exists s',
    event_body kill_types stored "m0" player_ids
               (an_event "CHAMPION_KILL" 2 2000) initial = (s', Ok Next)
    /\ data_events s'
       = [{| matchId := "m0"; puuId := PStr "b"; teamId := PInt 200;
             inGameId := PInt 2; teamPosition := PStr "JUNGLE";
             x := PInt 10; y := PInt 20; timestamp := PInt 2000;
             event_name := PStr "CHAMPION_KILL"; event_type := PStr "KILL" |}]
    /\ queries s' = [("b", "m0")].
Proof.
  apply (Stage4More.champion_kill_resolved_from_store
           kill_types stored "m0" player_ids
           (an_event "CHAMPION_KILL" 2 2000) initial 2
           (stored_row "b" "m0" 200 "JUNGLE")).
  - reflexivity.
  - unfold kill_types. cbn. apply list_elem_of_further, list_elem_of_here.
  - reflexivity.
  - lia.
  - vm_compute. reflexivity.
  - apply stored_keyed.
  - cbn. now left.
  - discriminate.
  - reflexivity.
Defined.

Lemma sample_resolved_from_store_witness :
  exists s',
    sample_body stored "m0" player_ids (PInt 60000) ("2", a_sample) initial
    = (s', Ok Next)
    /\ data_events s' = [sample_row]
    /\ queries s' = [("b", "m0")].
Proof.
  apply (Stage4More.sample_resolved_from_store
           stored "m0" player_ids (PInt 60000) "2" a_sample initial 2
           (stored_row "b" "m0" 200 "JUNGLE")).
  - reflexivity.
  - vm_compute. reflexivity.
  - apply stored_keyed.
  - cbn. now left.
  - discriminate.
  - reflexivity.
Defined.

Lemma other_event_repeats_last_kill_witness :
  event_body with_wards stored "m0" player_ids
             (an_event "WARD_PLACED" 2 5000) initial
  = (initial, Raise UnboundLocalError)
  /\ exists s1 r,
       event_body with_wards stored "m0" player_ids
                  (an_event "CHAMPION_KILL" 2 2000) initial = (s1, Ok Next)
       /\ data_events s1 = [r]
       /\ data_events
            (fst (event_body with_wards stored "m0" player_ids
                             (an_event "WARD_PLACED" 2 5000) s1))
          = [r; renamed "WARD_PLACED" r].
Proof.
  assert (Hward : e_type (an_event "WARD_PLACED" 2 5000) ∈ with_wards).
  { unfold with_wards. cbn. apply list_elem_of_further, list_elem_of_here. }
  assert (Hnot : ~ e_type (an_event "WARD_PLACED" 2 5000) ∈ kill_types).
  { cbn. unfold kill_types. intros Hin.
    apply Stage4Facts.kill_types_cases in Hin as [Hin | [Hin | Hin]]; discriminate. }
  split.
  - apply (proj1 (Stage4More.other_event_repeats_last_kill
                    with_wards stored "m0" player_ids
                    (an_event "CHAMPION_KILL" 2 2000) (an_event "WARD_PLACED" 2 5000)
                    initial initial Hward Hnot)).
    reflexivity.
  - destruct (event_body with_wards stored "m0" player_ids
                         (an_event "CHAMPION_KILL" 2 2000) initial)
      as [s1 f] eqn:Hrun.
    assert (Hf : f = Ok Next).
    { apply (f_equal snd) in Hrun. cbn in Hrun. rewrite <- Hrun.
      vm_compute. reflexivity. }
    subst f.
    destruct (proj2 (Stage4More.other_event_repeats_last_kill
                       with_wards stored "m0" player_ids
                       (an_event "CHAMPION_KILL" 2 2000)
                       (an_event "WARD_PLACED" 2 5000)
                       initial s1 Hward Hnot)) as (r & Hr & Hnext).
    + unfold with_wards. cbn. apply list_elem_of_here.
    + unfold kill_types. cbn. apply list_elem_of_further, list_elem_of_here.
    + exact Hrun.
    + exists s1, r. split; [reflexivity|]. split; [exact Hr|].
      rewrite Hnext. cbn [fst data_events]. rewrite Hr. reflexivity.
Defined.

Lemma missing_killer_is_looked_up_as_None_witness :
  exists s',
    event_body kill_types stored "m0" player_ids no_killer initial
    = (s', Ok Break)
    /\ data_events s' = []
    /\ log s' = [Query "None" "m0"; NoData "None" "m0";
                 Excluding PNone "CHAMPION_KILL" "m0"].
Proof.
  apply (Stage4More.missing_killer_is_looked_up_as_None
           kill_types stored "m0" player_ids no_killer initial).
  - unfold kill_types. cbn. apply list_elem_of_further, list_elem_of_here.
  - unfold kill_types. cbn. apply list_elem_of_further, list_elem_of_here.
  - reflexivity.
  - vm_compute. reflexivity.
Defined.

(** The row of player [a] has the least key, so [m0] is asked for first
    although a row of [m1] was stored before it; its timeline is missing,
    and the stage ends there. *)
Lemma stage4_fetch_failure_propagates_witness :
  distinct_matchIds unordered = ["m0"; "m1"]
  /\ _collect_match_timeline_by_matchId m0_down kill_types 1000
                                        unordered ["m0"; "m1"] initial
     = ({| vars := unbound; data_events := []; Match_Timeline_Table := [];
           log := [TimelineFetched "m0"] |}, Raise ApiError).
Proof.
  split; [vm_compute; reflexivity|].
  apply (proj2 (proj2 (Stage4More.stage4_fetch_failure_propagates
                         m0_down kill_types 1000 unordered ["m0"; "m1"]))
               (stored_row "a" "m0" 100 "TOP") ApiError).
  - right. left. reflexivity.
  - intros r' [<- | [<- | [<- | []]]]; vm_compute; reflexivity.
  - reflexivity.
Defined.

Lemma stage3_zero_duration_aborts_witness :
  Stage3._collect_match_data_by_matchId
    (fun _ => Ok zero_match) (fun _ => Ok (Some "GOLD")) 1000 ["m0"; "m1"]
    (Stage3Rows.fresh [] ([] : list (Stage3.participant_row float)))
  = ({| Stage3.Match_Data_Teams_Table := [];
        Stage3.Match_Data_Participants_Table := [];
        Stage3.data_teams :=
          [Stage3.team_data "m0" (a_team 100 true) "GOLD" "GameComplete";
           Stage3.team_data "m0" (a_team 200 false) "GOLD" "GameComplete"];
        Stage3.data_participants := [];
        Stage3.log := [Stage3.Fetched "m0";
                       Stage3.LoopAborted ZeroDivisionError] |}, Ok tt).
Proof.
  apply (Stage3More.stage3_zero_duration_aborts
           (fun _ => Ok zero_match) (fun _ => Ok (Some "GOLD")) 1000 ["m0"; "m1"]
           [] [] "m0" ["m1"] zero_match "GOLD" (a_team 100 true) (a_team 200 false)
           [] (a_player "a" 100 "TOP") [a_player "b" 200 "JUNGLE"]);
    reflexivity.
Defined.

Lemma stage3_rows_resolve_in_stage4_witness :
  snd (_get_teamId_teamPos
         (Stage3.Match_Data_Participants_Table
            (fst (Stage3._collect_match_data_by_matchId
                    (fun _ => Ok a_match) (fun _ => Ok (Some "GOLD")) 1000
                    ["m0"; "m1"; "m2"] (Stage3Rows.fresh [] []))))
         (PStr "b") "m0" initial)
  = Ok (Some (PInt 200, PStr "JUNGLE")).
Proof.
  assert (Hrows : Stage3Rows.first_match_rows
                    (fun _ => Ok a_match) (fun _ => Ok (Some "GOLD")) 1000
                    ["m0"; "m1"; "m2"] = Some (fst rows_m0, snd rows_m0)).
  { vm_compute. reflexivity. }
  assert (Hnd : List.NoDup (map Stage3.pr_puuId (snd rows_m0))).
  { cbn. constructor; [cbn; intros [H | []]; discriminate|].
    constructor; [intros []|constructor]. }
  assert (Hin : In row_b (snd rows_m0)).
  { cbn. right. left. reflexivity. }
  apply (proj2 (Stage3More.stage3_rows_resolve_in_stage4
                  (fun _ => Ok a_match) (fun _ => Ok (Some "GOLD")) 1000
                  ["m0"; "m1"; "m2"] [] (fst rows_m0) (snd rows_m0) row_b initial
                  Hrows Hnd Hin ltac:(discriminate))).
Defined.

End MoreWitnesses.

(** ** Stage 1: validation, pagination, and what is stored *)

Module LadderFacts.
Import Store Stage1 Ladder LadderSpec.

Section Table.
Context {R K : Type} `{EqDecision K}.
Variable key : R -> K.

(** Without foreign keys [INSERT OR IGNORE] appends the rows of the
    batch whose key is new, the first of each key. *)
Lemma executemany_or_ignore_added (data t : list R) :
  exists added,
    executemany (insert_or_ignore key (fun _ => true)) data t = Ok (t ++ added)
    /\ (forall r, In r added -> In r data /\ has_key key (key r) t = false)
    /\ NoDup (map key added).
Proof.
  revert t. induction data as [|r rest IH]; intros t; cbn.
  - exists []. rewrite app_nil_r. repeat split; [easy|easy|constructor].
  - unfold insert_or_ignore at 1. destruct (has_key key (key r) t) eqn:Hk.
    + destruct (IH t) as [added [Hrun [Hin Hnd]]]. exists added.
      split; [exact Hrun|]. split; [|exact Hnd].
      intros r' Hr'. destruct (Hin r' Hr') as [Hd Hno]. split; [now right | exact Hno].
    + destruct (IH (t ++ [r])) as [added [Hrun [Hin Hnd]]].
      exists (r :: added). rewrite Hrun, <- app_assoc. split; [reflexivity|].
      assert (Hnew : forall r', In r' added ->
                                has_key key (key r') t = false /\ key r <> key r').
      { intros r' Hr'. destruct (Hin r' Hr') as [_ Hno].
        rewrite StoreFacts.has_key_app in Hno.
        apply orb_false_iff in Hno. destruct Hno as [Hno Hne].
        split; [exact Hno|]. now apply bool_decide_eq_false_1 in Hne. }
      split.
      * intros r' [<- | Hr']; [split; [now left | exact Hk]|].
        split; [right; now apply Hin | now apply Hnew].
      * cbn. constructor; [|exact Hnd].
        intros Hc. apply list_elem_of_In, in_map_iff in Hc. destruct Hc as [r' [Heq Hr']].
        destruct (Hnew r' Hr') as [_ Hne]. congruence.
Qed.

End Table.

Section Stage.
Variable api : string -> option string -> Z -> result response.
Variable page_limit : Z.
Variable date : string.

Abbreviation pages := (pages_loop api page_limit date).
Abbreviation run := (run_loops api page_limit date).

Lemma pages_loop_step (fuel : nat) (tier : string) (division : option string)
      (p : Z) (s : state) :
  pages (S fuel) tier division p s
  = (b <- iteration api date tier division p ;;
     if b then ret Finished
     else if last_page page_limit p then ret Finished
          else pages fuel tier division (p + 1)) s.
Proof.
  cbn [pages_loop]. unfold iteration, bind.
  destruct (fetch api tier division p s) as [s1 [[]|e]]; [|reflexivity].
  destruct (match division with
            | None => guard_challenger (summoner_entries s1)
            | Some _ => guard_division (summoner_entries s1)
            end) as [| |f].
  - reflexivity.
  - destruct (collect s1) as [s2 [page|e]]; [|reflexivity].
    destruct (store date tier p page s2) as [s3 [[]|e]]; reflexivity.
  - destruct (match division with
              | None => handler_challenger f
              | Some _ => handler_division f
              end s1) as [s2 [[]|e]]; [|reflexivity].
    destruct (collect s2) as [s3 [page|e]]; [|reflexivity].
    destruct (store date tier p page s3) as [s4 [[]|e]]; reflexivity.
Qed.

(** The two [for] loops run the [while] loops of [loops] in order. *)
Lemma divisions_loop_flat (fuel : nat) (tier : string) (ds : list string)
      (rest : list (string * option string)) (s : state) :
  (o <- divisions_loop api page_limit date fuel tier ds ;;
   match o with
   | OutOfFuel => ret OutOfFuel
   | Finished => run fuel rest
   end) s
  = run fuel (map (fun d => (tier, Some d)) ds ++ rest) s.
Proof.
  revert s. induction ds as [|d ds IH]; intros s; [reflexivity|].
  cbn [divisions_loop map app run_loops]. unfold bind at 1 2 3.
  destruct (pages fuel tier (Some d) 1 s) as [s1 [[|]|e]];
    [|reflexivity|reflexivity].
  apply (IH s1).
Qed.

Lemma tiers_loop_flat (fuel : nat) (ts ds : list string) (s : state) :
  tiers_loop api page_limit date fuel ts ds s = run fuel (loops ts ds) s.
Proof.
  revert s. induction ts as [|t ts IH]; intros s; [reflexivity|].
  cbn [tiers_loop]. unfold loops. cbn [flat_map]. fold (loops ts ds).
  destruct (bool_decide (t = "CHALLENGER")).
  - cbn [app run_loops]. unfold bind.
    destruct (pages fuel t None 1 s) as [s1 [[|]|e]];
      [apply IH|reflexivity|reflexivity].
  - rewrite <- divisions_loop_flat. unfold bind.
    destruct (divisions_loop api page_limit date fuel t ds s) as [s1 [[|]|e]];
      [apply IH|reflexivity|reflexivity].
Qed.

Lemma insert_page_ok (page : list summoner) (t : list summoner_row) :
  insert_page date page t = (fst (insert_page date page t), Ok tt).
Proof.
  destruct (StoreFacts.stage1_page_idempotent date page t) as [t' [-> _]].
  reflexivity.
Qed.

Lemma guard_page (division : option string) (x : summoner) (rest : list summoner) :
  match division with
  | None => guard_challenger (Some (Entries (x :: rest)))
  | Some _ => guard_division (Some (Entries (x :: rest)))
  end = Pass.
Proof. now destruct division. Qed.

(** An iteration that has a non-empty page in [summoner_entries] after
    the fetch writes it. *)
Lemma iteration_page (tier : string) (division : option string) (p : Z)
      (s : state) (page : list summoner) :
  page <> [] ->
  match api tier division p with
  | Ok r => r = Entries page
  | Raise _ => summoner_entries s = Some (Entries page)
  end ->
  exists s' last_one,
    iteration api date tier division p s = (s', Ok false)
    /\ last page = Some last_one
    /\ Summoners_Table s' = fst (insert_page date page (Summoners_Table s))
    /\ log s' = log s ++ [Requested tier division p]
                ++ match api tier division p with
                   | Ok _ => []
                   | Raise _ => [ApiFailed]
                   end
                ++ [InsertSuccessful tier (s_rank last_one) p]
    /\ summoner_entries s' = Some (Entries page)
    /\ type_of_entries s' = type_of_entries s
    /\ current_division s' = Some (s_rank last_one).
Proof.
  intros Hne Hans. destruct (last page) as [last_one|] eqn:Hlast.
  2:{ apply last_None in Hlast. contradiction. }
  destruct page as [|x rest]; [contradiction|].
  unfold iteration, fetch.
  destruct (api tier division p) as [r|e].
  - subst r. unfold bind at 1 2 3. unfold say at 1, assign_entries at 1, modify.
    cbn [summoner_entries]. rewrite guard_page.
    unfold collect, read_entries, bind. cbn [summoner_entries]. rewrite Hlast.
    unfold assign_division, modify, ret, store, write, read_division, say, bind, modify.
    cbn [Summoners_Table current_division log summoner_entries type_of_entries].
    rewrite insert_page_ok.
    eexists _, last_one. split; [reflexivity|]. cbn.
    rewrite <- !app_assoc. auto 10.
  - unfold bind at 1 2 3. unfold say at 1 2, modify.
    cbn [summoner_entries]. rewrite Hans, guard_page.
    unfold collect, read_entries, bind. cbn [summoner_entries]. rewrite Hlast.
    unfold assign_division, modify, ret, store, write, read_division, say, bind, modify.
    cbn [Summoners_Table current_division log summoner_entries type_of_entries].
    rewrite insert_page_ok.
    eexists _, last_one. split; [reflexivity|]. cbn.
    rewrite <- !app_assoc. auto 10.
Qed.
Lemma insert_page_added (page : list summoner) (t : list summoner_row) :
  exists added,
    insert_page date page t = (t ++ added, Ok tt)
    /\ Forall (fun r => date_collected r = date
                        /\ has_key puuid (puuid r) t = false) added
    /\ NoDup (map puuid added).
Proof.
  unfold insert_page, transaction.
  destruct (executemany_or_ignore_added puuid (page_rows date page) t)
    as [added [-> [Hin Hnd]]].
  exists added. split; [reflexivity|]. split; [|exact Hnd].
  apply Forall_forall. intros r Hr. apply list_elem_of_In in Hr.
  destruct (Hin r Hr) as [Hdata Hno]. split; [|exact Hno].
  unfold page_rows in Hdata. apply in_map_iff in Hdata.
  destruct Hdata as [x [<- _]]. reflexivity.
Qed.

Lemma extends_refl (s : state) : extends date s s.
Proof.
  exists []. rewrite app_nil_r. repeat split; constructor.
Qed.

Lemma has_key_app_false (k : string) (t new : list summoner_row) :
  has_key puuid k (t ++ new) = false ->
  has_key puuid k t = false /\ k ∉ map puuid new.
Proof.
  unfold has_key. rewrite existsb_app. intros Hno.
  apply orb_false_iff in Hno. destruct Hno as [Ht Hnew]. split; [exact Ht|].
  intros Hin. apply list_elem_of_In, in_map_iff in Hin.
  destruct Hin as [r [Hr Hin]].
  assert (Hex : existsb (fun r => bool_decide (puuid r = k)) new = true).
  { apply existsb_exists. exists r. split; [exact Hin|].
    now apply bool_decide_eq_true_2. }
  congruence.
Qed.

Lemma extends_trans (s1 s2 s3 : state) :
  extends date s1 s2 -> extends date s2 s3 -> extends date s1 s3.
Proof.
  intros [a1 [H1 [F1 N1]]] [a2 [H2 [F2 N2]]].
  exists (a1 ++ a2). rewrite H2, H1, <- app_assoc. split; [reflexivity|].
  rewrite H1 in F2.
  assert (F2' : Forall (fun r => (date_collected r = date
                                  /\ has_key puuid (puuid r) (Summoners_Table s1) = false)
                                 /\ puuid r ∉ map puuid a1) a2).
  { eapply Forall_impl; [exact F2|]. intros r [Hd Hk].
    apply has_key_app_false in Hk. destruct Hk as [Hk1 Hk2].
    repeat split; assumption. }
  split.
  - apply Forall_app. split; [exact F1|].
    eapply Forall_impl; [exact F2'|]. intros r [Hr _]. exact Hr.
  - rewrite map_app. apply NoDup_app. split; [exact N1|]. split; [|exact N2].
    intros k Hk1 Hk2. apply list_elem_of_In, in_map_iff in Hk2.
    destruct Hk2 as [r [<- Hr]]. apply list_elem_of_In in Hr.
    rewrite Forall_forall in F2'. destruct (F2' r Hr) as [_ Hno]. contradiction.
Qed.

Lemma same_table_extends (s s' : state) :
  Summoners_Table s' = Summoners_Table s -> extends date s s'.
Proof.
  intros Heq. exists []. rewrite app_nil_r. repeat split; [exact Heq|constructor|constructor].
Qed.


Lemma keeps_table_extends {A} (c : M state A) :
  (forall s, Summoners_Table (fst (c s)) = Summoners_Table s) ->
  post (extends date) c.
Proof. intros Hc s. apply same_table_extends, Hc. Qed.

Lemma store_extends (tier : string) (p : Z) (page : list summoner) :
  post (extends date) (store date tier p page).
Proof.
  intros s. unfold store.
  destruct (insert_page_added page (Summoners_Table s)) as [added [-> Hadded]].
  unfold bind, write, read_division, say, modify. cbn.
  destruct (current_division s); exists added; cbn; (split; [reflexivity|exact Hadded]).
Qed.

Lemma collect_table (s : state) :
  Summoners_Table (fst (collect s)) = Summoners_Table s.
Proof.
  unfold collect, read_entries, bind.
  destruct (summoner_entries s) as [[|page|stats]|]; try reflexivity.
  now destruct (last page).
Qed.

Lemma handler_table (division : option string) (e : fault) (s : state) :
  Summoners_Table (fst (match division with
                        | None => handler_challenger e
                        | Some _ => handler_division e
                        end s)) = Summoners_Table s.
Proof.
  destruct s as [t l [r|] [|] d];
    destruct division; reflexivity.
Qed.

Lemma fetch_table (tier : string) (division : option string) (p : Z) (s : state) :
  Summoners_Table (fst (fetch api tier division p s)) = Summoners_Table s.
Proof.
  unfold fetch, bind, say, assign_entries, modify.
  now destruct (api tier division p).
Qed.

Lemma iteration_extends (tier : string) (division : option string) (p : Z) :
  post (extends date) (iteration api date tier division p).
Proof.
  unfold iteration.
  apply (PostFacts.post_bind _ extends_trans);
    [apply keeps_table_extends, fetch_table|intros _].
  apply (PostFacts.post_bind _ extends_trans);
    [intros s; apply extends_refl|intros g].
  assert (Hrest : post (extends date)
            (page <- collect ;; store date tier p page ;;; ret false)).
  { apply (PostFacts.post_bind _ extends_trans);
      [apply keeps_table_extends, collect_table|intros page].
    apply (PostFacts.post_bind _ extends_trans); [apply store_extends|intros _].
    apply (PostFacts.post_ret _ extends_refl). }
  destruct g as [| |e]; [apply (PostFacts.post_ret _ extends_refl)|exact Hrest|].
  apply (PostFacts.post_bind _ extends_trans); [|intros _; exact Hrest].
  apply keeps_table_extends, handler_table.
Qed.

Lemma pages_loop_extends (fuel : nat) (tier : string) (division : option string)
      (p : Z) :
  post (extends date) (pages_loop api page_limit date fuel tier division p).
Proof.
  revert p. induction fuel as [|fuel IH]; intros p.
  - apply (PostFacts.post_ret _ extends_refl).
  - intros s. rewrite pages_loop_step. revert s.
    apply (PostFacts.post_bind _ extends_trans); [apply iteration_extends|].
    intros [|]; [apply (PostFacts.post_ret _ extends_refl)|].
    destruct (last_page page_limit p); [apply (PostFacts.post_ret _ extends_refl)|].
    apply IH.
Qed.

Lemma run_loops_extends (fuel : nat) (ls : list (string * option string)) :
  post (extends date) (run_loops api page_limit date fuel ls).
Proof.
  induction ls as [|[tier division] rest IH].
  - apply (PostFacts.post_ret _ extends_refl).
  - cbn [run_loops].
    apply (PostFacts.post_bind _ extends_trans); [apply pages_loop_extends|].
    intros [|]; [exact IH|apply (PostFacts.post_ret _ extends_refl)].
Qed.


(** X17.  Stage 1 only ever adds rows.  Whatever the arguments, the API
    answers and the page limit are, and however the call ends, the
    table afterwards is the table before followed by new rows; each new
    row is dated with the current collection date and has a [puuid] that
    was not stored before, and no two new rows share a [puuid].  A
    player stored by an earlier run therefore keeps the tier, division
    and date of that run. *)
Theorem stage1_only_adds_rows (fuel : nat) (tiers divisions : argument) :
  post (extends date)
       (_collect_summoner_entries_by_tier api page_limit date fuel
                                          tiers divisions).
Proof.
  unfold _collect_summoner_entries_by_tier.
  destruct (validate tiers divisions) as [[ts ds]|e].
  - intros s. rewrite tiers_loop_flat. apply run_loops_extends.
  - apply (PostFacts.post_raise _ extends_refl).
Qed.

Lemma all_valid_spec (valid xs : list string) :
  (Forall (fun x => x ∈ valid) xs -> all_valid valid xs = Ok tt)
  /\ (~ Forall (fun x => x ∈ valid) xs -> all_valid valid xs = Raise ValueError).
Proof.
  induction xs as [|x rest [IHok IHbad]]; cbn.
  - split; [reflexivity|]. intros Hc. exfalso. apply Hc. constructor.
  - destruct (bool_decide (x ∈ valid)) eqn:Hx.
    + apply bool_decide_eq_true_1 in Hx. split.
      * intros Hall. apply IHok. now inversion Hall.
      * intros Hnot. apply IHbad. intros Hrest. apply Hnot. now constructor.
    + apply bool_decide_eq_false_1 in Hx. split; [|reflexivity].
      intros Hall. inversion Hall. contradiction.
Qed.


(** X18.  The arguments are checked before anything else happens.  If
    [tiers] or [divisions] is not a list the call raises [TypeError],
    even when the other argument holds an unknown name; if both are
    lists (or left out) and one holds a name that is not a tier or not
    a division, the call raises [ValueError]; in both cases no request
    was sent and the state is untouched.  The divisions are checked
    even when only CHALLENGER is asked for.  Otherwise the loops run on
    the lists as given. *)
Theorem stage1_validates_before_fetching (fuel : nat) (tiers divisions : argument)
        (s : state) :
  (tiers = NotAList \/ divisions = NotAList ->
   _collect_summoner_entries_by_tier api page_limit date fuel tiers divisions s
   = (s, Raise TypeError))
  /\ (forall ts ds,
        defaulted tiers valid_tiers = Some ts ->
        defaulted divisions valid_divisions = Some ds ->
        (~ (Forall (fun t => t ∈ valid_tiers) ts
            /\ Forall (fun d => d ∈ valid_divisions) ds) ->
         _collect_summoner_entries_by_tier api page_limit date fuel
                                           tiers divisions s
         = (s, Raise ValueError))
        /\ (Forall (fun t => t ∈ valid_tiers) ts ->
            Forall (fun d => d ∈ valid_divisions) ds ->
            validate tiers divisions = Ok (ts, ds)
            /\ _collect_summoner_entries_by_tier api page_limit date fuel
                                                 tiers divisions s
               = tiers_loop api page_limit date fuel ts ds s)).
Proof.
  unfold _collect_summoner_entries_by_tier, validate. split.
  - intros [-> | ->]; [reflexivity|]. now destruct tiers.
  - intros ts ds -> ->.
    destruct (all_valid_spec valid_tiers ts) as [Htok Htbad].
    destruct (all_valid_spec valid_divisions ds) as [Hdok Hdbad].
    split.
    + intros Hnot.
      destruct (decide (Forall (fun t => t ∈ valid_tiers) ts)) as [Ht|Ht].
      * rewrite (Htok Ht), Hdbad; [reflexivity|]. intros Hd. now apply Hnot.
      * now rewrite (Htbad Ht).
    + intros Ht Hd. now rewrite (Htok Ht), (Hdok Hd).
Qed.

(** The stage from its first [while] loop on. *)
Lemma stage_first_loop (fuel : nat) (tiers divisions : argument)
      (ts ds : list string) (tier : string) (division : option string)
      (rest : list (string * option string)) (s : state) :
  validate tiers divisions = Ok (ts, ds) ->
  loops ts ds = (tier, division) :: rest ->
  _collect_summoner_entries_by_tier api page_limit date (S fuel) tiers divisions s
  = (b <- iteration api date tier division 1 ;;
     o <- (if b then ret Finished
           else if last_page page_limit 1 then ret Finished
                else pages fuel tier division 2) ;;
     match o with
     | OutOfFuel => ret OutOfFuel
     | Finished => run (S fuel) rest
     end) s.
Proof.
  intros Hv Hl. unfold _collect_summoner_entries_by_tier. rewrite Hv.
  rewrite tiers_loop_flat, Hl. cbn [run_loops]. unfold bind at 1.
  rewrite pages_loop_step. unfold bind.
  destruct (iteration api date tier division 1 s) as [s1 [[|]|e]]; reflexivity.
Qed.

(** X19.  When the very first request fails, [summoner_entries] is read
    unbound: the emptiness test raises, the handler is entered and
    itself raises [UnboundLocalError], which ends the call.  In the
    CHALLENGER branch the handler fails on [type(summoner_entries)]
    before it logs; in the other branch it logs the first line and fails
    on the second.  Nothing is written, and no other request is sent. *)
Theorem stage1_first_request_fails (fuel : nat) (tiers divisions : argument)
        (ts ds : list string) (tier : string) (division : option string)
        (rest : list (string * option string)) (e : exn)
        (t : list summoner_row) :
  validate tiers divisions = Ok (ts, ds) ->
  loops ts ds = (tier, division) :: rest ->
  api tier division 1 = Raise e ->
  _collect_summoner_entries_by_tier api page_limit date (S fuel) tiers divisions
                                    (initial t)
  = ({| Summoners_Table := t;
        log := [Requested tier division 1; ApiFailed]
               ++ match division with
                  | None => []
                  | Some _ => [Unexpected Unbound]
                  end;
        summoner_entries := None;
        type_of_entries := false;
        current_division := None |}, Raise UnboundLocalError).
Proof.
  intros Hv Hl Hapi. rewrite (stage_first_loop _ _ _ _ _ _ _ _ _ Hv Hl).
  unfold bind at 1. unfold iteration, fetch. rewrite Hapi.
  destruct division; reflexivity.
Qed.

(** X20.  When the first answer is a JSON object.  In the CHALLENGER
    branch the object is iterated, a key is subscripted with ["puuid"]
    and the call ends with [TypeError].  For another tier: if
    [.get("stats", 0)] gives nothing with a [get], the handler is
    entered and raises [UnboundLocalError] on the unbound
    [type_of_entries]; if the status code is 200 the object is iterated
    and the call ends with [TypeError]; with any other status code, or
    none, the loop of this division ends and the next loop starts.
    Nothing is written in any case. *)
Theorem stage1_object_answer (fuel : nat) (tiers divisions : argument)
        (ts ds : list string) (tier : string) (division : option string)
        (rest : list (string * option string)) (stats : option (option Z))
        (t : list summoner_row) :
  validate tiers divisions = Ok (ts, ds) ->
  loops ts ds = (tier, division) :: rest ->
  api tier division 1 = Ok (Envelope stats) ->
  let answered l :=
    {| Summoners_Table := t;
       log := Requested tier division 1 :: l;
       summoner_entries := Some (Envelope stats);
       type_of_entries := false;
       current_division := None |} in
  _collect_summoner_entries_by_tier api page_limit date (S fuel) tiers divisions
                                    (initial t)
  = match division, stats with
    | None, _ => (answered [], Raise TypeError)
    | Some _, None => (answered [Unexpected NoAttribute], Raise UnboundLocalError)
    | Some _, Some status_code =>
        if default 0 status_code =? 200
        then (answered [], Raise TypeError)
        else run (S fuel) rest (answered [])
    end.
Proof.
  intros Hv Hl Hapi answered. erewrite stage_first_loop; [|exact Hv|exact Hl].
  unfold bind at 1. unfold iteration, fetch. rewrite Hapi.
  destruct division as [d|], stats as [status_code|]; try reflexivity.
  cbn -[run_loops pages_loop Z.eqb].
  destruct (default 0 status_code =? 200); reflexivity.
Qed.

Lemma requests_say (e : log_entry) (s : state) :
  requests (fst (say e s))
  = requests s ++ match e with
                  | Requested tier division p => [(tier, division, p)]
                  | _ => []
                  end.
Proof.
  unfold requests, say, modify. cbn. rewrite flat_map_app. cbn.
  now rewrite app_nil_r.
Qed.

(** An iteration sends one request. *)
Lemma iteration_requests (tier : string) (division : option string) (p : Z)
      (s : state) :
  requests (fst (iteration api date tier division p s))
  = requests s ++ [(tier, division, p)].
Proof.
  pose proof (requests_say (Requested tier division p) s) as Hsay.
  unfold iteration, fetch. unfold bind at 1 2.
  destruct (say (Requested tier division p) s) as [s0 [[]|e]] eqn:Hs0;
    [|discriminate Hs0].
  cbn [fst] in Hsay. rewrite <- Hsay. clear Hsay Hs0 s.
  assert (Hrest : forall s1 : state,
             requests (fst ((page <- collect ;;
                             store date tier p page ;;; ret false) s1))
             = requests s1).
  { intros [T l se ty cd]. unfold collect, read_entries, bind. cbn.
    destruct se as [[|page|stats]|]; try reflexivity.
    unfold store.
    destruct (last page); cbn; rewrite insert_page_ok; cbn;
      try (destruct cd; cbn); unfold requests; cbn;
      rewrite ?flat_map_app; cbn; now rewrite ?app_nil_r. }
  assert (Hfetch : forall s1,
             requests (fst (match api tier division p with
                            | Ok r => assign_entries r
                            | Raise _ => say ApiFailed
                            end s1)) = requests s1).
  { intros s1. destruct (api tier division p); [reflexivity|].
    rewrite requests_say. now rewrite app_nil_r. }
  specialize (Hfetch s0).
  destruct (match api tier division p with
            | Ok r => assign_entries r
            | Raise _ => say ApiFailed
            end s0) as [s1 [[]|e]] eqn:Hs1.
  2:{ destruct (api tier division p); discriminate Hs1. }
  cbn [fst] in Hfetch. rewrite <- Hfetch. clear Hfetch Hs1 s0.
  unfold bind at 1.
  destruct (match division with
            | None => guard_challenger (summoner_entries s1)
            | Some _ => guard_division (summoner_entries s1)
            end) as [| |f]; [reflexivity|apply Hrest|].
  unfold bind at 1.
  assert (Hh : requests (fst (match division with
                              | None => handler_challenger f
                              | Some _ => handler_division f
                              end s1)) = requests s1).
  { destruct s1 as [T l [r|] [|] cd]; destruct division; cbn;
      unfold requests; cbn; rewrite ?flat_map_app; cbn;
      now rewrite ?app_nil_r. }
  destruct (match division with
            | None => handler_challenger f
            | Some _ => handler_division f
            end s1) as [s2 [[]|e]]; [|exact Hh].
  cbn [fst] in Hh. rewrite <- Hh. apply Hrest.
Qed.

Lemma asked_refl (s : state) : asked 0 s s.
Proof. exists []. now rewrite app_nil_r. Qed.

Lemma asked_trans (n m : nat) (s1 s2 s3 : state) :
  asked n s1 s2 -> asked m s2 s3 -> asked (n + m) s1 s3.
Proof.
  intros [l1 [H1 L1]] [l2 [H2 L2]]. exists (l1 ++ l2).
  rewrite H2, H1, <- app_assoc, length_app. split; [reflexivity|lia].
Qed.

Lemma asked_more (n m : nat) (s s' : state) :
  (n <= m)%nat -> asked n s s' -> asked m s s'.
Proof. intros Hle [l [Hl Hn]]. exists l. split; [exact Hl|lia]. Qed.

Lemma iteration_asked (tier : string) (division : option string) (p : Z)
      (s : state) :
  asked 1 s (fst (iteration api date tier division p s)).
Proof. exists [(tier, division, p)]. now rewrite iteration_requests. Qed.

(** With a page limit a [while] loop ends by itself. *)
Lemma pages_loop_limited (fuel : nat) (tier : string) (division : option string)
      (p : Z) (s : state) :
  p <= page_limit -> page_limit <> -1 ->
  (Z.to_nat (page_limit - p + 1) <= fuel)%nat ->
  snd (pages fuel tier division p s) <> Ok OutOfFuel
  /\ asked (Z.to_nat (page_limit - p + 1)) s (fst (pages fuel tier division p s)).
Proof.
  revert p s. induction fuel as [|fuel IH]; intros p s Hp Hno Hfuel; [lia|].
  rewrite pages_loop_step. unfold bind.
  pose proof (iteration_asked tier division p s) as Hone.
  destruct (iteration api date tier division p s) as [s1 [[|]|e]];
    cbn [fst snd] in *.
  - split; [discriminate|]. eapply asked_more; [|exact Hone]. lia.
  - unfold last_page. destruct (page_limit =? p) eqn:Hlast.
    + rewrite (proj2 (Z.eqb_neq page_limit (-1)) Hno).
      split; [discriminate|]. eapply asked_more; [|exact Hone]. lia.
    + rewrite andb_false_r. apply Z.eqb_neq in Hlast.
      destruct (IH (p + 1) s1) as [Hout Hasked]; [lia|exact Hno|lia|].
      split; [exact Hout|].
      eapply asked_more; [|eapply asked_trans; [exact Hone|exact Hasked]]. lia.
  - split; [discriminate|]. eapply asked_more; [|exact Hone]. lia.
Qed.

Lemma run_loops_limited (fuel : nat) (ls : list (string * option string))
      (s : state) :
  1 <= page_limit -> (Z.to_nat page_limit <= fuel)%nat ->
  snd (run fuel ls s) <> Ok OutOfFuel
  /\ asked (length ls * Z.to_nat page_limit) s (fst (run fuel ls s)).
Proof.
  intros Hpl Hfuel. revert s. induction ls as [|[tier division] rest IH]; intros s.
  - split; [discriminate|apply asked_refl].
  - cbn [run_loops]. unfold bind.
    destruct (pages_loop_limited fuel tier division 1 s) as [Hout Hasked];
      [lia|lia|replace (page_limit - 1 + 1) with page_limit by lia; exact Hfuel|].
    replace (page_limit - 1 + 1) with page_limit in Hasked by lia.
    destruct (pages fuel tier division 1 s) as [s1 [[|]|e]]; cbn [fst snd] in *.
    + destruct (IH s1) as [Hout' Hasked']. split; [exact Hout'|].
      cbn [length]. eapply asked_more; [|eapply asked_trans; [exact Hasked|exact Hasked']].
      lia.
    + congruence.
    + split; [discriminate|]. eapply asked_more; [|exact Hasked]. cbn [length]. lia.
Qed.

(** X21.  A page limit of at least 1 bounds every [while] loop: whatever
    the API answers, a loop is left after at most [page_limit]
    iterations, so the call ends, and it has sent at most [page_limit]
    requests for the CHALLENGER tier and for each division of each
    other tier. *)
Theorem page_limit_bounds_the_requests (fuel : nat) (tiers divisions : argument)
        (ts ds : list string) (s : state) :
  1 <= page_limit -> (Z.to_nat page_limit <= fuel)%nat ->
  validate tiers divisions = Ok (ts, ds) ->
  snd (_collect_summoner_entries_by_tier api page_limit date fuel
                                         tiers divisions s) <> Ok OutOfFuel
  /\ asked (length (loops ts ds) * Z.to_nat page_limit) s
           (fst (_collect_summoner_entries_by_tier api page_limit date fuel
                                                   tiers divisions s)).
Proof.
  intros Hpl Hfuel Hv. unfold _collect_summoner_entries_by_tier. rewrite Hv.
  rewrite tiers_loop_flat. now apply run_loops_limited.
Qed.

End Stage.

Section Limit.
Variable api : string -> option string -> Z -> result response.
Variable date : string.

Lemma pages_loop_unlimited (page_limit : Z) (fuel : nat) (tier : string)
      (division : option string) (p : Z) (s : state) :
  page_limit <= 0 -> 1 <= p ->
  pages_loop api page_limit date fuel tier division p s
  = pages_loop api (-1) date fuel tier division p s.
Proof.
  intros Hpl. revert p s. induction fuel as [|fuel IH]; intros p s Hp;
    [reflexivity|].
  rewrite !pages_loop_step. unfold bind.
  destruct (iteration api date tier division p s) as [s1 [[|]|e]];
    [reflexivity| |reflexivity].
  unfold last_page. cbn [Z.eqb negb andb].
  rewrite (proj2 (Z.eqb_neq page_limit p)) by lia. rewrite andb_false_r.
  apply IH. lia.
Qed.

Lemma run_loops_unlimited (page_limit : Z) (fuel : nat)
      (ls : list (string * option string)) (s : state) :
  page_limit <= 0 ->
  run_loops api page_limit date fuel ls s = run_loops api (-1) date fuel ls s.
Proof.
  intros Hpl. revert s. induction ls as [|[tier division] rest IH]; intros s;
    [reflexivity|].
  cbn [run_loops]. unfold bind. rewrite pages_loop_unlimited by lia.
  destruct (pages_loop api (-1) date fuel tier division 1 s) as [s1 [[|]|e]];
    [apply IH|reflexivity|reflexivity].
Qed.

(** X22.  Only a page limit of at least 1 limits anything.  The test is
    [page_limit != -1 and page_limit == pages] with [pages] counting
    from 1, so a limit of 0, or any negative one, is never reached: the
    call runs exactly as with the default [-1]. *)
Theorem page_limit_below_one_is_no_limit (page_limit : Z) (fuel : nat)
        (tiers divisions : argument) (s : state) :
  page_limit <= 0 ->
  _collect_summoner_entries_by_tier api page_limit date fuel tiers divisions s
  = _collect_summoner_entries_by_tier api (-1) date fuel tiers divisions s.
Proof.
  intros Hpl. unfold _collect_summoner_entries_by_tier.
  destruct (validate tiers divisions) as [[ts ds]|e]; [|reflexivity].
  rewrite !tiers_loop_flat. now apply run_loops_unlimited.
Qed.

End Limit.

Section Spin.
Variable api : string -> option string -> Z -> result response.
Variable page_limit : Z.
Variable date : string.

Abbreviation pages := (pages_loop api page_limit date).

Lemma insert_page_twice (page : list summoner) (t : list summoner_row) :
  fst (insert_page date page (fst (insert_page date page t)))
  = fst (insert_page date page t).
Proof.
  destruct (StoreFacts.stage1_page_idempotent date page t) as [t' [-> [Ht' _]]].
  cbn [fst]. now rewrite Ht'.
Qed.

Lemma last_page_unlimited (p : Z) :
  page_limit <= 0 -> 1 <= p -> last_page page_limit p = false.
Proof.
  intros Hpl Hp. unfold last_page.
  rewrite (proj2 (Z.eqb_neq page_limit p)) by lia. apply andb_false_r.
Qed.

(** With a page left in [summoner_entries], no page limit and an API
    that only fails, the loop goes on for as long as it is let. *)
Lemma pages_loop_spins (tier : string) (division : option string)
      (page : list summoner) (last_one : summoner) (fuel : nat) (p : Z)
      (s : state) :
  page_limit <= 0 -> 1 <= p ->
  last page = Some last_one ->
  summoner_entries s = Some (Entries page) ->
  (forall q, p <= q -> exists e, api tier division q = Raise e) ->
  exists s',
    pages fuel tier division p s = (s', Ok OutOfFuel)
    /\ Summoners_Table s'
       = match fuel with
         | O => Summoners_Table s
         | S _ => fst (insert_page date page (Summoners_Table s))
         end
    /\ requests s'
       = requests s ++ map (fun i => (tier, division, p + Z.of_nat i)) (seq 0 fuel)
    /\ (forall e, e ∈ log s -> e ∈ log s')
    /\ forall i, (i < fuel)%nat ->
                 InsertSuccessful tier (s_rank last_one) (p + Z.of_nat i) ∈ log s'.
Proof.
  intros Hpl Hp Hlast. revert p s Hp.
  induction fuel as [|fuel IH]; intros p s Hp Hs Hfail.
  - exists s. cbn. rewrite app_nil_r. repeat split; auto. intros i Hi. lia.
  - assert (Hne : page <> []) by (intros ->; discriminate Hlast).
    destruct (iteration_page api date tier division p s page Hne)
      as [s1 [x [Hit [Hx [Ht1 [Hl1 [He1 _]]]]]]].
    { destruct (Hfail p) as [e ->]; [lia|exact Hs]. }
    assert (x = last_one) by congruence. subst x.
    destruct (IH (p + 1) s1) as [s' [Hrun [Ht' [Hr' [Hlog' Hins']]]]];
      [lia|exact He1|intros q Hq; apply Hfail; lia|].
    exists s'. rewrite pages_loop_step. unfold bind. rewrite Hit.
    rewrite last_page_unlimited by lia. split; [exact Hrun|].
    assert (Hsub : forall e, e ∈ log s1 ->  e ∈ log s').
    { exact Hlog'. }
    split; [|split; [|split]].
    + rewrite Ht', Ht1. destruct fuel; [reflexivity|apply insert_page_twice].
    + rewrite Hr'.
      pose proof (iteration_requests api date tier division p s) as Hreq.
      rewrite Hit in Hreq. cbn [fst] in Hreq. rewrite Hreq, <- app_assoc.
      f_equal. cbn [seq map app]. rewrite Z.add_0_r. f_equal.
      rewrite <- seq_shift, map_map. apply map_ext. intros i. f_equal. lia.
    + intros e He. apply Hsub. rewrite Hl1. apply elem_of_app. now left.
    + intros [|i] Hi.
      * apply Hsub. rewrite Hl1, Z.add_0_r. rewrite !elem_of_app.
        right. right. right. apply list_elem_of_here.
      * replace (p + Z.of_nat (S i)) with (p + 1 + Z.of_nat i) by lia.
        apply Hins'. lia.
Qed.

(** X23.  Without a page limit a failing API keeps the loop going.  If
    the first request of the first loop answers a non-empty page and
    every later request of that loop fails, the page stays in
    [summoner_entries]: each iteration logs the failure, sends the same
    rows again and logs "Insert successful" under the next page number.
    The loop never ends: however many iterations the model is given, it
    uses them all, having sent one request per iteration and written
    the one page. *)
Theorem stage1_spins_on_failing_api (fuel : nat) (tiers divisions : argument)
        (ts ds : list string) (tier : string) (division : option string)
        (rest : list (string * option string)) (page : list summoner)
        (last_one : summoner) (t : list summoner_row) :
  page_limit <= 0 ->
  validate tiers divisions = Ok (ts, ds) ->
  loops ts ds = (tier, division) :: rest ->
  api tier division 1 = Ok (Entries page) ->
  last page = Some last_one ->
  (forall q, 2 <= q -> exists e, api tier division q = Raise e) ->
  exists s',
    _collect_summoner_entries_by_tier api page_limit date fuel tiers divisions
                                      (initial t) = (s', Ok OutOfFuel)
    /\ Summoners_Table s'
       = match fuel with
         | O => t
         | S _ => fst (insert_page date page t)
         end
    /\ requests s' = map (fun i => (tier, division, 1 + Z.of_nat i)) (seq 0 fuel)
    /\ forall i, (i < fuel)%nat ->
                 InsertSuccessful tier (s_rank last_one) (1 + Z.of_nat i) ∈ log s'.
Proof.
  intros Hpl Hv Hl Hapi Hlast Hfail. destruct fuel as [|fuel].
  - exists (initial t). unfold _collect_summoner_entries_by_tier. rewrite Hv.
    rewrite tiers_loop_flat, Hl. repeat split; auto. intros i Hi. lia.
  - erewrite stage_first_loop; [|exact Hv|exact Hl].
    assert (Hne : page <> []) by (intros ->; discriminate Hlast).
    destruct (iteration_page api date tier division 1 (initial t) page Hne)
      as [s1 [x [Hit [Hx [Ht1 [Hl1 [He1 _]]]]]]]; [now rewrite Hapi|].
    assert (x = last_one) by congruence. subst x.
    destruct (pages_loop_spins tier division page last_one fuel 2 s1)
      as [s' [Hrun [Ht' [Hr' [Hlog' Hins']]]]]; try assumption; [lia|].
    exists s'. unfold bind at 1. rewrite Hit. unfold bind at 1.
    rewrite last_page_unlimited by lia. rewrite Hrun.
    split; [reflexivity|]. split; [|split].
    + rewrite Ht', Ht1. cbn [initial Summoners_Table].
      destruct fuel; [reflexivity|apply insert_page_twice].
    + rewrite Hr'.
      pose proof (iteration_requests api date tier division 1 (initial t)) as Hreq.
      rewrite Hit in Hreq. cbn [fst] in Hreq. rewrite Hreq.
      cbn [seq map app initial requests log flat_map]. f_equal.
      rewrite <- seq_shift, map_map. apply map_ext. intros i. f_equal. lia.
    + intros [|i] Hi.
      * apply Hlog'. rewrite Hl1, Hapi. cbn.
        apply list_elem_of_further, list_elem_of_here.
      * replace (1 + Z.of_nat (S i)) with (2 + Z.of_nat i) by lia.
        apply Hins'. lia.
Qed.
End Spin.

Section Handlers.
Variable api : string -> option string -> Z -> result response.
Variable page_limit : Z.
Variable date : string.

Abbreviation stays := (fun s s' : state => undiagnosed s -> undiagnosed s').

Lemma stays_refl (s : state) : stays s s.
Proof. intros Hs. exact Hs. Qed.

Lemma stays_trans (s1 s2 s3 : state) : stays s1 s2 -> stays s2 s3 -> stays s1 s3.
Proof. intros H12 H23 Hs. apply H23, H12, Hs. Qed.

Lemma say_stays (e : log_entry) : e <> EntriesInfo -> post stays (say e).
Proof.
  intros He s [Hty Hlog]. split; [exact Hty|]. cbn.
  rewrite elem_of_app, list_elem_of_singleton. intros [Hin | Heq]; auto.
Qed.

Lemma fetch_stays (tier : string) (division : option string) (p : Z) :
  post stays (fetch api tier division p).
Proof.
  unfold fetch. apply (PostFacts.post_bind _ stays_trans);
    [now apply say_stays|intros _].
  destruct (api tier division p); [|now apply say_stays].
  intros s Hs. exact Hs.
Qed.

Lemma collect_stays : post stays collect.
Proof.
  intros [T l [[|page|stats]|] ty cd] Hs; try exact Hs.
  unfold collect, read_entries, bind. cbn. now destruct (last page).
Qed.

Lemma store_stays (tier : string) (p : Z) (page : list summoner) :
  post stays (store date tier p page).
Proof.
  intros [T l se ty cd] [Hty Hlog]. cbn in Hty, Hlog.
  unfold store. cbn [Summoners_Table].
  rewrite insert_page_ok. destruct cd; cbn; split; cbn; try assumption.
  rewrite elem_of_app, list_elem_of_singleton.
  intros [Hin | Heq]; [auto|discriminate].
Qed.

(** An entered handler does not get to its last line. *)
Lemma handler_raises (division : option string) (f : fault) (s : state) :
  undiagnosed s ->
  match division with
  | None => guard_challenger (summoner_entries s)
  | Some _ => guard_division (summoner_entries s)
  end = Fault f ->
  exists s', match division with
             | None => handler_challenger f
             | Some _ => handler_division f
             end s = (s', Raise UnboundLocalError)
             /\ undiagnosed s'
             /\ Summoners_Table s' = Summoners_Table s.
Proof.
  destruct s as [T l se ty cd]. intros [Hty Hlog] Hg. cbn in Hty, Hlog, Hg.
  subst ty. destruct division as [d|].
  - eexists. split; [reflexivity|]. split; [|reflexivity]. split; [reflexivity|].
    cbn. rewrite elem_of_app, list_elem_of_singleton.
    intros [Hin | Heq]; [auto|discriminate].
  - destruct se as [r|]; [cbn in Hg; destruct (is_empty r); discriminate|].
    eexists. split; [reflexivity|]. now split.
Qed.

Lemma iteration_stays (tier : string) (division : option string) (p : Z) :
  post stays (iteration api date tier division p).
Proof.
  intros s Hs. unfold iteration, bind.
  pose proof (fetch_stays tier division p s Hs) as H1.
  destruct (fetch api tier division p s) as [s1 [[]|e]]; cbn [fst] in *;
    [|exact H1].
  destruct (match division with
            | None => guard_challenger (summoner_entries s1)
            | Some _ => guard_division (summoner_entries s1)
            end) as [| |f] eqn:Hg.
  - exact H1.
  - pose proof (collect_stays s1 H1) as H2.
    destruct (collect s1) as [s2 [page|e]]; cbn [fst] in *; [|exact H2].
    pose proof (store_stays tier p page s2 H2) as H3.
    destruct (store date tier p page s2) as [s3 [[]|e]]; exact H3.
  - destruct (handler_raises division f s1 H1 Hg) as [s2 [-> [H2 _]]]. exact H2.
Qed.

Lemma pages_loop_stays (fuel : nat) (tier : string) (division : option string)
      (p : Z) :
  post stays (pages_loop api page_limit date fuel tier division p).
Proof.
  revert p. induction fuel as [|fuel IH]; intros p; [intros s Hs; exact Hs|].
  intros s. rewrite pages_loop_step. revert s.
  apply (PostFacts.post_bind _ stays_trans); [apply iteration_stays|].
  intros [|]; [intros s Hs; exact Hs|].
  destruct (last_page page_limit p); [intros s Hs; exact Hs|apply IH].
Qed.

(** X24.  The diagnostic line of the two handlers is dead.  On answers
    that are [None], a list of entries or a JSON object, the handler of
    the CHALLENGER branch is entered only with [summoner_entries]
    unbound and fails on [type(summoner_entries)]; the handler of the
    other branch fails on [type_of_entries], which only the first
    handler assigns.  So, from the start of a call to its end,
    [type_of_entries] stays unbound and "Summoner Entries DataType" is
    never logged. *)
Theorem stage1_handlers_never_report (fuel : nat) (tiers divisions : argument)
        (t : list summoner_row) :
  undiagnosed
    (fst (_collect_summoner_entries_by_tier api page_limit date fuel
                                            tiers divisions (initial t))).
Proof.
  assert (Hinit : undiagnosed (initial t)).
  { split; [reflexivity|]. cbn. apply not_elem_of_nil. }
  revert Hinit. generalize (initial t). intros s.
  unfold _collect_summoner_entries_by_tier.
  destruct (validate tiers divisions) as [[ts ds]|e]; [|auto].
  rewrite tiers_loop_flat. generalize (loops ts ds). intros ls. revert s.
  induction ls as [|[tier division] rest IH]; intros s Hs; [exact Hs|].
  cbn [run_loops]. unfold bind.
  pose proof (pages_loop_stays fuel tier division 1 s Hs) as H1.
  destruct (pages_loop api page_limit date fuel tier division 1 s)
    as [s1 [[|]|e]]; cbn [fst] in *; [now apply IH|exact H1|exact H1].
Qed.

End Handlers.

Section Divisions.
Variable api : string -> option string -> Z -> result response.
Variable page_limit : Z.
Variable date : string.

Abbreviation challengers :=
  (fun ts : list string => filter (fun t => t = "CHALLENGER") ts).

Lemma loops_challengers (ts ds : list string) :
  loops (challengers ts) ds = map (fun t => (t, None)) (challengers ts).
Proof.
  induction ts as [|t ts IH]; [reflexivity|].
  destruct (decide (t = "CHALLENGER")) as [Ht|Ht].
  - rewrite filter_cons_True by exact Ht. unfold loops. cbn [flat_map map].
    rewrite bool_decide_eq_true_2 by exact Ht. cbn [app]. f_equal. exact IH.
  - rewrite filter_cons_False by exact Ht. exact IH.
Qed.

Lemma loops_no_division (ts : list string) :
  loops ts [] = map (fun t => (t, None)) (challengers ts).
Proof.
  induction ts as [|t ts IH]; [reflexivity|].
  unfold loops. cbn [flat_map]. fold (loops ts []). rewrite IH.
  destruct (decide (t = "CHALLENGER")) as [Ht|Ht].
  - rewrite filter_cons_True by exact Ht.
    now rewrite bool_decide_eq_true_2 by exact Ht.
  - rewrite filter_cons_False by exact Ht.
    now rewrite bool_decide_eq_false_2 by exact Ht.
Qed.

Lemma validate_valid (tiers divisions : argument) (ts ds : list string) :
  defaulted tiers valid_tiers = Some ts ->
  defaulted divisions valid_divisions = Some ds ->
  Forall (fun t => t ∈ valid_tiers) ts ->
  Forall (fun d => d ∈ valid_divisions) ds ->
  validate tiers divisions = Ok (ts, ds).
Proof.
  intros Ht Hd Hts Hds. unfold validate. rewrite Ht, Hd.
  rewrite (proj1 (all_valid_spec valid_tiers ts) Hts).
  now rewrite (proj1 (all_valid_spec valid_divisions ds) Hds).
Qed.

(** X25.  Divisions only matter below CHALLENGER.  With an empty list
    of divisions the tiers other than CHALLENGER are passed over
    without a request, and for CHALLENGER the divisions play no part:
    a call with tiers [ts] and no division runs exactly as the call
    with the CHALLENGER entries of [ts] alone and any valid divisions. *)
Theorem divisions_only_matter_below_challenger (fuel : nat) (ts ds : list string)
        (divisions : argument) (s : state) :
  Forall (fun t => t ∈ valid_tiers) ts ->
  defaulted divisions valid_divisions = Some ds ->
  Forall (fun d => d ∈ valid_divisions) ds ->
  _collect_summoner_entries_by_tier api page_limit date fuel
                                    (Listed ts) (Listed []) s
  = _collect_summoner_entries_by_tier api page_limit date fuel
                                      (Listed (challengers ts)) divisions s.
Proof.
  intros Hts Hd Hds. unfold _collect_summoner_entries_by_tier.
  rewrite (validate_valid (Listed ts) (Listed []) ts [] eq_refl eq_refl Hts
                          (Forall_nil_2 _)).
  rewrite (validate_valid (Listed (challengers ts)) divisions (challengers ts) ds
                          eq_refl Hd).
  - now rewrite !tiers_loop_flat, loops_no_division, loops_challengers.
  - apply Forall_forall. intros t Ht. apply list_elem_of_filter in Ht.
    rewrite Forall_forall in Hts. apply Hts. tauto.
  - exact Hds.
Qed.

End Divisions.

Section Blind.
Variable api : string -> option string -> Z -> result response.
Variable page_limit : Z.
Variable date : string.

Lemma alike_refl (s : state) : alike s s.
Proof. now repeat split. Qed.

Lemma store_pages_app (ps qs : list (list summoner)) (t : list summoner_row) :
  store_pages date (ps ++ qs) t = store_pages date qs (store_pages date ps t).
Proof. apply fold_left_app. Qed.

Lemma blind_ret {A} (a : A) : blind date (ret a).
Proof. intros s1 s2 H12. repeat split; try apply H12. now exists []. Qed.

Lemma blind_raise {A} (e : exn) : blind date (raise e : M state A).
Proof. intros s1 s2 H12. repeat split; try apply H12. now exists []. Qed.

Lemma blind_bind {A B} (c : M state A) (k : A -> M state B) :
  blind date c -> (forall a, blind date (k a)) -> blind date (bind c k).
Proof.
  intros Hc Hk s1 s2 H12. unfold bind.
  destruct (Hc s1 s2 H12) as [Hr [Ha [ps [Hp1 Hp2]]]].
  destruct (c s1) as [s1' [a|e]], (c s2) as [s2' [a'|e']];
    cbn [fst snd] in *; try discriminate.
  - injection Hr as <-.
    destruct (Hk a s1' s2' Ha) as [Hr' [Ha' [qs [Hq1 Hq2]]]].
    split; [exact Hr'|]. split; [exact Ha'|].
    exists (ps ++ qs). rewrite !store_pages_app, <- Hp1, <- Hp2. now split.
  - injection Hr as <-. split; [reflexivity|]. split; [exact Ha|]. now exists ps.
Qed.

(** A statement that leaves the table alone and is run by the locals. *)
Lemma blind_local {A} (c : M state A) :
  (forall l se ty cd,
      exists l' se' ty' cd' r,
        forall T, c {| Summoners_Table := T; log := l; summoner_entries := se;
                       type_of_entries := ty; current_division := cd |}
                  = ({| Summoners_Table := T; log := l'; summoner_entries := se';
                        type_of_entries := ty'; current_division := cd' |}, r)) ->
  blind date c.
Proof.
  intros Hc [T1 l se ty cd] [T2 l2 se2 ty2 cd2] [Hl [Hse [Hty Hcd]]].
  cbn in Hl, Hse, Hty, Hcd. subst l2 se2 ty2 cd2.
  destruct (Hc l se ty cd) as [l' [se' [ty' [cd' [r Heq]]]]].
  rewrite (Heq T1), (Heq T2). cbn. split; [reflexivity|].
  split; [now repeat split|]. now exists [].
Qed.

Ltac local :=
  eexists _, _, _, _, _; intros T;
  cbv [say assign_entries assign_type assign_division read_entries read_type
       read_division handler_challenger handler_division bind modify ret raise];
  cbn; reflexivity.

Lemma blind_say (e : log_entry) : blind date (say e).
Proof. apply blind_local. intros. local. Qed.

Lemma blind_fetch (tier : string) (division : option string) (p : Z) :
  blind date (fetch api tier division p).
Proof.
  apply blind_local. intros. unfold fetch.
  destruct (api tier division p); local.
Qed.

Lemma blind_collect : blind date collect.
Proof.
  apply blind_local. intros l se ty cd. unfold collect, read_entries, bind.
  destruct se as [[|page|stats]|]; cbn; try (local).
  destruct (last page); local.
Qed.

Lemma blind_handler (division : option string) (f : fault) :
  blind date (match division with
              | None => handler_challenger f
              | Some _ => handler_division f
              end).
Proof.
  apply blind_local. intros l se ty cd.
  destruct division, se, ty; local.
Qed.

Lemma blind_store (tier : string) (p : Z) (page : list summoner) :
  blind date (store date tier p page).
Proof.
  intros [T1 l se ty cd] [T2 l2 se2 ty2 cd2] [Hl [Hse [Hty Hcd]]].
  cbn in Hl, Hse, Hty, Hcd. subst l2 se2 ty2 cd2.
  unfold store. cbn [Summoners_Table].
  rewrite (insert_page_ok date page T1), (insert_page_ok date page T2).
  destruct cd; cbn; (split; [reflexivity|]); (split; [now repeat split|]);
    now exists [page].
Qed.

Lemma blind_iteration (tier : string) (division : option string) (p : Z) :
  blind date (iteration api date tier division p).
Proof.
  unfold iteration. apply blind_bind; [apply blind_fetch|intros _].
  assert (Hrest : blind date (page <- collect ;;
                              store date tier p page ;;; ret false)).
  { apply blind_bind; [apply blind_collect|intros page].
    apply blind_bind; [apply blind_store|intros _]. apply blind_ret. }
  apply blind_bind.
  - apply blind_local. intros. local.
  - intros [| |f]; [apply blind_ret|exact Hrest|].
    apply blind_bind; [apply blind_handler|intros _; exact Hrest].
Qed.

Lemma blind_ext {A} (c c' : M state A) :
  (forall s, c s = c' s) -> blind date c' -> blind date c.
Proof. intros Heq Hc s1 s2 H12. rewrite !Heq. now apply Hc. Qed.

Lemma blind_pages_loop (fuel : nat) (tier : string) (division : option string)
      (p : Z) :
  blind date (pages_loop api page_limit date fuel tier division p).
Proof.
  revert p. induction fuel as [|fuel IH]; intros p; [apply blind_ret|].
  apply (blind_ext _ (b <- iteration api date tier division p ;;
                      if b then ret Finished
                      else if last_page page_limit p then ret Finished
                           else pages_loop api page_limit date fuel tier
                                           division (p + 1)));
    [intros s; apply pages_loop_step|].
  apply blind_bind; [apply blind_iteration|].
  intros [|]; [apply blind_ret|].
  destruct (last_page page_limit p); [apply blind_ret|apply IH].
Qed.

Lemma blind_stage (fuel : nat) (tiers divisions : argument) :
  blind date (_collect_summoner_entries_by_tier api page_limit date fuel
                                                tiers divisions).
Proof.
  unfold _collect_summoner_entries_by_tier.
  destruct (validate tiers divisions) as [[ts ds]|e]; [|apply blind_raise].
  apply (blind_ext _ (run_loops api page_limit date fuel (loops ts ds)));
    [intros s; apply tiers_loop_flat|].
  induction (loops ts ds) as [|[tier division] rest IH]; [apply blind_ret|].
  cbn [run_loops]. apply blind_bind; [apply blind_pages_loop|].
  intros [|]; [exact IH|apply blind_ret].
Qed.

(** What a page leaves in the table, every later page finds there. *)
Lemma insert_page_keys (page : list summoner) (t : list summoner_row) :
  (forall r, In r (page_rows date page) ->
             has_key puuid (puuid r) (fst (insert_page date page t)) = true)
  /\ (forall k, has_key puuid k t = true ->
                has_key puuid k (fst (insert_page date page t)) = true).
Proof.
  pose proof (insert_page_ok date page t) as Hok.
  unfold insert_page, transaction in *.
  destruct (executemany (insert_or_ignore puuid (fun _ => true))
                        (page_rows date page) t) as [t'|e] eqn:Hrun;
    [|discriminate Hok].
  apply StoreFacts.executemany_or_ignore_keys in Hrun. cbn [fst]. tauto.
Qed.

Lemma store_pages_keys (ps : list (list summoner)) (t : list summoner_row) :
  (forall page r, In page ps -> In r (page_rows date page) ->
                  has_key puuid (puuid r) (store_pages date ps t) = true)
  /\ (forall k, has_key puuid k t = true ->
                has_key puuid k (store_pages date ps t) = true).
Proof.
  revert t. induction ps as [|page ps IH]; intros t; [split; [easy|auto]|].
  cbn [store_pages fold_left].
  destruct (IH (fst (insert_page date page t))) as [Hin Hmono].
  destruct (insert_page_keys page t) as [Hpage Hkeep]. split.
  - intros page' r [<- | Hp] Hr; [apply Hmono, Hpage, Hr|].
    now apply (Hin page').
  - intros k Hk. apply Hmono, Hkeep, Hk.
Qed.

Lemma store_pages_stored (ps : list (list summoner)) (t : list summoner_row) :
  (forall page r, In page ps -> In r (page_rows date page) ->
                  has_key puuid (puuid r) t = true) ->
  store_pages date ps t = t.
Proof.
  induction ps as [|page ps IH]; intros Hall; [reflexivity|].
  cbn [store_pages fold_left].
  assert (Hsame : fst (insert_page date page t) = t).
  { unfold insert_page, transaction.
    rewrite StoreFacts.executemany_or_ignore_noop; [reflexivity|].
    intros r Hr. apply (Hall page); [now left|exact Hr]. }
  rewrite Hsame. apply IH. intros page' r Hp Hr. apply (Hall page'); [now right|exact Hr].
Qed.

Lemma store_pages_twice (ps : list (list summoner)) (t : list summoner_row) :
  store_pages date ps (store_pages date ps t) = store_pages date ps t.
Proof.
  apply store_pages_stored. intros page r Hp Hr.
  now apply (proj1 (store_pages_keys ps t) page).
Qed.

(** X26.  Stage 1 never reads its table and writes it with
    [INSERT OR IGNORE] alone, so running it again changes nothing:
    started on the table a first call left, with the same arguments and
    the same answers, the call ends the same way with the same log, and
    the table is as the first call left it.  This holds for calls that
    end with an exception as well. *)
Theorem stage1_rerun_changes_nothing (fuel : nat) (tiers divisions : argument)
        (t : list summoner_row) :
  let stage := _collect_summoner_entries_by_tier api page_limit date fuel
                                                 tiers divisions in
  let first := stage (initial t) in
  let again := stage (initial (Summoners_Table (fst first))) in
  Summoners_Table (fst again) = Summoners_Table (fst first)
  /\ snd again = snd first
  /\ log (fst again) = log (fst first).
Proof.
  intros stage first again.
  destruct (blind_stage fuel tiers divisions (initial t)
                        (initial (Summoners_Table (fst first))))
    as [Hr [Ha [ps [H1 H2]]]]; [now repeat split|].
  fold stage in Hr, Ha, H1, H2. fold first in Hr, Ha, H1, H2.
  fold again in Hr, Ha, H2.
  split; [|split; [now symmetry|symmetry; apply Ha]].
  rewrite H2. cbn [initial Summoners_Table]. rewrite H1.
  cbn [initial Summoners_Table]. apply store_pages_twice.
Qed.

End Blind.

Section Pages.
Variable api : string -> option string -> Z -> result response.
Variable page_limit : Z.
Variable date : string.

(** An iteration that finds nothing leaves the loop. *)
Lemma iteration_empty (tier : string) (division : option string) (p : Z)
      (s : state) (r : response) :
  api tier division p = Ok r -> is_empty r = true ->
  exists s',
    iteration api date tier division p s = (s', Ok true)
    /\ Summoners_Table s' = Summoners_Table s.
Proof.
  intros Hapi Hr. unfold iteration, fetch. rewrite Hapi.
  unfold bind, say, assign_entries, modify. cbn [summoner_entries].
  unfold guard_challenger, guard_division. rewrite Hr.
  destruct division; eexists; split; reflexivity.
Qed.

(** A loop that is answered page after page, up to an empty one. *)
Lemma pages_loop_collects (tier : string) (division : option string)
      (ps : list (list summoner)) (fuel : nat) (p : Z) (s : state) :
  page_limit <= 0 -> 1 <= p -> (length ps < fuel)%nat ->
  (forall i page, ps !! i = Some page ->
                  page <> []
                  /\ api tier division (p + Z.of_nat i) = Ok (Entries page)) ->
  (exists r, api tier division (p + Z.of_nat (length ps)) = Ok r
             /\ is_empty r = true) ->
  exists s',
    pages_loop api page_limit date fuel tier division p s = (s', Ok Finished)
    /\ Summoners_Table s' = store_pages date ps (Summoners_Table s)
    /\ length (requests s') = (length (requests s) + S (length ps))%nat.
Proof.
  intros Hpl. revert fuel p s.
  induction ps as [|page ps IH]; intros fuel p s Hp Hfuel Hpages [r [Hr He]];
    (destruct fuel as [|fuel]; [cbn in Hfuel; lia|]);
    rewrite pages_loop_step; unfold bind;
    pose proof (iteration_requests api date tier division p s) as Hreq.
  - cbn [length] in Hr. rewrite Z.add_0_r in Hr.
    destruct (iteration_empty tier division p s r Hr He) as [s1 [Hit Ht]].
    rewrite Hit in *. cbn [fst] in Hreq. exists s1.
    split; [reflexivity|]. split; [exact Ht|].
    rewrite Hreq, length_app. reflexivity.
  - destruct (Hpages O page eq_refl) as [Hne Hfirst]. rewrite Z.add_0_r in Hfirst.
    destruct (iteration_page api date tier division p s page Hne)
      as [s1 [x [Hit [_ [Ht1 _]]]]]; [now rewrite Hfirst|].
    rewrite Hit in *. cbn [fst] in Hreq.
    rewrite (last_page_unlimited page_limit p) by lia.
    destruct (IH fuel (p + 1) s1) as [s' [Hrun [Ht' Hn']]].
    + lia.
    + cbn [length] in Hfuel. lia.
    + intros i pg Hi. destruct (Hpages (S i) pg Hi) as [Hpg Hans].
      split; [exact Hpg|]. rewrite <- Hans. f_equal. lia.
    + exists r. split; [|exact He]. rewrite <- Hr. f_equal.
      cbn [length]. lia.
    + exists s'. split; [exact Hrun|]. split.
      * rewrite Ht', Ht1. reflexivity.
      * rewrite Hn', Hreq, length_app. cbn [length]. lia.
Qed.

(** X27.  With an API that answers as documented the stage stores every
    page.  Without a page limit, if for each [while] loop of the call
    the requests for pages 1, 2, ... are answered with non-empty pages
    up to a page that is empty or [None], then the call ends normally;
    the table is the old one with all these pages written in order by
    [INSERT OR IGNORE]; and one request was sent per page, plus one per
    loop for the page that ended it. *)
Theorem stage1_stores_every_page (fuel : nat) (tiers divisions : argument)
        (ts ds : list string) (plan : list (list (list summoner))) (s : state) :
  page_limit <= 0 ->
  validate tiers divisions = Ok (ts, ds) ->
  Forall2 (fun l ps => answers api (fst l) (snd l) ps /\ (length ps < fuel)%nat)
          (loops ts ds) plan ->
  exists s',
    _collect_summoner_entries_by_tier api page_limit date fuel tiers divisions s
    = (s', Ok Finished)
    /\ Summoners_Table s' = store_pages date (concat plan) (Summoners_Table s)
    /\ length (requests s')
       = (length (requests s) + length (concat plan) + length plan)%nat.
Proof.
  intros Hpl Hv Hplan. unfold _collect_summoner_entries_by_tier. rewrite Hv.
  assert (Hflat : forall s0, tiers_loop api page_limit date fuel ts ds s0
                             = run_loops api page_limit date fuel (loops ts ds) s0)
    by (intros s0; apply tiers_loop_flat).
  rewrite Hflat. clear Hflat Hv. revert s.
  induction Hplan as [|[tier division] ps ls plan [[Hpages Hlast] Hfuel] _ IH];
    intros s.
  - exists s. cbn. split; [reflexivity|]. split; [reflexivity|lia].
  - cbn [run_loops fst snd] in *. unfold bind.
    destruct (pages_loop_collects tier division ps fuel 1 s)
      as [s1 [Hrun [Ht1 Hn1]]]; [exact Hpl|lia|exact Hfuel|exact Hpages|exact Hlast|].
    rewrite Hrun. destruct (IH s1) as [s' [Hrest [Ht' Hn']]].
    exists s'. split; [exact Hrest|]. split.
    + rewrite Ht', Ht1. cbn [concat]. unfold store_pages.
      now rewrite fold_left_app.
    + rewrite Hn', Hn1. cbn [concat length]. rewrite length_app. lia.
Qed.

End Pages.

End LadderFacts.

(** ** Stage 1 on sample answers *)

Module LadderWitnesses.
Import Store Stage1 Ladder LadderSpec LadderFixtures LadderFacts.

(** An unknown tier, an unknown division, and a tuple of divisions. *)
Lemma stage1_validates_before_fetching_witness :
  _collect_summoner_entries_by_tier down (-1) "2025-01-01" 5
    (Listed ["GOLD"; "WOOD"]) Default (initial []) = (initial [], Raise ValueError)
  /\ _collect_summoner_entries_by_tier down (-1) "2025-01-01" 5
       Default (Listed ["I"; "V"]) (initial []) = (initial [], Raise ValueError)
  /\ _collect_summoner_entries_by_tier down (-1) "2025-01-01" 5
       (Listed ["WOOD"]) NotAList (initial []) = (initial [], Raise TypeError).
Proof.
  assert (Hwood : ~ "WOOD" ∈ valid_tiers).
  { apply (bool_decide_eq_false_1 _). vm_compute. reflexivity. }
  assert (Hfive : ~ "V" ∈ valid_divisions).
  { apply (bool_decide_eq_false_1 _). vm_compute. reflexivity. }
  split; [|split].
  - apply (proj2 (stage1_validates_before_fetching down (-1) "2025-01-01" 5
                    (Listed ["GOLD"; "WOOD"]) Default (initial []))
                 ["GOLD"; "WOOD"] valid_divisions eq_refl eq_refl).
    intros [Ht _]. inversion Ht as [|? ? _ Hrest]; subst.
    inversion Hrest as [|? ? Hw _]; subst. contradiction.
  - apply (proj2 (stage1_validates_before_fetching down (-1) "2025-01-01" 5
                    Default (Listed ["I"; "V"]) (initial []))
                 valid_tiers ["I"; "V"] eq_refl eq_refl).
    intros [_ Hd]. inversion Hd as [|? ? _ Hrest]; subst.
    inversion Hrest as [|? ? Hw _]; subst. contradiction.
  - apply (proj1 (stage1_validates_before_fetching down (-1) "2025-01-01" 5
                    (Listed ["WOOD"]) NotAList (initial []))).
    now right.
Defined.

(** The API is down when GOLD I is asked for first. *)
Lemma stage1_first_request_fails_witness :
  _collect_summoner_entries_by_tier down (-1) "2025-01-01" 1
    (Listed ["GOLD"; "CHALLENGER"]) Default (initial [])
  = ({| Summoners_Table := [];
        log := [Requested "GOLD" (Some "I") 1; ApiFailed; Unexpected Unbound];
        summoner_entries := None;
        type_of_entries := false;
        current_division := None |}, Raise UnboundLocalError).
Proof.
  apply (stage1_first_request_fails down (-1) "2025-01-01" 0
           (Listed ["GOLD"; "CHALLENGER"]) Default
           ["GOLD"; "CHALLENGER"] valid_divisions "GOLD" (Some "I")
           [("GOLD", Some "II"); ("GOLD", Some "III"); ("GOLD", Some "IV");
            ("CHALLENGER", None)] ApiError []);
    vm_compute; reflexivity.
Defined.

(** A 403 object for GOLD with the one division I, then CHALLENGER. *)
Lemma stage1_object_answer_witness :
  _collect_summoner_entries_by_tier forbidden (-1) "2025-01-01" 1
    (Listed ["GOLD"; "CHALLENGER"]) (Listed ["I"]) (initial [])
  = run_loops forbidden (-1) "2025-01-01" 1 [("CHALLENGER", None)]
      {| Summoners_Table := [];
         log := [Requested "GOLD" (Some "I") 1];
         summoner_entries := Some (Envelope (Some (Some 403)));
         type_of_entries := false;
         current_division := None |}.
Proof.
  apply (stage1_object_answer forbidden (-1) "2025-01-01" 0
           (Listed ["GOLD"; "CHALLENGER"]) (Listed ["I"])
           ["GOLD"; "CHALLENGER"] ["I"] "GOLD" (Some "I")
           [("CHALLENGER", None)] (Some (Some 403)) []);
    vm_compute; reflexivity.
Defined.

(** All tiers and divisions with a limit of two pages: 33 loops. *)
Lemma page_limit_bounds_the_requests_witness :
  snd (_collect_summoner_entries_by_tier one_page 2 "2025-01-01" 2
         Default Default (initial [])) <> Ok OutOfFuel
  /\ asked (length (loops valid_tiers valid_divisions) * Z.to_nat 2) (initial [])
           (fst (_collect_summoner_entries_by_tier one_page 2 "2025-01-01" 2
                   Default Default (initial []))).
Proof.
  apply (page_limit_bounds_the_requests one_page 2 "2025-01-01" 2 Default Default
           valid_tiers valid_divisions (initial [])).
  - lia.
  - vm_compute. lia.
  - vm_compute. reflexivity.
Defined.

(** A page limit of 0. *)
Lemma page_limit_below_one_is_no_limit_witness :
  _collect_summoner_entries_by_tier two_pages 0 "2025-01-01" 3
    (Listed ["CHALLENGER"]) Default (initial [])
  = _collect_summoner_entries_by_tier two_pages (-1) "2025-01-01" 3
      (Listed ["CHALLENGER"]) Default (initial []).
Proof.
  apply (page_limit_below_one_is_no_limit two_pages "2025-01-01" 0 3
           (Listed ["CHALLENGER"]) Default (initial [])).
  lia.
Defined.

(** The CHALLENGER ladder with an API that fails from page 2 on, for
    seven iterations. *)
Lemma stage1_spins_on_failing_api_witness :
  exists s',
    _collect_summoner_entries_by_tier one_page (-1) "2025-01-01" 7
      (Listed ["CHALLENGER"]) Default (initial []) = (s', Ok OutOfFuel)
    /\ Summoners_Table s' = fst (insert_page "2025-01-01" [alice; bob] [])
    /\ requests s' = map (fun i => ("CHALLENGER", None, 1 + Z.of_nat i)) (seq 0 7)
    /\ forall i, (i < 7)%nat ->
                 InsertSuccessful "CHALLENGER" "IV" (1 + Z.of_nat i) ∈ log s'.
Proof.
  apply (stage1_spins_on_failing_api one_page (-1) "2025-01-01" 7
           (Listed ["CHALLENGER"]) Default ["CHALLENGER"] valid_divisions
           "CHALLENGER" None [] [alice; bob] bob []).
  - lia.
  - vm_compute. reflexivity.
  - vm_compute. reflexivity.
  - reflexivity.
  - reflexivity.
  - intros q Hq. exists ApiError. unfold one_page.
    now rewrite (proj2 (Z.eqb_neq q 1)) by lia.
Defined.

(** GOLD and CHALLENGER without a division, against CHALLENGER alone. *)
Lemma divisions_only_matter_below_challenger_witness :
  _collect_summoner_entries_by_tier two_pages (-1) "2025-01-01" 3
    (Listed ["GOLD"; "CHALLENGER"]) (Listed []) (initial [])
  = _collect_summoner_entries_by_tier two_pages (-1) "2025-01-01" 3
      (Listed (filter (fun t => t = "CHALLENGER") ["GOLD"; "CHALLENGER"]))
      Default (initial []).
Proof.
  apply (divisions_only_matter_below_challenger two_pages (-1) "2025-01-01" 3
           ["GOLD"; "CHALLENGER"] valid_divisions Default (initial [])).
  - apply (bool_decide_eq_true_1 _). vm_compute. reflexivity.
  - reflexivity.
  - apply (bool_decide_eq_true_1 _). vm_compute. reflexivity.
Defined.

(** The CHALLENGER ladder of one page. *)
Lemma stage1_stores_every_page_witness :
  exists s',
    _collect_summoner_entries_by_tier two_pages (-1) "2025-01-01" 3
      (Listed ["CHALLENGER"]) Default (initial []) = (s', Ok Finished)
    /\ Summoners_Table s'
       = store_pages "2025-01-01" (concat [[[alice; bob]]]) (Summoners_Table (initial []))
    /\ length (requests s')
       = (length (requests (initial [])) + length (concat [[[alice; bob]]])
          + length [[[alice; bob]]])%nat.
Proof.
  apply (stage1_stores_every_page two_pages (-1) "2025-01-01" 3
           (Listed ["CHALLENGER"]) Default ["CHALLENGER"] valid_divisions
           [[[alice; bob]]] (initial [])).
  - lia.
  - vm_compute. reflexivity.
  - change (loops ["CHALLENGER"] valid_divisions) with [("CHALLENGER", @None string)].
    constructor; [|constructor]. split; [|cbn; lia]. split.
    + intros [|i] page Hpage; [|destruct i; discriminate Hpage].
      injection Hpage as <-. split; [discriminate|reflexivity].
    + exists (Entries []). split; reflexivity.
Defined.

End LadderWitnesses.

(** ** The orchestrator as a whole *)

Module ConfigMore.
Import Config ConfigSpec.

Section Run.
Variable W : Type.
Variable create_tables : M W unit.
Variable stage : nat -> M W unit.

(** A decorated stage is its gated stage plus one log line. *)
Lemma decorated_gated (k : nat) (flag : Z) (w : W) (l : list action) :
  process_decorator W stage k flag (w, l)
  = ((fst (gated W stage k flag w), l ++ [flag_action k flag]),
     snd (gated W stage k flag w)).
Proof.
  unfold process_decorator, gated, flag_action. destruct (flag =? 1).
  - unfold bind, log, modify, lift. cbn. now destruct (stage k w).
  - reflexivity.
Qed.

Lemma collect_data_calls (stages : list Z) (s : St W) :
  _collect_data W stage stages s = calls W stage 4 0 stages s.
Proof.
  unfold _collect_data. cbn [calls]. unfold bind, ret.
  repeat match goal with
         | |- context [index W stages ?k s] =>
             destruct (index W stages k s) as [? [?|?]]; [|reflexivity]
         | |- context [index W stages ?k ?s'] =>
             destruct (index W stages k s') as [? [?|?]]; [|reflexivity]
         | |- context [process_decorator W stage ?k ?a ?s'] =>
             destruct (process_decorator W stage k a s') as [? [[]|?]];
             [|reflexivity]
         end.
  reflexivity.
Qed.

Lemma skipn_nth (k : nat) (stages : list Z) (flag : Z) :
  nth_error stages k = Some flag ->
  skipn k stages = flag :: skipn (S k) stages.
Proof.
  revert stages. induction k as [|k IHk]; intros [|x xs] Hk; cbn in Hk |- *;
    [discriminate|injection Hk as ->; reflexivity|discriminate|now apply IHk].
Qed.

(** What [n] calls do, in terms of the flags that are there. *)
Lemma calls_gated (n k : nat) (stages : list Z) (w : W) (l : list action) :
  let flags := firstn n (skipn k stages) in
  let done := gated_from W stage k flags w in
  exists m,
    calls W stage n k stages (w, l)
    = ((fst done, l ++ firstn m (flag_actions k flags)),
       match snd done with
       | Raise e => Raise e
       | Ok _ => if (length flags <? n)%nat then Raise IndexError else Ok tt
       end)
    /\ (snd done = Ok tt -> firstn m (flag_actions k flags) = flag_actions k flags).
Proof.
  revert k w l. induction n as [|n IH]; intros k w l flags done.
  - exists O. subst flags done. cbn. rewrite app_nil_r. now split.
  - subst flags done. cbn [calls]. unfold bind at 1, index.
    destruct (nth_error stages k) as [flag|] eqn:Hk.
    + rewrite (skipn_nth k stages flag Hk). cbn [firstn gated_from length]. unfold ret, bind.
      rewrite decorated_gated.
      change (S (length (firstn n (skipn (S k) stages))) <? S n)%nat
        with (length (firstn n (skipn (S k) stages)) <? n)%nat.
      destruct (gated W stage k flag w) as [w1 [[]|e]]; cbn [fst snd].
      * destruct (IH (S k) w1 (l ++ [flag_action k flag])) as [m [Hrun Hm]].
        unfold bind in Hrun. rewrite Hrun.
        exists (S m). cbn [flag_actions firstn]. rewrite <- app_assoc. split.
        -- reflexivity.
        -- intros Hdone. f_equal. now apply Hm.
      * exists 1%nat. cbn [flag_actions firstn]. split; [reflexivity|discriminate].
    + assert (Hskip : skipn k stages = []).
      { apply skipn_all2. now apply nth_error_None. }
      rewrite Hskip. cbn. exists O. rewrite app_nil_r. now split.
Qed.

(** The whole run in terms of [plan]. *)
Lemma run_as_planned (stages : list Z) (w : W) :
  let done := plan W create_tables stage stages w in
  let lines := TablesCreated :: flag_actions 0 (firstn 4 stages) in
  exists m,
    start_pipeline W create_tables stage stages (w, [])
    = ((fst done, firstn m lines),
       match snd done with
       | Raise e => Raise e
       | Ok _ => if (length stages <? 4)%nat then Raise IndexError else Ok tt
       end)
    /\ (snd done = Ok tt -> firstn m lines = lines).
Proof.
  intros done lines. subst done lines.
  unfold start_pipeline, plan, bind, lift. cbn [fst snd].
  destruct (create_tables w) as [w0 [[]|e]]; cbn [fst snd].
  2:{ exists O. split; [reflexivity|discriminate]. }
  unfold log, modify. cbn [fst snd app]. rewrite collect_data_calls.
  destruct (calls_gated 4 0 stages w0 [TablesCreated]) as [m [Hrun Hm]].
  change (skipn 0 stages) with stages in Hrun, Hm.
  assert (Hlen : (length (firstn 4 stages) <? 4)%nat = (length stages <? 4)%nat).
  { destruct stages as [|f0 [|f1 [|f2 [|f3 rest]]]]; reflexivity. }
  rewrite Hlen in Hrun. rewrite Hrun. exists (S m). split; [reflexivity|].
  intros Hdone. cbn [firstn]. f_equal. now apply Hm.
Qed.


(** The calls up to a stage that raises. *)
Lemma calls_fail (e : exn) (k n k0 : nat) (stages : list Z) (w : W)
      (l : list action) :
  (k0 <= k < k0 + n)%nat ->
  nth_error stages k = Some 1 ->
  (forall w0, snd (stage k w0) = Raise e) ->
  (forall j w0, j <> k -> snd (stage j w0) = Ok tt) ->
  exists w',
    calls W stage n k0 stages (w, l)
    = ((w', l ++ flag_actions k0 (firstn (S k - k0) (skipn k0 stages))),
       Raise e).
Proof.
  intros Hk Hflag Hfail Hok. revert k0 w l Hk.
  induction n as [|n IH]; intros k0 w l Hk; [lia|].
  cbn [calls]. unfold bind at 1, index.
  destruct (nth_error stages k0) as [flag|] eqn:Hk0.
  2:{ apply nth_error_None in Hk0.
      assert (k < length stages)%nat by (apply nth_error_Some; congruence). lia. }
  rewrite (skipn_nth k0 stages flag Hk0). unfold ret, bind.
  rewrite decorated_gated.
  destruct (decide (k0 = k)) as [->|Hne].
  - assert (flag = 1) by congruence. subst flag.
    replace (S k - k)%nat with 1%nat by lia. cbn [firstn flag_actions].
    unfold gated. cbn [Z.eqb Pos.eqb]. specialize (Hfail w).
    destruct (stage k w) as [w1 [[]|e']]; cbn [fst snd] in *; [discriminate|].
    injection Hfail as ->. now exists w1.
  - replace (S k - k0)%nat with (S (k - k0)) by lia. cbn [firstn flag_actions].
    assert (Hdone : snd (gated W stage k0 flag w) = Ok tt).
    { unfold gated. destruct (flag =? 1); [now apply Hok|reflexivity]. }
    destruct (gated W stage k0 flag w) as [w1 [[]|e']]; cbn [fst snd] in *;
      [|discriminate].
    destruct (IH (S k0) w1 (l ++ [flag_action k0 flag])) as [w' Hrun]; [lia|].
    rewrite Hrun. exists w'. rewrite <- app_assoc.
    replace (S k - S k0)%nat with (k - k0)%nat by lia. reflexivity.
Qed.

(** X29.  A stage that raises ends the run with its exception.  If the
    flag of stage [k] is 1 and that stage raises, while table creation
    and the other stages complete, [start_pipeline] raises the same
    exception; the log ends with the "Processing Started" line of that
    stage, and no later stage is started or reported as skipped.  The
    flags behind [k] are not read: on a tuple that is too short the run
    ends with the exception of the stage, not with [IndexError]. *)
Theorem failing_stage_ends_the_run (e : exn) (k : nat) (stages : list Z) (w : W) :
  (k < 4)%nat ->
  nth_error stages k = Some 1 ->
  (forall w0, snd (create_tables w0) = Ok tt) ->
  (forall w0, snd (stage k w0) = Raise e) ->
  (forall j w0, j <> k -> snd (stage j w0) = Ok tt) ->
  exists w',
    start_pipeline W create_tables stage stages (w, [])
    = ((w', TablesCreated :: flag_actions 0 (firstn (S k) stages)), Raise e).
Proof.
  intros Hk Hflag Htables Hfail Hok.
  unfold start_pipeline, bind, lift. cbn [fst snd].
  specialize (Htables w). destruct (create_tables w) as [w0 [[]|e']];
    cbn [fst snd] in *; [|discriminate].
  unfold log, modify. cbn [fst snd app]. rewrite collect_data_calls.
  destruct (calls_fail e k 4 0 stages w0 [TablesCreated]) as [w' Hrun];
    try assumption; [lia|].
  rewrite Hrun. exists w'. rewrite Nat.sub_0_r. reflexivity.
Qed.

End Run.

(** C10.  The constructor raises [ValueError] exactly when some flag is
    neither 0 nor 1 or the tuple has more than four elements, and it
    raises nothing else; so a tuple of 0/1 flags of length 0 to 3 passes
    it.  On such a tuple [start_pipeline] raises [IndexError] on the first
    missing flag, and only there: when table creation and the stages whose
    flag is 1 complete, the store is then the one that table creation
    followed by these stages, in order, leaves, and the log holds the
    table message and one line per flag given. *)
Theorem stage_flags_checked_late (stages : list Z) :
  (__init__ stages = Raise ValueError <->
     Exists (fun v => v <> 0 /\ v <> 1) stages \/ (4 < length stages)%nat)
  /\ (__init__ stages = Ok tt \/ __init__ stages = Raise ValueError)
  /\ (Forall (fun v => v = 0 \/ v = 1) stages -> (length stages <= 3)%nat ->
      __init__ stages = Ok tt
      /\ forall (W : Type) (create_tables : M W unit) (stage : nat -> M W unit)
                (w : W),
           let before := (create_tables ;;; gated_from W stage 0 stages) w in
           snd before = Ok tt ->
           start_pipeline W create_tables stage stages (w, [])
           = ((fst before, TablesCreated :: flag_actions 0 stages),
              Raise IndexError)).
Proof.
  assert (Hiff : __init__ stages = Raise ValueError <->
            Exists (fun v => v <> 0 /\ v <> 1) stages \/ (4 < length stages)%nat).
  { unfold __init__. rewrite ConfigFacts.check_stages_raises. split.
    - intros [_ [Hl | Hex]]; [now right | now left].
    - intros [Hex | Hl].
      + split; [|now right]. intros ->. inversion Hex.
      + split; [|now left]. intros ->. simpl in Hl. lia. }
  split; [exact Hiff|]. split; [apply ConfigFacts.check_stages_total|].
  intros H01 Hlen. split.
  - destruct (ConfigFacts.check_stages_total (length stages) stages)
      as [Hok | Hbad]; [exact Hok|].
    apply Hiff in Hbad. destruct Hbad as [Hex | Hl]; [|lia].
    apply Exists_exists in Hex. destruct Hex as [v [Hin [Hv0 Hv1]]].
    rewrite Forall_forall in H01. destruct (H01 v Hin); congruence.
  - intros W create_tables stage w before Hdone. subst before.
    destruct (run_as_planned W create_tables stage stages w) as [m [Hrun Hm]].
    unfold plan in Hrun, Hm. rewrite firstn_all2 in Hrun, Hm by lia.
    rewrite Hrun, (Hm Hdone), Hdone.
    now rewrite (proj2 (Nat.ltb_lt (length stages) 4)) by lia.
Qed.

(** The theorem at the tuple [(1, 0, 1)], with a store that counts: table
    creation adds 1, stage [k] adds [10 * (k + 1)].  The constructor
    accepts the tuple, and the run stops on the missing fourth flag with
    1 + 10 + 30 in the store: stages 1 and 3 have run, stage 2 was
    skipped. *)
Lemma stage_flags_checked_late_witness :
  __init__ [1; 0; 1] = Ok tt
  /\ start_pipeline nat (fun w => (S w, Ok tt))
                    (fun k w => ((w + 10 * S k)%nat, Ok tt)) [1; 0; 1] (O, [])
     = ((41%nat, [TablesCreated; ProcessingStarted 0; ProcessingSkipped 1;
                  ProcessingStarted 2]), Raise IndexError).
Proof.
  destruct (stage_flags_checked_late [1; 0; 1]) as [_ [_ H]].
  destruct H as [Hinit Hrun].
  - repeat (constructor; [lia|]). constructor.
  - simpl. lia.
  - split; [exact Hinit|].
    apply (Hrun nat (fun w => (S w, Ok tt))
                (fun k w => ((w + 10 * S k)%nat, Ok tt)) O).
    reflexivity.
Defined.

(** Stage 2 raising on the tuple [(0, 1)]. *)
Lemma failing_stage_ends_the_run_witness :
  exists w',
    start_pipeline nat (fun w => (S w, Ok tt))
                   (fun j w => if (j =? 1)%nat then (w, Raise ZeroDivisionError)
                               else (w, Ok tt))
                   [0; 1] (O, [])
    = ((w', TablesCreated :: flag_actions 0 (firstn 2 [0; 1])),
       Raise ZeroDivisionError).
Proof.
  apply (failing_stage_ends_the_run nat (fun w => (S w, Ok tt))
           (fun j w => if (j =? 1)%nat then (w, Raise ZeroDivisionError)
                       else (w, Ok tt))
           ZeroDivisionError 1 [0; 1] O).
  - lia.
  - reflexivity.
  - reflexivity.
  - reflexivity.
  - intros j w0 Hj. apply Nat.eqb_neq in Hj. now rewrite Hj.
Defined.

End ConfigMore.

(** ** Table creation *)

Module SchemaFacts.
Import Schema.

Section Schema.
Variable T : Type.
Variable no_rows : T.

Abbreviation added := (create_table_if_not_exists T no_rows).

Lemma added_lookup (name n : string) (tables : gmap string T) :
  added n tables !! name
  = match tables !! name with
    | Some c => Some c
    | None => if bool_decide (name = n) then Some no_rows else None
    end.
Proof.
  unfold create_table_if_not_exists.
  destruct (tables !! n) as [c|] eqn:Hn.
  - destruct (tables !! name) as [c'|] eqn:Hname; [reflexivity|].
    rewrite bool_decide_eq_false_2; [reflexivity|]. congruence.
  - destruct (decide (name = n)) as [->|Hne].
    + rewrite lookup_insert_eq, Hn. now rewrite bool_decide_eq_true_2.
    + rewrite lookup_insert_ne by congruence.
      rewrite bool_decide_eq_false_2 by exact Hne. now destruct (tables !! name).
Qed.

Lemma added_again (n : string) (tables : gmap string T) :
  is_Some (tables !! n) -> added n tables = tables.
Proof. intros [c Hc]. unfold create_table_if_not_exists. now rewrite Hc. Qed.

(** The schema on top of what is there. *)
Lemma schema_lookup (name : string) (tables : gmap string T) :
  fold_right added tables (rev table_names) !! name
  = match tables !! name with
    | Some c => Some c
    | None => if bool_decide (name ∈ table_names) then Some no_rows else None
    end.
Proof.
  unfold table_names. cbn [rev app fold_right]. rewrite !added_lookup.
  destruct (tables !! name) as [c|]; [reflexivity|].
  repeat match goal with
         | |- context [bool_decide (name = ?n)] =>
             destruct (decide (name = n)) as [->|?];
             [rewrite ?bool_decide_eq_true_2 by reflexivity;
              now rewrite bool_decide_eq_true_2 by (vm_compute; set_solver)
             |rewrite (bool_decide_eq_false_2 (name = n)) by assumption]
         end.
  rewrite bool_decide_eq_false_2; [reflexivity|].
  rewrite !elem_of_cons, elem_of_nil. tauto.
Qed.

Lemma create_runs (s : state T) :
  create T no_rows s
  = ({| file := Some (fold_right added (default ∅ (file s)) (rev table_names));
        log := log s
               ++ [if is_file T s then DatabaseAlreadyExists else DatabaseCreated;
                   DatabaseAlreadyExists]
               ++ commit_messages |}, Ok tt).
Proof.
  destruct s as [[tables|] l]; cbn; unfold say, modify; cbn;
    rewrite <- ?app_assoc; reflexivity.
Qed.

(** X30.  Table creation never fails, keeps what is stored, and reports
    the same on every run.  The two calls [start_pipeline] opens with
    leave a database file that holds the five tables of the schema: a
    table that was there keeps its contents (so do tables outside the
    schema), a missing one is created empty.  A second run leaves the
    file as it is.  The log cannot tell the runs apart beyond its first
    line: "Database already exists." is logged on every run, the one
    that created the file included, because [_create_database] is
    called twice; and each table is reported as created whether it was
    or not. *)
Theorem tables_created_once_reported_always (s : state T) :
  let s' := fst (create T no_rows s) in
  snd (create T no_rows s) = Ok tt
  /\ (exists tables',
        file s' = Some tables'
        /\ forall name,
             tables' !! name
             = match default ∅ (file s) !! name with
               | Some c => Some c
               | None => if bool_decide (name ∈ table_names)
                         then Some no_rows else None
               end)
  /\ log s' = log s
              ++ (if is_file T s then DatabaseAlreadyExists else DatabaseCreated)
              :: DatabaseAlreadyExists :: commit_messages
  /\ file (fst (create T no_rows s')) = file s'
  /\ log (fst (create T no_rows s'))
     = log s' ++ DatabaseAlreadyExists :: DatabaseAlreadyExists :: commit_messages.
Proof.
  intros s'. subst s'. rewrite (create_runs s). cbn [fst snd].
  rewrite create_runs. cbn [fst snd file log is_file].
  generalize (default ∅ (file s)). intros tables. cbn [default from_option id].
  split; [reflexivity|]. split; [|split; [reflexivity|split; [|reflexivity]]].
  - eexists. split; [reflexivity|]. intros name. apply schema_lookup.
  - f_equal. apply map_eq. intros name. rewrite !schema_lookup.
    destruct (tables !! name); [reflexivity|].
    now destruct (bool_decide (name ∈ table_names)).
Qed.

End Schema.

End SchemaFacts.
